(** * electron-gumroad-license: license verification and local trust

    A shallow embedding of [createLicenseManager] in its two variants:
    - [Plain]      : src/index.ts, which posts with axios and keeps the
                     key in the store as it is;
    - [FileBacked] : the variant that posts with fetch, writes the key,
                     AES-256-CBC encrypted, to a license file and keeps
                     the IV in the store.

    Strings are byte strings (the UTF-8 form of the JavaScript string),
    numbers are integers ([Z]; the counts, limits and times of the
    program), buffers are lists of bytes.  What the program takes from
    its surroundings (clock, network, random source, machine id, file
    system permissions) is an [Env]; what it changes (store, files,
    requests sent) is a [World]. *)

From Stdlib Require Import ZArith List String Ascii Bool Lia.
From Stdlib Require Import Strings.Byte.
From stdpp Require Import base option gmap strings list pretty.

Local Open Scope Z_scope.
Local Open Scope string_scope.

(** ** Enumerations and records of the source *)

Inductive CheckStatus :=
  | ValidLicense
  | InvalidLicense
  | OutdatedLicense
  | NotSet
  | UnableToCheck.

Inductive ErrorType :=
  | ServerUnavailable
  | ActivationError
  | MaxUseExceeded
  | LicenseRefunded
  | UnknownError.

Record GumroadError := { type : ErrorType; message : string }.

(** Modelled from the spec: [Purchase], [GumroadResponse] and
    [GumroadSuccessResponse] are declared in ./types/gumroad, which is not
    part of the sources at hand.  The fields are the ones the code reads
    ([success], [message], [uses], [purchase], [refunded],
    [chargebacked]) and the ones section 3 of the specification lists.
    A field of a purchase is [None] when the object has no such key. *)
Record Purchase := {
  purchase_product_id : option string;
  refunded : option bool;
  chargebacked : option bool;
}.

(** The object [{}]: no key at all. *)
Definition empty_object : Purchase :=
  {| purchase_product_id := None; refunded := None; chargebacked := None |}.

(** Truthiness of a field that holds a boolean or is missing. *)
Definition flag_set (b : option bool) : bool := default false b.

Record GumroadResponse := {
  success : bool;
  response_message : option string;
  response_uses : Z;
  response_purchase : option Purchase;
}.

(** [GumroadSuccessResponse]: the response once [success] and [purchase]
    are known to be there. *)
Record GumroadSuccessResponse := {
  uses : Z;
  purchase : Purchase;
}.

Record GumroadLicenseOptions := {
  maxUses : option Z;
  maxDaysBetweenChecks : option Z;
  gumroadApiUrl : option string;
  disableEncryption : option bool;
  timeout : option Z;
  rejectUnauthorized : option bool;
  (* only the file-backed variant declares and reads this one *)
  licenseFilePath : string;
}.

(** A value thrown by the platform: a rejected request, a failed file
    operation, a cipher error. *)
Inductive Exception :=
  | FetchFailed (reason : string)
  | FsError (code : string)
  | CipherError (reason : string).

(** [type CheckResult] *)
Inductive CheckResult :=
  | CheckValid (response : GumroadSuccessResponse)
  | CheckInvalid (error : GumroadError)
  | CheckUnable (error : Exception).

Definition status (r : CheckResult) : CheckStatus :=
  match r with
  | CheckValid _ => ValidLicense
  | CheckInvalid _ => InvalidLicense
  | CheckUnable _ => UnableToCheck
  end.

(** The [error] field of a failed [addLicense] is a [GumroadError], or, on
    [UnableToCheck], whatever the request threw ([error: any]). *)
Inductive ErrorValue :=
  | Classified (e : GumroadError)
  | Raw (e : Exception).

(** Return type of [addLicense]. *)
Inductive AddResult :=
  | AddSuccess (response : GumroadSuccessResponse)
  | AddFailure (error : ErrorValue).

(** Return type of [checkCurrentLicense]. *)
Inductive CurrentResult :=
  | CurrentValid (purchase : Purchase)
  | CurrentInvalid
  | CurrentOutdated
  | CurrentNotSet.

Definition current_status (r : CurrentResult) : CheckStatus :=
  match r with
  | CurrentValid _ => ValidLicense
  | CurrentInvalid => InvalidLicense
  | CurrentOutdated => OutdatedLicense
  | CurrentNotSet => NotSet
  end.

(** ** The request and the store *)

(** [increment_uses_count] goes out as a boolean in src/index.ts and as
    the text of [new Boolean(b).toString()] in the file-backed variant. *)
Inductive Flag :=
  | FlagBoolean (b : bool)
  | FlagText (s : string).

(** What the code hands to [axios.post] and to [fetch]: the address and
    the fields of the object it posts.  In src/index.ts the three fields
    of the service sit under [form], and [timeout: { send }] is one more
    key of the posted object: [axios.post] takes its second argument as
    the body, so nothing is timed out by it.  The file-backed variant
    passes no such key. *)
Record Request := {
  url : string;
  product_id : string;
  license_key : string;
  increment_uses_count : Flag;
  timeout_send : option Z;
}.

Definition Boolean_toString (b : bool) : string :=
  if b then "true" else "false".

Definition increments (r : Request) : bool :=
  match increment_uses_count r with
  | FlagBoolean b => b
  | FlagText s => bool_decide (s = "true")
  end.

(** What a store path can hold.  The objects of the store are the ones
    at "license.purchase": a purchase, or [{}]. *)
Inductive value :=
  | VString (s : string)
  | VNumber (z : Z)
  | VBoolean (b : bool)
  | VObject (p : Purchase).

(** JavaScript truthiness, [!!v], with [None] for [undefined]. *)
Definition truthy (v : option value) : bool :=
  match v with
  | None => false
  | Some (VString s) => negb (bool_decide (s = ""))
  | Some (VNumber z) => negb (Z.eqb z 0)
  | Some (VBoolean b) => b
  | Some (VObject _) => true
  end.

(** The schema of the store gives "license.purchase" the default [{}]
    (src/index.ts 88-91); no other property of "license" has one.  The
    store is validated against the schema when it is constructed and
    every time it is written, and validation puts the default in the
    place of a missing property.  So "license.purchase" is never absent
    from the store: it holds [{}] from the construction on. *)
Definition schema_default (path : string) : option value :=
  if String.eqb path "license.purchase" then Some (VObject empty_object)
  else None.

(** The persisted store is addressed by dotted paths.  The program only
    ever names leaves ("license.key", "license.purchase", ...) and the
    top-level name "lastCheckSuccess", none of which is a prefix of
    another, so a finite map from the path to the value has the same
    [get] and [set] as the nested object.  [delete] removes the property
    and writes the store back, which validates it: a property with a
    default in the schema is back at that default.  ([set] writes a
    store that has its "license.purchase", which validation leaves as it
    is.) *)
Module Store.
Definition get (path : string) (s : gmap string value) : option value :=
  s !! path.
Definition set (path : string) (v : value) (s : gmap string value)
  : gmap string value := <[path := v]> s.
Definition delete (path : string) (s : gmap string value)
  : gmap string value :=
  match schema_default path with
  | Some v => <[path := v]> s
  | None => base.delete path s
  end.
End Store.

(** ** Surroundings and state *)

Record Env := {
  machineIdSync : string;
  (** [Date.now()], by the number of readings taken before *)
  Date_now : nat -> Z;
  (** the licensing service: the body of the answer to the n-th request
      (a JSON object), or what the request throws *)
  post : nat -> Request -> Exception + GumroadResponse;
  (** [randomBytes(16)], by the number of draws taken before *)
  randomBytes : nat -> list byte;
  (** whether [writeFileSync] may create or overwrite the path *)
  writable : string -> bool;
}.

Record World := {
  store : gmap string value;
  files : gmap string (list byte);
  sent : list Request;
  clock_reads : nat;
  random_draws : nat;
  (** [https.globalAgent.options.rejectUnauthorized] *)
  globalAgent_rejectUnauthorized : bool;
}.

(** ** Computations: state plus exceptions *)

Inductive Outcome (A : Type) :=
  | Returned (a : A)
  | Thrown (e : Exception).
Arguments Returned {A} a.
Arguments Thrown {A} e.

Definition M (A : Type) : Type := World -> Outcome A * World.

Definition ret {A} (a : A) : M A := fun w => (Returned a, w).

Definition bind {A B} (m : M A) (k : A -> M B) : M B :=
  fun w =>
    match m w with
    | (Returned a, w') => k a w'
    | (Thrown e, w') => (Thrown e, w')
    end.

Definition throw {A} (e : Exception) : M A := fun w => (Thrown e, w).

Declare Scope js_scope.
Delimit Scope js_scope with js.
Notation "'let!' x ':=' m 'in' k" := (bind m (fun x => k))
  (at level 10, x name, m at level 100, k at level 200) : js_scope.
Notation "m ';;;' k" := (bind m (fun _ => k))
  (at level 100, k at level 200, right associativity) : js_scope.
Local Open Scope js_scope.

Definition gets {A} (f : World -> A) : M A := fun w => (Returned (f w), w).
Definition modify (f : World -> World) : M unit := fun w => (Returned tt, f w).

Definition with_store (f : gmap string value -> gmap string value) (w : World) : World :=
  {| store := f (store w); files := files w; sent := sent w;
     clock_reads := clock_reads w; random_draws := random_draws w;
     globalAgent_rejectUnauthorized := globalAgent_rejectUnauthorized w |}.

Definition licenseStore_get (path : string) : M (option value) :=
  gets (fun w => Store.get path (store w)).
Definition licenseStore_set (path : string) (v : value) : M unit :=
  modify (with_store (Store.set path v)).
Definition licenseStore_delete (path : string) : M unit :=
  modify (with_store (Store.delete path)).

Definition Date_now_ (env : Env) : M Z :=
  fun w =>
    (Returned (Date_now env (clock_reads w)),
     {| store := store w; files := files w; sent := sent w;
        clock_reads := S (clock_reads w); random_draws := random_draws w;
        globalAgent_rejectUnauthorized := globalAgent_rejectUnauthorized w |}).

Definition randomBytes_ (env : Env) : M (list byte) :=
  fun w =>
    (Returned (randomBytes env (random_draws w)),
     {| store := store w; files := files w; sent := sent w;
        clock_reads := clock_reads w; random_draws := S (random_draws w);
        globalAgent_rejectUnauthorized := globalAgent_rejectUnauthorized w |}).

(** One request to the licensing service: the request is recorded, the
    answer is the service's, a thrown value is handed to the caller's
    [catch]. *)
Definition request (env : Env) (r : Request) : M (Exception + GumroadResponse) :=
  fun w =>
    (Returned (post env (length (sent w)) r),
     {| store := store w; files := files w; sent := sent w ++ [r];
        clock_reads := clock_reads w; random_draws := random_draws w;
        globalAgent_rejectUnauthorized := globalAgent_rejectUnauthorized w |}).

Definition disable_certificate_check : M unit :=
  modify (fun w =>
    {| store := store w; files := files w; sent := sent w;
       clock_reads := clock_reads w; random_draws := random_draws w;
       globalAgent_rejectUnauthorized := false |}).

Definition existsSync (path : string) : M bool :=
  gets (fun w => bool_decide (is_Some (files w !! path))).

Definition readFileSync (path : string) : M (list byte) :=
  fun w =>
    match files w !! path with
    | Some data => (Returned data, w)
    | None => (Thrown (FsError "ENOENT"), w)
    end.

Definition writeFileSync (env : Env) (path : string) (data : list byte) : M unit :=
  fun w =>
    if writable env path then
      (Returned tt,
       {| store := store w; files := <[path := data]> (files w); sent := sent w;
          clock_reads := clock_reads w; random_draws := random_draws w;
          globalAgent_rejectUnauthorized := globalAgent_rejectUnauthorized w |})
    else (Thrown (FsError "EACCES"), w).

(** ** JavaScript strings *)

Definition API_URL : string := "https://api.gumroad.com/v2/licenses/verify".

(** ** Numbers as text and text as numbers *)

(** The numbers of JavaScript are those of IEEE 754 binary64.  From
    [2^53] on, two neighbours are [2^(e-52)] apart, [e] being the
    position of the leading bit; a decimal numeral denotes the number it
    is nearest to, the one with the even mantissa at equal distance.
    [nearest v c] says that the integer [c] denotes [v >= 2^53]. *)
Definition nearest (v c : Z) : bool :=
  let ulp := 2 ^ (Z.log2 v - 52) in
  let below := if Z.eqb v (2 ^ Z.log2 v) then ulp / 2 else ulp in
  let even := Z.even (v / ulp) in
  if Z.ltb c v then
    if even then Z.leb (2 * (v - c)) below else Z.ltb (2 * (v - c)) below
  else
    if even then Z.leb (2 * (c - v)) ulp else Z.ltb (2 * (c - v)) ulp.

(** The digits [s] and the exponent [p] of Number::toString: the
    greatest [p] with a multiple [s * 10^p] that denotes [v], and of two
    such multiples the one closer to [v], the even [s] at equal
    distance. *)
Fixpoint shortest_digits (p : nat) (v : Z) : Z * nat :=
  let t := 10 ^ Z.of_nat p in
  let s1 := v / t in
  let s2 := s1 + 1 in
  let ok1 := Z.leb 1 s1 && nearest v (s1 * t) in
  let ok2 := nearest v (s2 * t) in
  let found :=
    if ok1 && ok2 then
      if Z.ltb (v - s1 * t) (s2 * t - v) then Some s1
      else if Z.ltb (s2 * t - v) (v - s1 * t) then Some s2
      else if Z.even s1 then Some s1 else Some s2
    else if ok1 then Some s1
    else if ok2 then Some s2
    else None in
  match found, p with
  | Some s, _ => (s, p)
  | None, O => (v, O)
  | None, S p' => shortest_digits p' v
  end.

(** [String(v)] of a number that is a positive integer: plain digits up
    to 21 of them, exponent notation beyond. *)
Definition Number_toString_positive (v : Z) : string :=
  if Z.ltb v (2 ^ 53) then pretty v
  else
    let '(s, p) := shortest_digits (String.length (pretty v)) v in
    let digits := pretty s in
    let n := (String.length digits + p)%nat in
    if (n <=? 21)%nat then digits +:+ string_of_list_ascii (replicate p "0"%char)
    else
      match digits with
      | String d EmptyString => String d "e+" +:+ pretty (Z.of_nat n - 1)
      | String d rest => String d ("." +:+ rest) +:+ "e+" +:+ pretty (Z.of_nat n - 1)
      | EmptyString => EmptyString
      end.

(** [String(n)], also what a template literal makes of a number. *)
Definition Number_toString (n : Z) : string :=
  if Z.eqb n 0 then "0"
  else if Z.ltb n 0 then "-" +:+ Number_toString_positive (- n)
  else Number_toString_positive n.

(** [String(v)] as used by [+] on a store value. *)
Definition js_to_string (v : option value) : string :=
  match v with
  | None => "undefined"
  | Some (VString s) => s
  | Some (VNumber z) => Number_toString z
  | Some (VBoolean b) => Boolean_toString b
  | Some (VObject _) => "[object Object]"
  end.

(** The white space and line terminators of [String.prototype.trim], in
    UTF-8: TAB, LF, VT, FF, CR, SP, U+00A0, U+1680, U+2000..U+200A,
    U+2028, U+2029, U+202F, U+205F, U+3000, U+FEFF. *)
Definition white_space : list (list ascii) :=
  map (map ascii_of_nat)
    (List.app
       [ [9]; [10]; [11]; [12]; [13]; [32]; [194; 160]; [225; 154; 128] ]
       (List.app
          (map (fun n => [226; 128; n]) (seq 128 11))
          [ [226; 128; 168]; [226; 128; 169]; [226; 128; 175];
            [226; 129; 159]; [227; 128; 128]; [239; 187; 191] ]))%nat.

Definition ascii_list_eqb (a b : list ascii) : bool :=
  bool_decide (a = b).

Fixpoint strip (fuel : nat) (tokens : list (list ascii)) (s : list ascii) : list ascii :=
  match fuel with
  | O => s
  | S fuel' =>
      match List.find (fun t => ascii_list_eqb (take (length t) s) t) tokens with
      | Some t => strip fuel' tokens (drop (length t) s)
      | None => s
      end
  end.

Definition trimStart_list (s : list ascii) : list ascii :=
  strip (length s) white_space s.

Definition trimEnd_list (s : list ascii) : list ascii :=
  rev (strip (length s) (map (@rev ascii) white_space) (rev s)).

Definition trim (s : string) : string :=
  string_of_list_ascii (trimEnd_list (trimStart_list (list_ascii_of_string s))).

Definition digit_value (c : ascii) : option Z :=
  let n := N_of_ascii c in
  if ((48 <=? n) && (n <=? 57))%N then Some (Z.of_N (n - 48)) else None.

Fixpoint decimal_digits (acc : Z) (s : string) : option Z :=
  match s with
  | EmptyString => Some acc
  | String c rest =>
      match digit_value c with
      | Some d => decimal_digits (10 * acc + d) rest
      | None => None
      end
  end.

(** [Number(s)] of a string, [None] for NaN: white space around the
    numeral is dropped, nothing left is 0, and a decimal integer with or
    without a sign is its value.  (A text that spells a number in another
    way, with a fraction, an exponent or a radix prefix, has no
    counterpart among the integers of this model; it is read as NaN.) *)
Definition StringToNumber (s : string) : option Z :=
  match trim s with
  | EmptyString => Some 0
  | String "+" (String c rest) => decimal_digits 0 (String c rest)
  | String "-" (String c rest) => option_map Z.opp (decimal_digits 0 (String c rest))
  | t => decimal_digits 0 t
  end.

(** [Number(v)] as the operator [-] applies it to a store value, [None]
    for NaN: an object is NaN, [true] is 1 and [false] is 0. *)
Definition ToNumber (v : value) : option Z :=
  match v with
  | VNumber z => Some z
  | VBoolean b => Some (if b then 1 else 0)
  | VString s => StringToNumber s
  | VObject _ => None
  end.

(** [a || b] on an optional string: the empty string is falsy too. *)
Definition or_else (a : option string) (b : string) : string :=
  match a with
  | Some s => if bool_decide (s = "") then b else s
  | None => b
  end.

(** ** Buffers *)

(** [Buffer.from(s, "utf8")] and [buf.toString()]: strings are kept in
    their UTF-8 form, so both are the change of carrier.  (A JavaScript
    string with an unpaired surrogate has no UTF-8 form; such strings
    are outside this model.  Of bytes that are not UTF-8, [toString]
    makes a text with U+FFFD in the place of each ill-formed part; here
    such bytes stand for themselves.  They only come up as the text of a
    key deciphered with a wrong IV or secret, which is some text other
    than the key either way.) *)
Definition Buffer_from_utf8 (s : string) : list byte := list_byte_of_string s.
Definition Buffer_toString (b : list byte) : string := string_of_list_byte b.

Definition hex_digit (n : N) : ascii :=
  ascii_of_N (if (n <? 10)%N then 48 + n else 87 + n)%N.

(** Value of a hexadecimal digit, either case. *)
Definition hex_value (c : ascii) : option N :=
  let n := N_of_ascii c in
  if ((48 <=? n) && (n <=? 57))%N then Some (n - 48)%N
  else if ((97 <=? n) && (n <=? 102))%N then Some (n - 87)%N
  else if ((65 <=? n) && (n <=? 70))%N then Some (n - 55)%N
  else None.

(** [buf.toString("hex")] *)
Fixpoint Buffer_toString_hex (b : list byte) : string :=
  match b with
  | [] => EmptyString
  | x :: rest =>
      String (hex_digit (Byte.to_N x / 16)%N)
        (String (hex_digit (Byte.to_N x mod 16)%N) (Buffer_toString_hex rest))
  end.

(** [Buffer.from(s, "hex")]: pairs of digits, cut at the first pair that
    is not hexadecimal; a last odd digit is dropped. *)
Fixpoint Buffer_from_hex (s : string) : list byte :=
  match s with
  | String a (String b rest) =>
      match hex_value a, hex_value b with
      | Some h, Some l =>
          match Byte.of_N (16 * h + l)%N with
          | Some x => x :: Buffer_from_hex rest
          | None => []
          end
      | _, _ => []
      end
  | _ => []
  end.

Definition xor_bits (a b : bool * (bool * (bool * (bool * (bool * (bool * (bool * bool)))))))
  : bool * (bool * (bool * (bool * (bool * (bool * (bool * bool)))))) :=
  let '(a0, (a1, (a2, (a3, (a4, (a5, (a6, a7))))))) := a in
  let '(b0, (b1, (b2, (b3, (b4, (b5, (b6, b7))))))) := b in
  (xorb a0 b0, (xorb a1 b1, (xorb a2 b2, (xorb a3 b3,
   (xorb a4 b4, (xorb a5 b5, (xorb a6 b6, xorb a7 b7))))))).

Definition byte_xor (a b : byte) : byte :=
  Byte.of_bits (xor_bits (Byte.to_bits a) (Byte.to_bits b)).

Definition xor_block (a b : list byte) : list byte := zip_with byte_xor a b.

(** ** The cipher: AES-256 in CBC mode with PKCS#7 padding

    The hash and the block transformation of AES are the platform's; the
    chaining, the padding and the argument checks of [createCipheriv],
    [update] and [final] are written out. *)

Record Platform := {
  (** [createHash("sha256").update(s).digest("base64")] *)
  sha256_base64 : string -> string;
  (** AES-256 on one block of 16 bytes, by key *)
  aes256_encrypt_block : list byte -> list byte -> list byte;
  aes256_decrypt_block : list byte -> list byte -> list byte;
  (** [join] of node:path *)
  join : string -> string -> string;
}.

Record PlatformLaws (P : Platform) : Prop := {
  (** a SHA-256 digest in base64 has 44 characters *)
  digest_length : forall s, String.length (sha256_base64 P s) = 44%nat;
  encrypt_block_length : forall k b,
    length k = 32%nat -> length b = 16%nat ->
    length (aes256_encrypt_block P k b) = 16%nat;
  decrypt_encrypt_block : forall k b,
    length k = 32%nat -> length b = 16%nat ->
    aes256_decrypt_block P k (aes256_encrypt_block P k b) = b;
  (** [join] never returns the empty string, it returns "." instead *)
  join_not_empty : forall a b, join P a b <> "";
}.

Section Cipher.
Variable P : Platform.

Definition pkcs7_pad (data : list byte) : list byte :=
  let n := (16 - length data mod 16)%nat in
  List.app data
    (replicate n (match Byte.of_nat n with Some x => x | None => x00 end)).

(** The check of [final()] when deciphering: the last byte [n] is
    between 1 and 16 and the last [n] bytes all equal it. *)
Definition pkcs7_unpad (data : list byte) : option (list byte) :=
  match last data with
  | None => None
  | Some x =>
      let n := Byte.to_nat x in
      if ((1 <=? n) && (n <=? 16) && (n <=? length data))%nat
         && forallb (Byte.eqb x) (drop (length data - n)%nat data)
      then Some (take (length data - n)%nat data)
      else None
  end.

Fixpoint cbc_encrypt (blocks : nat) (key previous data : list byte) : list byte :=
  match blocks with
  | O => []
  | S n =>
      let c := aes256_encrypt_block P key (xor_block (take 16 data) previous) in
      List.app c (cbc_encrypt n key c (drop 16 data))
  end.

Fixpoint cbc_decrypt (blocks : nat) (key previous data : list byte) : list byte :=
  match blocks with
  | O => []
  | S n =>
      let c := take 16 data in
      List.app (xor_block (aes256_decrypt_block P key c) previous)
               (cbc_decrypt n key c (drop 16 data))
  end.

(** [createCipheriv("aes-256-cbc", key, iv)] and [createDecipheriv]
    throw on a key that is not 32 bytes or an IV that is not 16. *)
Definition check_key_iv (key : string) (iv : list byte) : M unit :=
  if negb (Nat.eqb (length (Buffer_from_utf8 key)) 32) then
    throw (CipherError "Invalid key length")
  else if negb (Nat.eqb (length iv) 16) then
    throw (CipherError "Invalid initialization vector")
  else ret tt.

(** [Buffer.concat([cipher.update(data), cipher.final()])] *)
Definition cipher_update_final (key : string) (iv data : list byte) : list byte :=
  let padded := pkcs7_pad data in
  cbc_encrypt (length padded / 16) (Buffer_from_utf8 key) iv padded.

(** [Buffer.concat([decipher.update(data), decipher.final()])]: [final]
    throws on input that is empty or not whole blocks, and on bad
    padding. *)
Definition decipher_update_final (key : string) (iv data : list byte)
  : M (list byte) :=
  if Nat.eqb (length data) 0 || negb (Nat.eqb (length data mod 16) 0) then
    throw (CipherError "wrong final block length")
  else
    match pkcs7_unpad (cbc_decrypt (length data / 16) (Buffer_from_utf8 key) iv data) with
    | Some plain => ret plain
    | None => throw (CipherError "bad decrypt")
    end.

(** [createHash("sha256").update(String(productId + machineIdSync()))
     .digest("base64").substr(0, 32)] *)
Definition derive_secret (productId machineId : string) : string :=
  substring 0 32 (sha256_base64 P (productId +:+ machineId)).
End Cipher.


(** ** Lines shared by both variants *)

Definition refund_message : string :=
  "Your purchase has been refunded, so your license is no longer valid.".

Definition no_message : string :=
  "License check failed without an error message.".

(** What [validateLicenseCode] makes of the body of a response (lines
    182-212 of the file-backed variant, where [result] is the parsed
    body). *)
Definition interpret (result : GumroadResponse) : CheckResult :=
  if negb (success result) then
    CheckInvalid
      {| type := ActivationError;
         message := or_else (response_message result) no_message |}
  else
    match response_purchase result with
    | None => CheckInvalid {| type := LicenseRefunded; message := refund_message |}
    | Some p =>
        if flag_set (refunded p) || flag_set (chargebacked p) then
          CheckInvalid {| type := LicenseRefunded; message := refund_message |}
        else CheckValid {| uses := response_uses result; purchase := p |}
    end.

(** What [axios.post] resolves with: the response object of axios.  The
    body the service sent is its [data]; its other keys are [status],
    [statusText], [headers], [config] and [request]. *)
Record AxiosResponse := { data : GumroadResponse }.

(** src/index.ts keeps the response object itself in [result] (line 148)
    and reads [success], [message] and [purchase] off it, not off
    [result.data].  The response object has no such keys: the reads give
    [undefined], whatever the body holds. *)
Definition AxiosResponse_success (result : AxiosResponse) : option bool := None.
Definition AxiosResponse_message (result : AxiosResponse) : option string := None.
Definition AxiosResponse_purchase (result : AxiosResponse) : option Purchase := None.

(** Lines 164-194 of src/index.ts on the response object.  The test
    [!result.success] holds of every response; were it to fail,
    [!result.purchase] would hold. *)
Definition interpret_response (result : AxiosResponse) : CheckResult :=
  if negb (flag_set (AxiosResponse_success result)) then
    CheckInvalid
      {| type := ActivationError;
         message := or_else (AxiosResponse_message result) no_message |}
  else
    match AxiosResponse_purchase result with
    | None => CheckInvalid {| type := LicenseRefunded; message := refund_message |}
    | Some p =>
        if flag_set (refunded p) || flag_set (chargebacked p) then
          CheckInvalid {| type := LicenseRefunded; message := refund_message |}
        else CheckValid {| uses := response_uses (data result); purchase := p |}
    end.

(** [`You have reached the limit of ${options.maxUses} activations.`] *)
Definition max_use_message (maxUses : Z) : string :=
  "You have reached the limit of " +:+ Number_toString maxUses +:+ " activations.".

(** The [UnableToCheck] case of [checkCurrentLicense] (src/index.ts
    275-292).  The success time is read from the path "lastCheckSuccess",
    as the source does; [Date.now() - lastCheckSuccess] turns what it
    finds there into a number, and a comparison with NaN is false.
    "license.purchase" is an object by the schema of the store. *)
Definition offline_fallback (env : Env) (options : GumroadLicenseOptions)
  : M CurrentResult :=
  let! storedPurchase := licenseStore_get "license.purchase" in
  let! lastCheckSuccess := licenseStore_get "lastCheckSuccess" in
  let! outdated :=
    match maxDaysBetweenChecks options with
    | None => ret false
    | Some days =>
        if Z.eqb days 0 then ret false
        else if negb (truthy lastCheckSuccess) then ret true
        else
          let! now := Date_now_ env in
          match lastCheckSuccess ≫= ToNumber with
          | Some t => ret (Z.ltb (86400000 * days) (now - t))
          | None => ret false
          end
    end in
  if (outdated : bool) then ret CurrentOutdated
  else
    match storedPurchase with
    | Some (VObject p) => ret (CurrentValid p)
    | _ => ret CurrentInvalid
    end.

(** The [switch] of [checkCurrentLicense] on the verification result. *)
Definition settle (env : Env) (options : GumroadLicenseOptions)
  (result : CheckResult) : M CurrentResult :=
  match result with
  | CheckValid response =>
      let! now := Date_now_ env in
      licenseStore_set "license.lastCheckSuccess" (VNumber now) ;;;
      licenseStore_set "license.purchase" (VObject (purchase response)) ;;;
      ret (CurrentValid (purchase response))
  | CheckUnable _ => offline_fallback env options
  | CheckInvalid _ =>
      licenseStore_delete "license.purchase" ;;;
      ret CurrentInvalid
  end.

(** ** src/index.ts *)

Module Plain.
Section Manager.
Variable env : Env.
Variable productId : string.
(** [options?]: no options at all is the record of absent fields *)
Variable options : GumroadLicenseOptions.

Definition encryptionKey : string := productId +:+ machineIdSync env.

(** The store as it is constructed: the [defaults] handed to it, whose
    [undefined] entries are absent, and the default of the schema for
    "license.purchase". *)
Definition defaults : gmap string value :=
  let base : gmap string value :=
    <["license.fileName" := VString "license"]>
    (<["license.fileExtension" := VString "key"]>
    (<["license.clearInvalidConfig" := VBoolean true]>
    (<["license.purchase" := VObject empty_object]> ∅))) in
  match disableEncryption options with
  | Some true => base
  | _ => <["license.encryptionKey" := VString encryptionKey]> base
  end.

(** The arguments of [axios.post], lines 148-156. *)
Definition verification_request (licenseKey : string) (increaseUseCount : bool)
  : Request :=
  {| url := default API_URL (gumroadApiUrl options);
     product_id := productId;
     license_key := trim licenseKey;
     increment_uses_count := FlagBoolean increaseUseCount;
     timeout_send := Some (default 15000 (timeout options)) |}.

Definition validateLicenseCode (licenseKey : string) (increaseUseCount : bool)
  : M CheckResult :=
  (if bool_decide (rejectUnauthorized options = Some false)
   then disable_certificate_check else ret tt) ;;;
  let! result := request env (verification_request licenseKey increaseUseCount) in
  match result with
  | inl e => ret (CheckUnable e)
  | inr body => ret (interpret_response {| data := body |})
  end.

(** lines 225-241 *)
Definition activate (licenseKey : string) : M AddResult :=
  let! result := validateLicenseCode licenseKey true in
  match result with
  | CheckUnable e => ret (AddFailure (Raw e))
  | CheckInvalid e => ret (AddFailure (Classified e))
  | CheckValid response =>
      licenseStore_set "license.key" (VString licenseKey) ;;;
      let! now := Date_now_ env in
      licenseStore_set "license.lastCheckAttempt" (VNumber now) ;;;
      let! now := Date_now_ env in
      licenseStore_set "license.lastCheckSuccess" (VNumber now) ;;;
      ret (AddSuccess response)
  end.

Definition addLicense (licenseKey : string) : M AddResult :=
  match maxUses options with
  | Some limit =>
      let! result := validateLicenseCode licenseKey false in
      match result with
      | CheckValid response =>
          if Z.leb limit (uses response) then
            ret (AddFailure (Classified
                   {| type := MaxUseExceeded; message := max_use_message limit |}))
          else activate licenseKey
      | _ => activate licenseKey
      end
  | None => activate licenseKey
  end.

(** "license.key" is a string by the schema of the store; [!key] holds
    of the absent and of the empty one. *)
Definition checkCurrentLicense : M CurrentResult :=
  let! key := licenseStore_get "license.key" in
  match key with
  | Some (VString key) =>
      if bool_decide (key = "") then ret CurrentNotSet
      else
        let! now := Date_now_ env in
        licenseStore_set "license.lastCheckAttempt" (VNumber now) ;;;
        let! result := validateLicenseCode key false in
        settle env options result
  | _ => ret CurrentNotSet
  end.

(** [licenseStore.clear()]: every item goes, known items are back at
    their defaults, as in the store just constructed. *)
Definition clearLicense : M unit :=
  modify (with_store (fun _ => defaults)).
End Manager.
End Plain.

(** ** The file-backed variant *)

Module FileBacked.
Section Manager.
Variable P : Platform.
Variable env : Env.
Variable productId : string.
Variable options : GumroadLicenseOptions.

(** The store as it is constructed: the [defaults] handed to it and the
    default of the schema for "license.purchase" (lines 103-106). *)
Definition defaults : gmap string value :=
  <["license.fileName" := VString "license"]>
  (<["license.fileExtension" := VString "key"]>
  (<["license.filePath" := VString ""]>
  (<["license.clearInvalidConfig" := VBoolean true]>
  (<["license.purchase" := VObject empty_object]> ∅)))).

(** The body of the [fetch], lines 163-173. *)
Definition verification_request (licenseKey : string) (increaseUseCount : bool)
  : Request :=
  {| url := API_URL;
     product_id := productId;
     license_key := licenseKey;
     increment_uses_count := FlagText (Boolean_toString increaseUseCount);
     timeout_send := None |}.

Definition validateLicenseCode (licenseKey : string) (increaseUseCount : bool)
  : M CheckResult :=
  (if bool_decide (rejectUnauthorized options = Some false)
   then disable_certificate_check else ret tt) ;;;
  let! result := request env (verification_request licenseKey increaseUseCount) in
  match result with
  | inl e => ret (CheckUnable e)
  | inr result => ret (interpret result)
  end.

(** [join(options?.licenseFilePath, fileName + "." + fileExtension)],
    lines 260-265 *)
Definition license_file (fileName fileExtension : option value) : string :=
  join P (licenseFilePath options)
    (js_to_string fileName +:+ "." +:+ js_to_string fileExtension).

(** lines 256-281 *)
Definition persist (licenseKey : string) (response : GumroadSuccessResponse)
  : M AddResult :=
  let! now := Date_now_ env in
  licenseStore_set "license.lastCheckAttempt" (VNumber now) ;;;
  let! now := Date_now_ env in
  licenseStore_set "license.lastCheckSuccess" (VNumber now) ;;;
  licenseStore_set "license.key" (VString licenseKey) ;;;
  let! fileName := licenseStore_get "license.fileName" in
  let! fileExtension := licenseStore_get "license.fileExtension" in
  let licenseFile := license_file fileName fileExtension in
  let secret := derive_secret P productId (machineIdSync env) in
  let! iv := randomBytes_ env in
  check_key_iv secret iv ;;;
  let encryptedLicense :=
    cipher_update_final P secret iv (Buffer_from_utf8 licenseKey) in
  writeFileSync env licenseFile encryptedLicense ;;;
  licenseStore_set "license.key" (VString (Buffer_toString_hex iv)) ;;;
  licenseStore_set "license.filePath" (VString licenseFile) ;;;
  ret (AddSuccess response).

(** lines 243-281 *)
Definition activate (licenseKey : string) : M AddResult :=
  let! result := validateLicenseCode licenseKey true in
  match result with
  | CheckUnable e => ret (AddFailure (Raw e))
  | CheckInvalid e => ret (AddFailure (Classified e))
  | CheckValid response => persist licenseKey response
  end.

Definition addLicense (licenseKey : string) : M AddResult :=
  match maxUses options with
  | Some limit =>
      let! result := validateLicenseCode licenseKey false in
      match result with
      | CheckValid response =>
          if Z.leb limit (uses response) then
            ret (AddFailure (Classified
                   {| type := MaxUseExceeded; message := max_use_message limit |}))
          else activate licenseKey
      | _ => activate licenseKey
      end
  | None => activate licenseKey
  end.

(** lines 304-314: the key as read back from the license file *)
Definition decrypt_license (ivString filePath : string) : M string :=
  let secret := derive_secret P productId (machineIdSync env) in
  let iv := Buffer_from_hex ivString in
  check_key_iv secret iv ;;;
  let! encryptedLicense := readFileSync filePath in
  let! plain := decipher_update_final P secret iv encryptedLicense in
  ret (Buffer_toString plain).

(** "license.key" and "license.filePath" are strings by the schema. *)
Definition checkCurrentLicense : M CurrentResult :=
  let! ivString := licenseStore_get "license.key" in
  let! filePath := licenseStore_get "license.filePath" in
  match filePath, ivString with
  | Some (VString filePath), Some (VString ivString) =>
      let! there := existsSync filePath in
      if bool_decide (filePath = "") || negb there || bool_decide (ivString = "")
      then ret CurrentNotSet
      else
        let! licenseKey := decrypt_license ivString filePath in
        let! now := Date_now_ env in
        licenseStore_set "license.lastCheckAttempt" (VNumber now) ;;;
        let! result := validateLicenseCode licenseKey false in
        settle env options result
  | _, _ => ret CurrentNotSet
  end.

Definition clearLicense : M unit :=
  modify (with_store (fun _ => defaults)).
End Manager.
End FileBacked.

(** A world in which nothing has happened yet: the store holds its
    defaults, there are no files. *)
Definition fresh (defaults : gmap string value) : World :=
  {| store := defaults; files := ∅; sent := []; clock_reads := 0;
     random_draws := 0; globalAgent_rejectUnauthorized := true |}.

(** ** The public operations as a state machine *)

Inductive Operation :=
  | Activate (licenseKey : string)
  | Recheck
  | Clear.

Module PlainSession.
Definition perform (env : Env) (productId : string)
  (options : GumroadLicenseOptions) (op : Operation) (w : World) : World :=
  match op with
  | Activate licenseKey => snd (Plain.addLicense env productId options licenseKey w)
  | Recheck => snd (Plain.checkCurrentLicense env productId options w)
  | Clear => snd (Plain.clearLicense env productId options w)
  end.
End PlainSession.

Module FileSession.
Definition perform (P : Platform) (env : Env) (productId : string)
  (options : GumroadLicenseOptions) (op : Operation) (w : World) : World :=
  match op with
  | Activate licenseKey => snd (FileBacked.addLicense P env productId options licenseKey w)
  | Recheck => snd (FileBacked.checkCurrentLicense P env productId options w)
  | Clear => snd (FileBacked.clearLicense w)
  end.
End FileSession.

(** The verdict on the answer to one request: what [validateLicenseCode]
    returns for it, in the file-backed variant ([verdict]) and in
    src/index.ts ([response_verdict]). *)
Definition verdict (answer : Exception + GumroadResponse) : CheckResult :=
  match answer with
  | inl e => CheckUnable e
  | inr result => interpret result
  end.

Definition response_verdict (answer : Exception + GumroadResponse) : CheckResult :=
  match answer with
  | inl e => CheckUnable e
  | inr body => interpret_response {| data := body |}
  end.

(** The world once [validateLicenseCode] has sent the request [r]. *)
Definition after_request (options : GumroadLicenseOptions) (r : Request)
  (w : World) : World :=
  {| store := store w; files := files w; sent := sent w ++ [r];
     clock_reads := clock_reads w; random_draws := random_draws w;
     globalAgent_rejectUnauthorized :=
       if bool_decide (rejectUnauthorized options = Some false) then false
       else globalAgent_rejectUnauthorized w |}.

(** The world once [checkCurrentLicense] has read the clock and written
    the reading to "license.lastCheckAttempt". *)
Definition attempt_recorded (env : Env) (w : World) : World :=
  {| store := Store.set "license.lastCheckAttempt"
                (VNumber (Date_now env (clock_reads w))) (store w);
     files := files w; sent := sent w;
     clock_reads := S (clock_reads w); random_draws := random_draws w;
     globalAgent_rejectUnauthorized := globalAgent_rejectUnauthorized w |}.


(** The error a failed [addLicense] hands back for a verdict. *)
Definition failure_of (v : CheckResult) : option ErrorValue :=
  match v with
  | CheckInvalid e => Some (Classified e)
  | CheckUnable x => Some (Raw x)
  | CheckValid _ => None
  end.

(** The error a failed [addLicense] of src/index.ts hands back for an
    answer: what the request threw, or [ActivationError] with the default
    message for any answer that arrived. *)
Definition response_failure (answer : Exception + GumroadResponse) : ErrorValue :=
  match answer with
  | inl x => Raw x
  | inr _ => Classified {| type := ActivationError; message := no_message |}
  end.

(** With [maxUses] set, the pre-check is request number [n] and the
    incrementing verification the one after it. *)
Definition incrementing_index (options : GumroadLicenseOptions) (n : nat) : nat :=
  match maxUses options with
  | Some _ => S n
  | None => n
  end.

(** The pre-check (the answer to request [n], [pre]) lets the call go on:
    it is not a valid answer with the use count at the limit. *)
Definition precheck_passes (env : Env) (options : GumroadLicenseOptions)
  (n : nat) (pre : Request) : Prop :=
  forall limit r,
    maxUses options = Some limit ->
    verdict (post env n pre) = CheckValid r ->
    uses r < limit.

(** ** Properties named by the specification *)

(** [lastCheckAttempt >= lastCheckSuccess] whenever both are set *)
Definition timestamps_ordered (s : gmap string value) : Prop :=
  forall a t,
    s !! "license.lastCheckAttempt" = Some (VNumber a) ->
    s !! "license.lastCheckSuccess" = Some (VNumber t) ->
    t <= a.

(** The clock does not run backwards. *)
Definition monotone (env : Env) : Prop :=
  forall i j, (i <= j)%nat -> Date_now env i <= Date_now env j.

(** The recorded success is not later than the next reading of the clock. *)
Definition success_in_past (env : Env) (w : World) : Prop :=
  forall t,
    store w !! "license.lastCheckSuccess" = Some (VNumber t) ->
    t <= Date_now env (clock_reads w).

(** What one operation does to the two timestamps: nothing, both erased,
    a new attempt, or a new attempt and a later new success.  The new
    values are readings the operation took from the clock. *)
Inductive timestamps_effect (env : Env) (w w' : World) : Prop :=
  | effect_none :
      store w' !! "license.lastCheckAttempt" = store w !! "license.lastCheckAttempt" ->
      store w' !! "license.lastCheckSuccess" = store w !! "license.lastCheckSuccess" ->
      timestamps_effect env w w'
  | effect_cleared :
      store w' !! "license.lastCheckAttempt" = None ->
      store w' !! "license.lastCheckSuccess" = None ->
      timestamps_effect env w w'
  | effect_attempt (c : nat) :
      (clock_reads w <= c < clock_reads w')%nat ->
      store w' !! "license.lastCheckAttempt" = Some (VNumber (Date_now env c)) ->
      store w' !! "license.lastCheckSuccess" = store w !! "license.lastCheckSuccess" ->
      timestamps_effect env w w'
  | effect_both (c1 c2 : nat) :
      (clock_reads w <= c1 <= c2 /\ c2 < clock_reads w')%nat ->
      store w' !! "license.lastCheckAttempt" = Some (VNumber (Date_now env c1)) ->
      store w' !! "license.lastCheckSuccess" = Some (VNumber (Date_now env c2)) ->
      timestamps_effect env w w'.

(** What holds of the timestamps from [w] to [w'] across an operation:
    the recorded success stays in the past; an operation that leaves
    "license.lastCheckSuccess" as it was keeps the order
    [lastCheckAttempt >= lastCheckSuccess]; one that writes a new success
    wrote the attempt from an earlier reading, so the order after it is
    [lastCheckAttempt <= lastCheckSuccess]. *)
Definition timestamps_kept (env : Env) (w w' : World) : Prop :=
  success_in_past env w' /\
  (store w' !! "license.lastCheckSuccess" = store w !! "license.lastCheckSuccess" ->
   timestamps_ordered (store w) -> timestamps_ordered (store w')) /\
  (store w' !! "license.lastCheckSuccess" <> store w !! "license.lastCheckSuccess" ->
   forall t, store w' !! "license.lastCheckSuccess" = Some (VNumber t) ->
   exists a, store w' !! "license.lastCheckAttempt" = Some (VNumber a) /\ a <= t).

(** The worlds a session can be in: the fresh one and what the public
    operations make of it. *)
Inductive reachable (step : Operation -> World -> World) (start : World)
  : World -> Prop :=
  | reachable_start : reachable step start start
  | reachable_step (op : Operation) (w : World) :
      reachable step start w -> reachable step start (step op w).

(** [randomBytes(16)] returns 16 bytes. *)
Definition random_source_ok (env : Env) : Prop :=
  forall n, length (randomBytes env n) = 16%nat.

(** ** A platform and surroundings to run the definitions on

    The block transformation here is a stand-in that satisfies
    [PlatformLaws] (it adds the first half of the key to the block);
    the chaining and the padding around it are the ones above. *)

Definition sample_digest (s : string) : string :=
  substring 0 44 (s +:+ "ABCDEFGHIJKLMNOPQRSTUVWXYZabcdefghijklmnopqr").

Definition sample_block (key block : list byte) : list byte :=
  xor_block block (take 16 key).

Definition sample_platform : Platform :=
  {| sha256_base64 := sample_digest;
     aes256_encrypt_block := sample_block;
     aes256_decrypt_block := sample_block;
     join := fun a b => a +:+ "/" +:+ b |}.

Definition sample_purchase : Purchase :=
  {| purchase_product_id := Some "prod_1"; refunded := Some false;
     chargebacked := Some false |}.

Definition valid_response (n : Z) : GumroadResponse :=
  {| success := true; response_message := None; response_uses := n;
     response_purchase := Some sample_purchase |}.

Definition rejected_response : GumroadResponse :=
  {| success := false;
     response_message := Some "That license does not exist for the provided product.";
     response_uses := 0; response_purchase := None |}.

Definition refunded_response : GumroadResponse :=
  {| success := true; response_message := None; response_uses := 1;
     response_purchase :=
       Some {| purchase_product_id := Some "prod_1"; refunded := Some true;
               chargebacked := Some false |} |}.

Definition sample_iv : list byte :=
  [x00; x01; x02; x03; x04; x05; x06; x07; x08; x09; x0a; x0b; x0c; x0d; x0e; x0f].

Definition sample_env (clock : nat -> Z)
  (service : nat -> Request -> Exception + GumroadResponse)
  (can_write : bool) : Env :=
  {| machineIdSync := "machine-0001";
     Date_now := clock;
     post := service;
     randomBytes := fun _ => sample_iv;
     writable := fun _ => can_write |}.

Definition no_options : GumroadLicenseOptions :=
  {| maxUses := None; maxDaysBetweenChecks := None; gumroadApiUrl := None;
     disableEncryption := None; timeout := None; rejectUnauthorized := None;
     licenseFilePath := "/data" |}.

Definition with_maxUses (n : Z) : GumroadLicenseOptions :=
  {| maxUses := Some n; maxDaysBetweenChecks := None; gumroadApiUrl := None;
     disableEncryption := None; timeout := None; rejectUnauthorized := None;
     licenseFilePath := "/data" |}.

Definition with_maxDays (n : Z) : GumroadLicenseOptions :=
  {| maxUses := None; maxDaysBetweenChecks := Some n; gumroadApiUrl := None;
     disableEncryption := None; timeout := None; rejectUnauthorized := None;
     licenseFilePath := "/data" |}.

Definition day : Z := 86400000.

(** A license key of the usual shape; its text fills more than one
    block of the cipher. *)
Definition long_key : string := "ABCDEFGH-12345678-ABCDEFGH-12345678".


(** A service that knows one key and rejects every other. *)
Definition only_for (key : string) (_ : nat) (r : Request)
  : Exception + GumroadResponse :=
  if bool_decide (license_key r = key) then inr (valid_response 1)
  else inr rejected_response.

(** A clock that stands still for the first two readings and then moves
    on by half a second per reading. *)
Definition stepping_clock (n : nat) : Z :=
  match n with
  | O | S O => 1000
  | _ => 1000 + 500 * Z.of_nat n
  end.

(** A clock on which the fifth reading comes six days after the fourth. *)
Definition six_days_later (n : nat) : Z :=
  if (n <? 4)%nat then 1000 + Z.of_nat n else 1003 + 6 * day.

(** A service that answers two requests and cannot be reached after. *)
Definition then_unreachable (n : nat) (_ : Request) : Exception + GumroadResponse :=
  if (n <? 2)%nat then inr (valid_response 1) else inl (FetchFailed "ENOTFOUND").


(** A service that answers the first [n] requests with [first] and every
    later one with [later]. *)
Definition changing (n : nat) (first later : Exception + GumroadResponse)
  (i : nat) (_ : Request) : Exception + GumroadResponse :=
  if (i <? n)%nat then first else later.

(** A world of src/index.ts whose store holds a license: a key, the two
    times and a purchase, after [reads] readings of the clock and the
    requests [requests].  (No operation of src/index.ts writes a key, so
    such a store is one it finds, not one it made.) *)
Definition licensed_world (env : Env) (productId : string)
  (options : GumroadLicenseOptions) (key : string) (attempt success : Z)
  (p : Purchase) (requests : list Request) (reads : nat) : World :=
  {| store :=
       <["license.key" := VString key]>
         (<["license.lastCheckAttempt" := VNumber attempt]>
            (<["license.lastCheckSuccess" := VNumber success]>
               (<["license.purchase" := VObject p]>
                  (Plain.defaults env productId options))));
     files := ∅; sent := requests; clock_reads := reads; random_draws := 0;
     globalAgent_rejectUnauthorized := true |}.


(** ** Notions for the further properties *)

(** The requests an operation sent: what [sent] gained from [w] to [w']. *)
Definition new_requests (w w' : World) : list Request :=
  drop (length (sent w)) (sent w').

(** No limit on the days between checks: the option is absent, or zero,
    which [options?.maxDaysBetweenChecks && ...] treats alike. *)
Definition no_day_limit (options : GumroadLicenseOptions) : Prop :=
  maxDaysBetweenChecks options = None \/ maxDaysBetweenChecks options = Some 0.

(** The path of the license file while the store holds the default file
    name and extension. *)
Definition default_license_file (P : Platform) (options : GumroadLicenseOptions)
  : string :=
  FileBacked.license_file P options
    (Some (VString "license")) (Some (VString "key")).

(** What the file-backed variant keeps between its operations: the file
    name and extension are the defaults, and either no license file is
    on record, or the record is whole: the path is the default one and
    can be written, "license.key" is an IV of 16 bytes in hex, and the
    file holds the cipher text of a key [licenseKey] under that IV. *)
Definition license_on_record (P : Platform) (env : Env) (productId : string)
  (options : GumroadLicenseOptions) (w : World) (licenseKey : option string)
  : Prop :=
  store w !! "license.fileName" = Some (VString "license") /\
  store w !! "license.fileExtension" = Some (VString "key") /\
  match licenseKey with
  | None => store w !! "license.filePath" = Some (VString "")
  | Some licenseKey =>
      exists iv,
        length iv = 16%nat /\
        writable env (default_license_file P options) = true /\
        store w !! "license.key" = Some (VString (Buffer_toString_hex iv)) /\
        store w !! "license.filePath"
        = Some (VString (default_license_file P options)) /\
        files w !! default_license_file P options
        = Some (cipher_update_final P
                  (derive_secret P productId (machineIdSync env)) iv
                  (Buffer_from_utf8 licenseKey))
  end.

(** The trust record has a key whenever it has a timestamp. *)
Definition record_has_key (s : gmap string value) : Prop :=
  (is_Some (s !! "license.lastCheckAttempt") \/
   is_Some (s !! "license.lastCheckSuccess")) ->
  exists key, s !! "license.key" = Some (VString key).

(** The store holds an object at "license.purchase", as the schema has
    it: a purchase, or [{}]. *)
Definition purchase_on_record (s : gmap string value) : Prop :=
  exists p, s !! "license.purchase" = Some (VObject p).

Local Open Scope list_scope.

(** What [checkCurrentLicense] needs to go past [NotSet]: in
    src/index.ts a key that is not empty; in the file-backed variant an
    IV and a path that are not empty and a file at that path. *)
Definition key_on_record (w : World) : Prop :=
  exists key, store w !! "license.key" = Some (VString key) /\ key <> "".

Definition file_on_record (w : World) : Prop :=
  exists ivString filePath,
    store w !! "license.key" = Some (VString ivString) /\ ivString <> "" /\
    store w !! "license.filePath" = Some (VString filePath) /\ filePath <> "" /\
    is_Some (files w !! filePath).

(** The world of a recheck whose verification was valid: the attempt is
    the reading of the clock before the request, the success the one
    after it, the purchase is the answer's. *)
Definition rechecked (env : Env) (options : GumroadLicenseOptions)
  (r : Request) (p : Purchase) (w : World) : World :=
  {| store :=
       <["license.purchase" := VObject p]>
         (<["license.lastCheckSuccess" := VNumber (Date_now env (S (clock_reads w)))]>
            (<["license.lastCheckAttempt" := VNumber (Date_now env (clock_reads w))]>
               (store w)));
     files := files w;
     sent := sent w ++ [r];
     clock_reads := S (S (clock_reads w));
     random_draws := random_draws w;
     globalAgent_rejectUnauthorized :=
       if bool_decide (rejectUnauthorized options = Some false) then false
       else globalAgent_rejectUnauthorized w |}.

(** The key on the record of the file-backed variant after an
    operation, given the one before it: a successful [addLicense] puts
    its key there, [clearLicense] takes it away, everything else leaves
    it. *)
Definition key_after (P : Platform) (env : Env) (productId : string)
  (options : GumroadLicenseOptions) (op : Operation) (w : World)
  (before : option string) : option string :=
  match op with
  | Activate licenseKey =>
      match fst (FileBacked.addLicense P env productId options licenseKey w) with
      | Returned (AddSuccess _) => Some licenseKey
      | _ => before
      end
  | Recheck => before
  | Clear => None
  end.

(** The store and the files once [persist] has run through, and the
    store when [writeFileSync] threw. *)
Definition persisted_store (env : Env) (licenseKey ivHex licenseFile : string)
  (w : World) : gmap string value :=
  <["license.filePath" := VString licenseFile]>
    (<["license.key" := VString ivHex]>
       (<["license.key" := VString licenseKey]>
          (<["license.lastCheckSuccess" := VNumber (Date_now env (S (clock_reads w)))]>
             (<["license.lastCheckAttempt" := VNumber (Date_now env (clock_reads w))]>
                (store w))))).

Definition half_persisted_store (env : Env) (licenseKey : string) (w : World)
  : gmap string value :=
  <["license.key" := VString licenseKey]>
    (<["license.lastCheckSuccess" := VNumber (Date_now env (S (clock_reads w)))]>
       (<["license.lastCheckAttempt" := VNumber (Date_now env (clock_reads w))]>
          (store w))).

(** The world of a recheck whose verification was invalid: the attempt
    is recorded, the cached purchase has given way to [{}], the rest is
    as it was. *)
Definition invalidated (env : Env) (options : GumroadLicenseOptions)
  (r : Request) (w : World) : World :=
  {| store :=
       <["license.purchase" := VObject empty_object]>
         (<["license.lastCheckAttempt" := VNumber (Date_now env (clock_reads w))]>
            (store w));
     files := files w;
     sent := sent w ++ [r];
     clock_reads := S (clock_reads w);
     random_draws := random_draws w;
     globalAgent_rejectUnauthorized :=
       if bool_decide (rejectUnauthorized options = Some false) then false
       else globalAgent_rejectUnauthorized w |}.

(** The requests [l] of one operation from [w] to [w'] and the flag of
    the process-wide agent after it: the flag is turned off when a
    request went out under [rejectUnauthorized: false], and is otherwise
    what it was. *)
Definition trace_of (options : GumroadLicenseOptions) (w w' : World)
  (l : list Request) : Prop :=
  sent w' = sent w ++ l /\
  globalAgent_rejectUnauthorized w'
  = match l with
    | [] => globalAgent_rejectUnauthorized w
    | _ :: _ =>
        if bool_decide (rejectUnauthorized options = Some false) then false
        else globalAgent_rejectUnauthorized w
    end.

(** The one [delete] of the program, on "license.purchase". *)
Ltac delete_purchase :=
  repeat match goal with
         | |- context [Store.delete "license.purchase" ?s] =>
             change (Store.delete "license.purchase" s)
               with (<["license.purchase" := VObject empty_object]> s)
         end.

(** Lookups in a store that was written to, path by path. *)
Ltac store_lookup :=
  delete_purchase;
  unfold Store.set, Store.get;
  repeat first
    [ rewrite lookup_insert_eq
    | rewrite lookup_insert_ne by discriminate
    | rewrite lookup_delete_ne by discriminate
    | rewrite lookup_empty ].

(** Lookups at a path other than the ones written. *)
Ltac other_path :=
  delete_purchase;
  unfold Store.set, Store.get;
  repeat first
    [ rewrite lookup_insert_ne by congruence
    | rewrite lookup_delete_ne by congruence ].

(** * Facts

    ** Buffers and the cipher *)

Lemma hex_pair (x : byte) :
  hex_value (hex_digit (Byte.to_N x / 16)) = Some (Byte.to_N x / 16)%N /\
  hex_value (hex_digit (Byte.to_N x mod 16)) = Some (Byte.to_N x mod 16)%N /\
  Byte.of_N (16 * (Byte.to_N x / 16) + Byte.to_N x mod 16) = Some x.
Proof. destruct x; vm_compute; auto. Qed.

Lemma Buffer_from_hex_toString (b : list byte) :
  Buffer_from_hex (Buffer_toString_hex b) = b.
Proof.
  induction b as [|x rest IH]; [reflexivity|].
  destruct (hex_pair x) as (Hh & Hl & Hx).
  cbn [Buffer_toString_hex Buffer_from_hex].
  rewrite Hh, Hl, Hx, IH. reflexivity.
Qed.

Lemma Buffer_toString_hex_length (b : list byte) :
  String.length (Buffer_toString_hex b) = (2 * length b)%nat.
Proof. induction b; cbn [Buffer_toString_hex String.length length]; lia. Qed.

Example Buffer_toString_hex_sample :
  Buffer_toString_hex [x00; x1f; xa0; xff] = "001fa0ff".
Proof. reflexivity. Qed.

Example Buffer_from_hex_odd : Buffer_from_hex "0AfFz1" = [x0a; xff].
Proof. reflexivity. Qed.

Example trim_sample : trim "  ABC-123 " = "ABC-123".
Proof. vm_compute. reflexivity. Qed.

Lemma xor_bits_cancel a b : xor_bits (xor_bits a b) b = a.
Proof.
  destruct a as (a0 & a1 & a2 & a3 & a4 & a5 & a6 & a7).
  destruct b as (b0 & b1 & b2 & b3 & b4 & b5 & b6 & b7).
  cbn. repeat (rewrite xorb_assoc, xorb_nilpotent, xorb_false_r). reflexivity.
Qed.

Lemma byte_xor_cancel a b : byte_xor (byte_xor a b) b = a.
Proof.
  unfold byte_xor. rewrite Byte.to_bits_of_bits, xor_bits_cancel.
  apply Byte.of_bits_to_bits.
Qed.

Lemma xor_block_length a b : length (xor_block a b) = Nat.min (length a) (length b).
Proof. apply length_zip_with. Qed.

Lemma xor_block_cancel a b :
  length a = length b -> xor_block (xor_block a b) b = a.
Proof.
  revert b. induction a as [|x a IH]; intros [|y b] Hl; try discriminate; [reflexivity|].
  cbn. rewrite byte_xor_cancel. f_equal. apply IH. now injection Hl.
Qed.

Lemma pad_byte (n : nat) :
  (1 <= n <= 16)%nat -> exists x, Byte.of_nat n = Some x /\ Byte.to_nat x = n.
Proof.
  intros Hn.
  destruct (Byte.of_nat n) as [x|] eqn:E.
  - exists x. split; [reflexivity|]. now apply Byte.to_of_nat.
  - apply Byte.of_nat_None_iff in E. lia.
Qed.

Lemma pkcs7_pad_length (data : list byte) :
  exists k, length (pkcs7_pad data) = (16 * S k)%nat.
Proof.
  unfold pkcs7_pad. rewrite length_app, length_replicate.
  exists (length data / 16)%nat.
  pose proof (Nat.div_mod_eq (length data) 16).
  pose proof (Nat.mod_upper_bound (length data) 16). lia.
Qed.

Lemma forallb_replicate (x : byte) n : forallb (Byte.eqb x) (replicate n x) = true.
Proof.
  induction n as [|n IH]; [reflexivity|]. cbn. rewrite IH.
  now rewrite (Byte.byte_dec_lb eq_refl).
Qed.

Lemma pkcs7_unpad_pad (data : list byte) :
  pkcs7_unpad (pkcs7_pad data) = Some data.
Proof.
  unfold pkcs7_pad.
  set (n := (16 - length data mod 16)%nat).
  assert (Hn : (1 <= n <= 16)%nat).
  { pose proof (Nat.mod_upper_bound (length data) 16). lia. }
  destruct (pad_byte n Hn) as (x & Hx & Hto). rewrite Hx.
  unfold pkcs7_unpad.
  assert (Hlast : last (data ++ replicate n x) = Some x).
  { destruct n as [|n]; [lia|]. rewrite replicate_S_end, app_assoc. apply last_snoc. }
  rewrite Hlast, Hto, length_app, length_replicate.
  replace (length data + n - n)%nat with (length data) by lia.
  rewrite drop_app_length, take_app_length, forallb_replicate.
  destruct (Nat.leb_spec 1 n); [|lia].
  destruct (Nat.leb_spec n 16); [|lia].
  destruct (Nat.leb_spec n (length data + n)); [|lia].
  reflexivity.
Qed.

Lemma blocks_div n : (16 * n / 16)%nat = n.
Proof. rewrite Nat.mul_comm. apply Nat.div_mul. lia. Qed.

Lemma blocks_mod n : ((16 * n) mod 16)%nat = 0%nat.
Proof. rewrite Nat.mul_comm. apply Nat.Div0.mod_mul. Qed.

Example pkcs7_pad_whole_block :
  length (pkcs7_pad (replicate 16 x41)) = 32%nat /\
  last (pkcs7_pad (replicate 16 x41)) = Some x10.
Proof. split; reflexivity. Qed.

Example pkcs7_unpad_bad : pkcs7_unpad (replicate 15 x41 ++ [x00]) = None.
Proof. reflexivity. Qed.

Section CipherFacts.
Variable P : Platform.
Hypothesis laws : PlatformLaws P.

Lemma cbc_encrypt_length n key previous data :
  length key = 32%nat -> length previous = 16%nat -> length data = (16 * n)%nat ->
  length (cbc_encrypt P n key previous data) = (16 * n)%nat.
Proof.
  intros Hk. revert previous data.
  induction n as [|n IH]; intros previous data Hp Hd; [reflexivity|].
  cbn [cbc_encrypt]. rewrite length_app.
  assert (Hx : length (xor_block (take 16 data) previous) = 16%nat).
  { rewrite xor_block_length, length_take. lia. }
  rewrite (encrypt_block_length P laws key _ Hk Hx).
  rewrite IH; [lia| |].
  - apply (encrypt_block_length P laws); assumption.
  - rewrite length_drop. lia.
Qed.

Lemma cbc_decrypt_encrypt n key previous data :
  length key = 32%nat -> length previous = 16%nat -> length data = (16 * n)%nat ->
  cbc_decrypt P n key previous (cbc_encrypt P n key previous data) = data.
Proof.
  intros Hk. revert previous data.
  induction n as [|n IH]; intros previous data Hp Hd.
  - destruct data; [reflexivity|discriminate].
  - cbn [cbc_encrypt cbc_decrypt].
    assert (Hx : length (xor_block (take 16 data) previous) = 16%nat).
    { rewrite xor_block_length, length_take. lia. }
    pose proof (encrypt_block_length P laws key _ Hk Hx) as Hc.
    rewrite take_app_length', drop_app_length' by (symmetry; exact Hc).
    rewrite (decrypt_encrypt_block P laws key _ Hk Hx).
    rewrite xor_block_cancel by (rewrite length_take; lia).
    rewrite IH; [apply take_drop|exact Hc|rewrite length_drop; lia].
Qed.

Lemma decipher_cipher (key : string) (iv data : list byte) (w : World) :
  String.length key = 32%nat -> length iv = 16%nat ->
  decipher_update_final P key iv (cipher_update_final P key iv data) w
  = (Returned data, w).
Proof.
  intros Hk Hiv.
  assert (Hkey : length (Buffer_from_utf8 key) = 32%nat).
  { unfold Buffer_from_utf8, list_byte_of_string. rewrite length_map.
    rewrite <- Hk. clear. induction key; cbn; congruence. }
  unfold decipher_update_final, cipher_update_final.
  destruct (pkcs7_pad_length data) as (k & Hlen).
  rewrite Hlen, blocks_div.
  rewrite (cbc_encrypt_length (S k) _ _ _ Hkey Hiv Hlen).
  rewrite blocks_div, blocks_mod.
  replace (Nat.eqb (16 * S k) 0) with false by (symmetry; apply Nat.eqb_neq; lia).
  cbn [orb negb Nat.eqb].
  rewrite (cbc_decrypt_encrypt (S k) _ _ _ Hkey Hiv Hlen), pkcs7_unpad_pad.
  reflexivity.
Qed.
End CipherFacts.

Local Open Scope list_scope.


(** ** One verification *)

Lemma plain_validate_run env productId options licenseKey increase w :
  Plain.validateLicenseCode env productId options licenseKey increase w
  = (Returned (response_verdict (post env (length (sent w))
                 (Plain.verification_request productId options licenseKey increase))),
     after_request options
       (Plain.verification_request productId options licenseKey increase) w).
Proof.
  unfold Plain.validateLicenseCode, after_request, bind, request, response_verdict,
    disable_certificate_check, modify, ret.
  destruct (bool_decide (rejectUnauthorized options = Some false)); cbn;
    destruct (post env _ _); reflexivity.
Qed.

Lemma file_validate_run env productId options licenseKey increase w :
  FileBacked.validateLicenseCode env productId options licenseKey increase w
  = (Returned (verdict (post env (length (sent w))
                 (FileBacked.verification_request productId licenseKey increase))),
     after_request options
       (FileBacked.verification_request productId licenseKey increase) w).
Proof.
  unfold FileBacked.validateLicenseCode, after_request, bind, request, verdict,
    disable_certificate_check, modify, ret.
  destruct (bool_decide (rejectUnauthorized options = Some false)); cbn;
    destruct (post env _ _); reflexivity.
Qed.



Lemma interpret_valid result r :
  interpret result = CheckValid r ->
  success result = true /\ response_purchase result = Some (purchase r) /\
  flag_set (refunded (purchase r)) = false /\
  flag_set (chargebacked (purchase r)) = false /\
  uses r = response_uses result.
Proof.
  unfold interpret. destruct (success result); [|discriminate]. cbn.
  destruct (response_purchase result) as [p|]; [|discriminate].
  destruct (flag_set (refunded p)) eqn:Er, (flag_set (chargebacked p)) eqn:Ec;
    try discriminate.
  cbn. intros [= <-]. cbn. auto.
Qed.

(** In src/index.ts every answer that arrives is read the same way: the
    fields of the body are looked for on the response object. *)
Lemma response_verdict_cases answer :
  response_verdict answer
  = match answer with
    | inl x => CheckUnable x
    | inr _ => CheckInvalid {| type := ActivationError; message := no_message |}
    end.
Proof. destruct answer; reflexivity. Qed.

Lemma response_verdict_never_valid answer r : response_verdict answer <> CheckValid r.
Proof. rewrite response_verdict_cases. destruct answer; discriminate. Qed.

Lemma after_request_length options r w :
  length (sent (after_request options r w)) = S (length (sent w)).
Proof. cbn. rewrite length_app. cbn. lia. Qed.

(** ** [addLicense], step by step *)

Section PlainActivation.
Variable env : Env.
Variable productId : string.
Variable options : GumroadLicenseOptions.

(** [activate] of src/index.ts never gets a valid verdict: it sends the
    incrementing request, fails, and writes nothing. *)
Lemma plain_activate_run licenseKey w :
  let inc := Plain.verification_request productId options licenseKey true in
  Plain.activate env productId options licenseKey w
  = (Returned (AddFailure (response_failure (post env (length (sent w)) inc))),
     after_request options inc w).
Proof.
  cbn zeta. unfold Plain.activate, bind. rewrite plain_validate_run.
  rewrite response_verdict_cases. destruct (post env _ _); reflexivity.
Qed.

Lemma plain_activate_sent licenseKey w :
  sent (snd (Plain.activate env productId options licenseKey w))
  = sent w ++ [Plain.verification_request productId options licenseKey true].
Proof. rewrite plain_activate_run. reflexivity. Qed.

(** The pre-check of src/index.ts never stops the call. *)
Lemma plain_addLicense_run licenseKey w :
  Plain.addLicense env productId options licenseKey w
  = match maxUses options with
    | None => Plain.activate env productId options licenseKey w
    | Some _ =>
        Plain.activate env productId options licenseKey
          (after_request options
             (Plain.verification_request productId options licenseKey false) w)
    end.
Proof.
  unfold Plain.addLicense. destruct (maxUses options) as [limit|]; [|reflexivity].
  unfold bind at 1. rewrite plain_validate_run.
  destruct (response_verdict _) as [r| |] eqn:E; try reflexivity.
  now apply response_verdict_never_valid in E.
Qed.
End PlainActivation.

Section FileActivation.
Variable P : Platform.
Variable env : Env.
Variable productId : string.
Variable options : GumroadLicenseOptions.

Lemma file_activate_failure licenseKey w err :
  failure_of (verdict (post env (length (sent w))
                (FileBacked.verification_request productId licenseKey true)))
  = Some err ->
  FileBacked.activate P env productId options licenseKey w
  = (Returned (AddFailure err),
     after_request options
       (FileBacked.verification_request productId licenseKey true) w).
Proof.
  intros Hv. unfold FileBacked.activate, bind. rewrite file_validate_run.
  destruct (verdict _); cbn in Hv; inversion Hv; reflexivity.
Qed.

Lemma persist_sent licenseKey response w :
  sent (snd (FileBacked.persist P env productId options licenseKey response w)) = sent w.
Proof.
  unfold FileBacked.persist, bind, Date_now_, licenseStore_set, licenseStore_get,
    modify, gets, randomBytes_, check_key_iv, writeFileSync, throw, ret.
  cbn.
  repeat (match goal with
          | |- context [if ?b then _ else _] => destruct b; cbn
          end); reflexivity.
Qed.

Lemma file_activate_sent licenseKey w :
  sent (snd (FileBacked.activate P env productId options licenseKey w))
  = sent w ++ [FileBacked.verification_request productId licenseKey true].
Proof.
  unfold FileBacked.activate, bind. rewrite file_validate_run.
  destruct (verdict _); try reflexivity.
  rewrite persist_sent. reflexivity.
Qed.

Lemma file_addLicense_run licenseKey w :
  FileBacked.addLicense P env productId options licenseKey w
  = match maxUses options with
    | None => FileBacked.activate P env productId options licenseKey w
    | Some limit =>
        let pre := FileBacked.verification_request productId licenseKey false in
        let w1 := after_request options pre w in
        match verdict (post env (length (sent w)) pre) with
        | CheckValid r =>
            if Z.leb limit (uses r) then
              (Returned (AddFailure (Classified
                 {| type := MaxUseExceeded; message := max_use_message limit |})), w1)
            else FileBacked.activate P env productId options licenseKey w1
        | _ => FileBacked.activate P env productId options licenseKey w1
        end
    end.
Proof.
  unfold FileBacked.addLicense. destruct (maxUses options) as [limit|]; [|reflexivity].
  unfold bind at 1. rewrite file_validate_run.
  destruct (verdict _) as [r| |]; try reflexivity.
  destruct (Z.leb limit (uses r)); reflexivity.
Qed.
End FileActivation.

(** ** The refund check *)




(** ** The use limit *)

Lemma file_precheck_first P env productId options licenseKey limit w :
  maxUses options = Some limit ->
  exists rest,
    sent (snd (FileBacked.addLicense P env productId options licenseKey w))
    = sent w ++ FileBacked.verification_request productId licenseKey false :: rest.
Proof.
  intros Hm. rewrite file_addLicense_run, Hm. cbn zeta.
  destruct (verdict _) as [r| |];
    [destruct (Z.leb limit (uses r)); [exists []; reflexivity|]| |];
    rewrite file_activate_sent; cbn; rewrite <- app_assoc; eexists; reflexivity.
Qed.

(** The pre-check of the file-backed variant: with [maxUses] set,
    [addLicense] first sends a verification that does not increment; when
    that one is valid and reports a use count at or above the limit, the
    call fails with [MaxUseExceeded], the pre-check is the only request
    sent, and the store and the files are as they were. *)
Lemma file_max_uses_rejects P env productId options licenseKey limit w r :
  maxUses options = Some limit ->
  let pre := FileBacked.verification_request productId licenseKey false in
  let run := FileBacked.addLicense P env productId options licenseKey w in
  verdict (post env (length (sent w)) pre) = CheckValid r -> limit <= uses r ->
  fst run = Returned (AddFailure (Classified
              {| type := MaxUseExceeded; message := max_use_message limit |})) /\
  sent (snd run) = sent w ++ [pre] /\
  store (snd run) = store w /\ files (snd run) = files w.
Proof.
  intros Hm pre run Hv Hle. unfold run. rewrite file_addLicense_run, Hm. cbn zeta.
  fold pre. rewrite Hv.
  destruct (Z.leb_spec limit (uses r)); [|lia]. cbn. auto.
Qed.

(** C3, where the code departs from it.  In src/index.ts, with [maxUses]
    set, the pre-check is sent first and does not increment; but its
    answer is read off the response object and never counts as valid.
    So whatever use count the service reports, the incrementing
    verification is sent next, and the call never fails with
    [MaxUseExceeded]. *)
Theorem index_ts_increments_past_the_limit
  (env : Env) (productId : string) (options : GumroadLicenseOptions)
  (licenseKey : string) (limit : Z) (w : World) :
  maxUses options = Some limit ->
  let pre := Plain.verification_request productId options licenseKey false in
  let inc := Plain.verification_request productId options licenseKey true in
  let run := Plain.addLicense env productId options licenseKey w in
  increments pre = false /\ increments inc = true /\
  sent (snd run) = sent w ++ [pre; inc] /\
  fst run
  = Returned (AddFailure (response_failure (post env (S (length (sent w))) inc))) /\
  forall m,
    fst run
    <> Returned (AddFailure (Classified {| type := MaxUseExceeded; message := m |})).
Proof.
  intros Hm pre inc run.
  assert (E : run = (Returned (AddFailure
                       (response_failure (post env (S (length (sent w))) inc))),
                     after_request options inc (after_request options pre w))).
  { unfold run. rewrite plain_addLicense_run, Hm, plain_activate_run.
    cbn zeta. fold pre inc. now rewrite after_request_length. }
  split; [reflexivity|]. split; [reflexivity|].
  rewrite E. cbn [fst snd]. split; [cbn; now rewrite <- app_assoc|].
  split; [reflexivity|].
  intros m. destruct (post env _ inc); discriminate.
Qed.

Lemma index_ts_increments_past_the_limit_witness :
  let env := sample_env (fun _ => 0) (fun _ _ => inr (valid_response 3)) true in
  let w := fresh (Plain.defaults env "prod_1" (with_maxUses 3)) in
  let run := Plain.addLicense env "prod_1" (with_maxUses 3) "ABC-123" w in
  verdict (post env 0 (Plain.verification_request "prod_1" (with_maxUses 3) "ABC-123" false))
  = CheckValid {| uses := 3; purchase := sample_purchase |} /\
  sent (snd run)
  = [Plain.verification_request "prod_1" (with_maxUses 3) "ABC-123" false;
     Plain.verification_request "prod_1" (with_maxUses 3) "ABC-123" true] /\
  fst run = Returned (AddFailure (Classified
              {| type := ActivationError; message := no_message |})).
Proof.
  intros env w run. split; [reflexivity|].
  pose proof (index_ts_increments_past_the_limit env "prod_1" (with_maxUses 3)
                "ABC-123" 3 w eq_refl) as (_ & _ & S & R & _).
  split; [exact S | exact R].
Defined.

(** The outcome of [activate] in the file-backed variant is the second
    verification's: a failure carries its error, a valid answer is handed
    on to [persist]. *)
Lemma file_activate_outcome P env productId options licenseKey w :
  let request := FileBacked.verification_request productId licenseKey true in
  fst (FileBacked.activate P env productId options licenseKey w)
  = match verdict (post env (length (sent w)) request) with
    | CheckValid r =>
        fst (FileBacked.persist P env productId options licenseKey r
               (after_request options request w))
    | CheckInvalid e => Returned (AddFailure (Classified e))
    | CheckUnable x => Returned (AddFailure (Raw x))
    end.
Proof.
  cbn zeta. unfold FileBacked.activate, bind. rewrite file_validate_run.
  destruct (verdict _); reflexivity.
Qed.

(** C10.  With [maxUses] set, a pre-check that is not valid (invalid, or
    the service could not be reached) changes nothing: the call is the
    incrementing verification and what follows it, run after the
    pre-check; both requests are sent, in that order, the first without
    and the second with the count of a use; the outcome is read off the
    second answer.  In src/index.ts no pre-check is ever valid. *)
Theorem precheck_failure_is_discarded
  (P : Platform) (env : Env) (productId : string) (options : GumroadLicenseOptions)
  (licenseKey : string) (limit : Z) (w : World) :
  maxUses options = Some limit ->
  let pre := Plain.verification_request productId options licenseKey false in
  let inc := Plain.verification_request productId options licenseKey true in
  let pre' := FileBacked.verification_request productId licenseKey false in
  let inc' := FileBacked.verification_request productId licenseKey true in
  let run := Plain.addLicense env productId options licenseKey w in
  let run' := FileBacked.addLicense P env productId options licenseKey w in
  (increments pre = false /\ increments inc = true /\
   increments pre' = false /\ increments inc' = true)
  /\
  (status (response_verdict (post env (length (sent w)) pre)) <> ValidLicense /\
   run = Plain.activate env productId options licenseKey (after_request options pre w) /\
   sent (snd run) = sent w ++ [pre; inc] /\
   fst run
   = Returned (AddFailure (response_failure (post env (S (length (sent w))) inc))))
  /\
  (status (verdict (post env (length (sent w)) pre')) <> ValidLicense ->
   run' = FileBacked.activate P env productId options licenseKey
            (after_request options pre' w) /\
   sent (snd run') = sent w ++ [pre'; inc'] /\
   fst run' = match verdict (post env (S (length (sent w))) inc') with
              | CheckValid r =>
                  fst (FileBacked.persist P env productId options licenseKey r
                         (after_request options inc' (after_request options pre' w)))
              | CheckInvalid e => Returned (AddFailure (Classified e))
              | CheckUnable x => Returned (AddFailure (Raw x))
              end).
Proof.
  intros Hm pre inc pre' inc' run run'.
  assert (Hn : forall r, length (sent (after_request options r w)) = S (length (sent w))).
  { intros r. cbn. rewrite length_app. cbn. lia. }
  split; [repeat split|]. split.
  - assert (E : run = Plain.activate env productId options licenseKey
                        (after_request options pre w)).
    { unfold run. now rewrite plain_addLicense_run, Hm. }
    split.
    { rewrite response_verdict_cases. destruct (post env _ pre); discriminate. }
    split; [exact E|]. rewrite E, plain_activate_run. cbn zeta. fold inc.
    rewrite Hn. cbn [fst snd]. split; [cbn; now rewrite <- app_assoc|reflexivity].
  - intros Hv.
    assert (E : run' = FileBacked.activate P env productId options licenseKey
                         (after_request options pre' w)).
    { unfold run'. rewrite file_addLicense_run, Hm. cbn zeta. fold pre'.
      destruct (verdict _); [now destruct Hv|reflexivity|reflexivity]. }
    split; [exact E|]. rewrite E, file_activate_sent, file_activate_outcome, Hn.
    split; [cbn; now rewrite <- app_assoc | reflexivity].
Qed.

Lemma precheck_failure_is_discarded_witness :
  let service := fun (n : nat) (_ : Request) =>
    match n with
    | O => inl (FetchFailed "timeout")
    | _ => inr (valid_response 5)
    end in
  let env := sample_env (fun _ => 0) service true in
  let w := fresh FileBacked.defaults in
  let run := FileBacked.addLicense sample_platform env "prod_1" (with_maxUses 3) "ABC-123" w in
  fst run = Returned (AddSuccess {| uses := 5; purchase := sample_purchase |}) /\
  sent (snd run)
  = [FileBacked.verification_request "prod_1" "ABC-123" false;
     FileBacked.verification_request "prod_1" "ABC-123" true].
Proof.
  intros service env w run.
  destruct (proj2 (proj2 (precheck_failure_is_discarded sample_platform env "prod_1"
                     (with_maxUses 3) "ABC-123" 3 w eq_refl))) as (_ & S & R).
  - cbn. discriminate.
  - split; [|exact S]. refine (eq_trans R _). vm_compute. reflexivity.
Defined.

(** ** A failed activation *)


(** [addLicense] of src/index.ts always fails, and writes nothing. *)
Lemma plain_addLicense_fails env productId options licenseKey w :
  let inc := Plain.verification_request productId options licenseKey true in
  let run := Plain.addLicense env productId options licenseKey w in
  fst run
  = Returned (AddFailure
      (response_failure (post env (incrementing_index options (length (sent w))) inc))) /\
  store (snd run) = store w /\ files (snd run) = files w /\
  clock_reads (snd run) = clock_reads w /\ random_draws (snd run) = random_draws w.
Proof.
  cbn zeta. rewrite plain_addLicense_run. unfold incrementing_index.
  destruct (maxUses options) as [limit|]; rewrite plain_activate_run; cbn zeta;
    rewrite ?after_request_length; cbn; auto.
Qed.




(** ** [checkCurrentLicense], step by step *)

Lemma plain_check_run env productId options key w :
  store w !! "license.key" = Some (VString key) -> key <> "" ->
  let request := Plain.verification_request productId options key false in
  Plain.checkCurrentLicense env productId options w
  = settle env options
      (response_verdict (post env (length (sent w)) request))
      (after_request options request (attempt_recorded env w)).
Proof.
  intros Hk Hne request.
  unfold Plain.checkCurrentLicense, bind at 1, licenseStore_get, gets, Store.get.
  rewrite Hk. rewrite bool_decide_eq_false_2 by exact Hne.
  unfold bind, Date_now_, licenseStore_set, modify, with_store. cbn.
  change {| store := _; files := _; sent := _; clock_reads := _; random_draws := _;
            globalAgent_rejectUnauthorized := _ |} with (attempt_recorded env w).
  rewrite plain_validate_run. reflexivity.
Qed.

Lemma plain_check_not_set env productId options w :
  (forall key, store w !! "license.key" = Some (VString key) -> key = "") ->
  Plain.checkCurrentLicense env productId options w = (Returned CurrentNotSet, w).
Proof.
  intros Hk.
  unfold Plain.checkCurrentLicense, bind, licenseStore_get, gets, Store.get.
  destruct (store w !! "license.key") as [[key| | |]|] eqn:E; try reflexivity.
  rewrite (Hk key eq_refl). reflexivity.
Qed.

Lemma decrypt_license_world P env productId ivString filePath w :
  snd (FileBacked.decrypt_license P env productId ivString filePath w) = w.
Proof.
  unfold FileBacked.decrypt_license, bind, check_key_iv, readFileSync,
    decipher_update_final, throw, ret.
  repeat (match goal with
          | |- context [if ?b then _ else _] => destruct b; cbn
          | |- context [match ?o with Some _ => _ | None => _ end] => destruct o; cbn
          end); reflexivity.
Qed.

Lemma decrypt_license_files P env productId ivString filePath w w' :
  files w = files w' ->
  fst (FileBacked.decrypt_license P env productId ivString filePath w)
  = fst (FileBacked.decrypt_license P env productId ivString filePath w').
Proof.
  intros Hf.
  unfold FileBacked.decrypt_license, bind, check_key_iv, throw, ret.
  destruct (negb (Nat.eqb (length (Buffer_from_utf8 _)) 32)); [reflexivity|].
  destruct (negb (Nat.eqb (length (Buffer_from_hex ivString)) 16)); [reflexivity|].
  unfold readFileSync. rewrite Hf.
  destruct (files w' !! filePath) as [data|]; [|reflexivity].
  unfold decipher_update_final, throw, ret.
  destruct (Nat.eqb (length data) 0 || negb (Nat.eqb (length data mod 16) 0));
    [reflexivity|].
  destruct (pkcs7_unpad _); reflexivity.
Qed.

Lemma file_check_run P env productId options ivString filePath w :
  store w !! "license.key" = Some (VString ivString) ->
  store w !! "license.filePath" = Some (VString filePath) ->
  ivString <> "" -> filePath <> "" -> is_Some (files w !! filePath) ->
  FileBacked.checkCurrentLicense P env productId options w
  = match fst (FileBacked.decrypt_license P env productId ivString filePath w) with
    | Thrown e => (Thrown e, w)
    | Returned licenseKey =>
        let request := FileBacked.verification_request productId licenseKey false in
        settle env options
          (verdict (post env (length (sent w)) request))
          (after_request options request (attempt_recorded env w))
    end.
Proof.
  intros Hk Hp Hne Hpe Hex.
  unfold FileBacked.checkCurrentLicense, bind at 1, licenseStore_get, gets, Store.get.
  rewrite Hk. unfold bind at 1. rewrite Hp.
  unfold bind at 1, existsSync, gets.
  rewrite (bool_decide_eq_false_2 _ Hpe), (bool_decide_eq_false_2 _ Hne),
    (bool_decide_eq_true_2 _ Hex). cbn [negb orb].
  unfold bind at 1.
  pose proof (decrypt_license_world P env productId ivString filePath w) as Hw.
  destruct (FileBacked.decrypt_license P env productId ivString filePath w)
    as [[licenseKey|e] w0]; cbn in Hw; subst w0; cbn [fst]; [|reflexivity].
  unfold bind, Date_now_, licenseStore_set, modify, with_store. cbn.
  change {| store := _; files := _; sent := _; clock_reads := _; random_draws := _;
            globalAgent_rejectUnauthorized := _ |} with (attempt_recorded env w).
  rewrite file_validate_run. reflexivity.
Qed.

Lemma settle_invalid env options e w :
  settle env options (CheckInvalid e) w
  = (Returned CurrentInvalid,
     with_store (Store.set "license.purchase" (VObject empty_object)) w).
Proof. reflexivity. Qed.

(** ** The offline fallback *)

(** With a non-zero [maxDaysBetweenChecks] and nothing stored under the
    top-level name "lastCheckSuccess", the fallback answers
    [OutdatedLicense], whatever "license.lastCheckSuccess" holds. *)
Lemma offline_fallback_outdated env options days w :
  maxDaysBetweenChecks options = Some days -> days <> 0 ->
  store w !! "lastCheckSuccess" = None ->
  offline_fallback env options w = (Returned CurrentOutdated, w).
Proof.
  intros Hd Hnz Hs.
  unfold offline_fallback, bind, licenseStore_get, gets, Store.get. cbn.
  rewrite Hd, Hs. destruct (Z.eqb_spec days 0); [contradiction|]. reflexivity.
Qed.

(** The fallback writes nothing: it returns a status other than
    [NotSet], having read the clock at most once. *)
Lemma offline_fallback_run env options w :
  exists r n,
    offline_fallback env options w
    = (Returned r,
       {| store := store w; files := files w; sent := sent w; clock_reads := n;
          random_draws := random_draws w;
          globalAgent_rejectUnauthorized := globalAgent_rejectUnauthorized w |}) /\
    (clock_reads w <= n <= S (clock_reads w))%nat /\ r <> CurrentNotSet.
Proof.
  assert (Hw : w = {| store := store w; files := files w; sent := sent w;
                      clock_reads := clock_reads w; random_draws := random_draws w;
                      globalAgent_rejectUnauthorized := globalAgent_rejectUnauthorized w |})
    by (now destruct w).
  unfold offline_fallback, bind, licenseStore_get, gets, Date_now_, ret, Store.get. cbn.
  destruct (maxDaysBetweenChecks options) as [days|]; cbn;
    [destruct (Z.eqb days 0); cbn;
     [|destruct (truthy (store w !! "lastCheckSuccess")); cbn;
       [destruct (store w !! "lastCheckSuccess" ≫= ToNumber); cbn;
        [destruct (Z.ltb _ _); cbn|]|]]|];
    try (destruct (store w !! "license.purchase") as [[s'|t'|b'|p']|]; cbn);
    eexists _, _;
    (split; [first [reflexivity | rewrite Hw at 1; reflexivity]
            |split; [cbn; lia|discriminate]]).
Qed.

Lemma offline_fallback_store env options w :
  store (snd (offline_fallback env options w)) = store w /\
  files (snd (offline_fallback env options w)) = files w /\
  (clock_reads w <= clock_reads (snd (offline_fallback env options w)))%nat.
Proof.
  destruct (offline_fallback_run env options w) as (r & n & -> & Hn & _).
  cbn. repeat split; try reflexivity. lia.
Qed.

(** Without a limit on the days the fallback answers from the cache
    alone. *)
Lemma offline_fallback_no_limit env options w :
  no_day_limit options ->
  offline_fallback env options w
  = (Returned match store w !! "license.purchase" with
              | Some (VObject p) => CurrentValid p
              | _ => CurrentInvalid
              end, w).
Proof.
  intros Hno.
  unfold offline_fallback, bind, licenseStore_get, gets, ret, Store.get. cbn.
  destruct Hno as [-> | ->]; cbn;
    destruct (store w !! "license.purchase") as [[s|t|b|p]|]; reflexivity.
Qed.

(** ** An invalid verdict and the cached purchase *)

(** C8, where the code departs from it.  A recheck whose verification
    ends invalid returns [InvalidLicense] and deletes "license.purchase";
    but the schema of the store puts [{}] in its place, and [{}] is
    truthy.  With no limit on the days between checks, the next recheck
    that cannot reach the service takes [{}] for a cached purchase and
    answers [ValidLicense]: the rejected license reads as entitled. *)
Theorem rejected_license_reads_as_valid
  (P : Platform) (env : Env) (productId : string) (options : GumroadLicenseOptions)
  (w : World) (x : Exception) :
  no_day_limit options ->
  (forall ivString filePath licenseKey,
     store w !! "license.key" = Some (VString ivString) ->
     store w !! "license.filePath" = Some (VString filePath) ->
     ivString <> "" -> filePath <> "" -> is_Some (files w !! filePath) ->
     fst (FileBacked.decrypt_license P env productId ivString filePath w)
     = Returned licenseKey ->
     let request := FileBacked.verification_request productId licenseKey false in
     status (verdict (post env (length (sent w)) request)) = InvalidLicense ->
     post env (S (length (sent w))) request = inl x ->
     let run := FileBacked.checkCurrentLicense P env productId options w in
     let again := FileBacked.checkCurrentLicense P env productId options (snd run) in
     fst run = Returned CurrentInvalid /\
     store (snd run) !! "license.purchase" = Some (VObject empty_object) /\
     fst again = Returned (CurrentValid empty_object))
  /\
  (forall key result,
     store w !! "license.key" = Some (VString key) -> key <> "" ->
     let request := Plain.verification_request productId options key false in
     post env (length (sent w)) request = inr result ->
     post env (S (length (sent w))) request = inl x ->
     let run := Plain.checkCurrentLicense env productId options w in
     let again := Plain.checkCurrentLicense env productId options (snd run) in
     fst run = Returned CurrentInvalid /\
     store (snd run) !! "license.purchase" = Some (VObject empty_object) /\
     fst again = Returned (CurrentValid empty_object)).
Proof.
  intros Hno. split.
  - intros ivString filePath licenseKey Hk Hp Hne Hpe Hex Hd request Hv Hx run again.
    assert (Hrun : run = (Returned CurrentInvalid,
                          with_store (Store.set "license.purchase" (VObject empty_object))
                            (after_request options request (attempt_recorded env w)))).
    { unfold run.
      rewrite (file_check_run P env productId options ivString filePath w Hk Hp Hne Hpe Hex).
      rewrite Hd. cbn zeta. fold request.
      destruct (verdict _) as [|e|]; try discriminate Hv. apply settle_invalid. }
    split; [now rewrite Hrun|]. split; [rewrite Hrun; cbn; now store_lookup|].
    unfold again. rewrite Hrun. cbn [snd].
    rewrite (file_check_run P env productId options ivString filePath);
      [|cbn; now store_lookup|cbn; now store_lookup|exact Hne|exact Hpe|exact Hex].
    rewrite <- (decrypt_license_files P env productId ivString filePath w) by reflexivity.
    rewrite Hd. cbn zeta. fold request.
    replace (length (sent _)) with (S (length (sent w)))
      by (cbn; rewrite length_app; cbn; lia).
    rewrite Hx. cbn [verdict settle].
    rewrite offline_fallback_no_limit by exact Hno. cbn. now store_lookup.
  - intros key result Hk Hne request Hr Hx run again.
    assert (Hrun : run = (Returned CurrentInvalid,
                          with_store (Store.set "license.purchase" (VObject empty_object))
                            (after_request options request (attempt_recorded env w)))).
    { unfold run. rewrite (plain_check_run env productId options key w Hk Hne).
      cbn zeta. fold request. rewrite Hr. apply settle_invalid. }
    split; [now rewrite Hrun|]. split; [rewrite Hrun; cbn; now store_lookup|].
    unfold again. rewrite Hrun. cbn [snd].
    rewrite (plain_check_run env productId options key); [|cbn; now store_lookup|exact Hne].
    cbn zeta. fold request.
    replace (length (sent _)) with (S (length (sent w)))
      by (cbn; rewrite length_app; cbn; lia).
    rewrite Hx. cbn [response_verdict settle].
    rewrite offline_fallback_no_limit by exact Hno. cbn. now store_lookup.
Qed.

(** A service that accepts an activation, then reports the purchase
    refunded, then cannot be reached. *)
Lemma rejected_license_reads_as_valid_witness :
  let service := fun (n : nat) (_ : Request) =>
    match n with
    | O => inr (valid_response 1)
    | S O => inr refunded_response
    | _ => inl (FetchFailed "ENOTFOUND")
    end in
  let env := sample_env stepping_clock service true in
  let w := FileSession.perform sample_platform env "prod_1" no_options
             (Activate "ABC-123") (fresh FileBacked.defaults) in
  let run := FileBacked.checkCurrentLicense sample_platform env "prod_1" no_options w in
  let again :=
    FileBacked.checkCurrentLicense sample_platform env "prod_1" no_options (snd run) in
  fst run = Returned CurrentInvalid /\
  store (snd run) !! "license.purchase" = Some (VObject empty_object) /\
  fst again = Returned (CurrentValid empty_object).
Proof.
  intros service env w run again.
  refine (proj1 (rejected_license_reads_as_valid sample_platform env "prod_1" no_options
                   w (FetchFailed "ENOTFOUND") (or_introl eq_refl))
            (Buffer_toString_hex sample_iv) "/data/license.key" "ABC-123"
            _ _ _ _ _ _ _ _).
  - vm_compute. reflexivity.
  - vm_compute. reflexivity.
  - discriminate.
  - discriminate.
  - eexists. vm_compute. reflexivity.
  - vm_compute. reflexivity.
  - vm_compute. reflexivity.
  - reflexivity.
Defined.

(** No operation writes the top-level name. *)
Lemma settle_top_level env options v w :
  store (snd (settle env options v w)) !! "lastCheckSuccess"
  = store w !! "lastCheckSuccess".
Proof.
  destruct v as [r|e|x].
  - cbn. rewrite !lookup_insert_ne by discriminate. reflexivity.
  - cbn. now store_lookup.
  - unfold settle. now rewrite (proj1 (offline_fallback_store env options w)).
Qed.

(** ** What the operations do to the timestamps *)

Lemma settle_effect env options v w :
  forall w1', store w1' = store (attempt_recorded env w) ->
    clock_reads w1' = S (clock_reads w) ->
    timestamps_effect env w (snd (settle env options v w1')) /\
    (clock_reads w <= clock_reads (snd (settle env options v w1')))%nat.
Proof.
  intros w1' Hs Hc. destruct v as [r|e|x].
  - cbn. split; [|lia].
    apply effect_both with (c1 := clock_reads w) (c2 := S (clock_reads w)); cbn.
    + lia.
    + rewrite Hs. cbn. store_lookup. reflexivity.
    + store_lookup. now rewrite Hc.
  - cbn. split; [|lia].
    apply effect_attempt with (c := clock_reads w); cbn.
    + lia.
    + rewrite Hs. cbn. store_lookup. reflexivity.
    + rewrite Hs. cbn. store_lookup. reflexivity.
  - unfold settle.
    destruct (offline_fallback_store env options w1') as (Es & _ & Ec).
    split; [|lia].
    apply effect_attempt with (c := clock_reads w).
    + lia.
    + rewrite Es, Hs. cbn. store_lookup. reflexivity.
    + rewrite Es, Hs. cbn. store_lookup. reflexivity.
Qed.

Lemma effect_unchanged env w w' :
  store w' = store w -> timestamps_effect env w w'.
Proof. intros E. apply effect_none; now rewrite E. Qed.

Section PlainEffects.
Variable env : Env.
Variable productId : string.
Variable options : GumroadLicenseOptions.

Lemma plain_addLicense_effect licenseKey w :
  let w' := snd (Plain.addLicense env productId options licenseKey w) in
  timestamps_effect env w w' /\ (clock_reads w <= clock_reads w')%nat.
Proof.
  cbn zeta.
  destruct (plain_addLicense_fails env productId options licenseKey w)
    as (_ & Hs & _ & Hc & _).
  split; [now apply effect_unchanged|lia].
Qed.

Lemma plain_check_effect w :
  let w' := snd (Plain.checkCurrentLicense env productId options w) in
  timestamps_effect env w w' /\ (clock_reads w <= clock_reads w')%nat.
Proof.
  cbn zeta.
  destruct (store w !! "license.key") as [[key|t|b|p]|] eqn:E;
    try (rewrite plain_check_not_set by (intros k Hk; rewrite E in Hk; discriminate Hk);
         cbn; split; [now apply effect_unchanged|lia]).
  destruct (decide (key = "")) as [->|Hne].
  - rewrite plain_check_not_set by (intros k Hk; rewrite E in Hk; now injection Hk).
    cbn; split; [now apply effect_unchanged|lia].
  - rewrite (plain_check_run env productId options key w E Hne). cbn zeta.
    now apply settle_effect.
Qed.

Lemma plain_defaults_timestamps :
  Plain.defaults env productId options !! "license.lastCheckAttempt" = None /\
  Plain.defaults env productId options !! "license.lastCheckSuccess" = None /\
  Plain.defaults env productId options !! "lastCheckSuccess" = None.
Proof.
  unfold Plain.defaults.
  destruct (disableEncryption options) as [[|]|];
    (split; [|split]); store_lookup; reflexivity.
Qed.

Lemma plain_perform_effect op w :
  let w' := PlainSession.perform env productId options op w in
  timestamps_effect env w w' /\ (clock_reads w <= clock_reads w')%nat.
Proof.
  destruct op as [licenseKey| |]; cbn [PlainSession.perform].
  - apply plain_addLicense_effect.
  - apply plain_check_effect.
  - cbn. split; [|lia]. apply effect_cleared; cbn; apply plain_defaults_timestamps.
Qed.
End PlainEffects.

Section FileEffects.
Variable P : Platform.
Variable env : Env.
Variable productId : string.
Variable options : GumroadLicenseOptions.

(** A recheck of the file-backed variant ends at once with [NotSet],
    throws out of the decipher with the world untouched, or goes on to
    [settle] a verdict after recording the attempt. *)
Lemma file_check_cases w :
  let run := FileBacked.checkCurrentLicense P env productId options w in
  run = (Returned CurrentNotSet, w) \/
  (exists e, run = (Thrown e, w)) \/
  (exists licenseKey,
     let request := FileBacked.verification_request productId licenseKey false in
     run = settle env options (verdict (post env (length (sent w)) request))
             (after_request options request (attempt_recorded env w))).
Proof.
  cbn zeta.
  destruct (store w !! "license.key") as [[ivString|?|?|?]|] eqn:Ek;
  destruct (store w !! "license.filePath") as [[filePath|?|?|?]|] eqn:Ep;
    try (left; unfold FileBacked.checkCurrentLicense, bind, licenseStore_get, gets,
           Store.get; rewrite Ek, Ep; reflexivity).
  destruct (decide (ivString = "")) as [->|Hne];
    [left; unfold FileBacked.checkCurrentLicense, bind, licenseStore_get, gets,
       Store.get, existsSync; rewrite Ek, Ep; cbn; now rewrite orb_true_r|].
  destruct (decide (filePath = "")) as [->|Hpe];
    [left; unfold FileBacked.checkCurrentLicense, bind, licenseStore_get, gets,
       Store.get, existsSync; rewrite Ek, Ep; reflexivity|].
  destruct (files w !! filePath) as [data|] eqn:Ef.
  - rewrite (file_check_run P env productId options ivString filePath w Ek Ep Hne Hpe)
      by (rewrite Ef; eauto).
    destruct (fst (FileBacked.decrypt_license P env productId ivString filePath w))
      as [licenseKey|e]; [right; right; exists licenseKey; reflexivity|].
    right; left; eauto.
  - left. unfold FileBacked.checkCurrentLicense, bind, licenseStore_get, existsSync,
      gets, Store.get. rewrite Ek, Ep, Ef.
    rewrite (bool_decide_eq_false_2 _ Hpe).
    rewrite bool_decide_eq_false_2 by (intros [? ?]; discriminate). reflexivity.
Qed.

Lemma file_check_effect w :
  let w' := snd (FileBacked.checkCurrentLicense P env productId options w) in
  timestamps_effect env w w' /\ (clock_reads w <= clock_reads w')%nat.
Proof.
  cbn zeta.
  destruct (file_check_cases w) as [E|[[e E]|[licenseKey E]]]; rewrite E.
  - cbn; split; [now apply effect_unchanged|lia].
  - cbn; split; [now apply effect_unchanged|lia].
  - now apply settle_effect.
Qed.

Lemma persist_effect licenseKey response w w0 :
  store w0 = store w -> clock_reads w0 = clock_reads w ->
  let w' := snd (FileBacked.persist P env productId options licenseKey response w0) in
  timestamps_effect env w w' /\ (clock_reads w <= clock_reads w')%nat.
Proof.
  intros Hs Hc. cbn zeta.
  remember (FileBacked.persist P env productId options licenseKey response w0)
    as run eqn:Hrun.
  unfold FileBacked.persist, bind, Date_now_, licenseStore_set, licenseStore_get,
    modify, gets, randomBytes_, check_key_iv, writeFileSync, throw, ret in Hrun.
  cbn in Hrun.
  repeat (match type of Hrun with
          | context [if ?b then _ else _] => destruct b; cbn in Hrun
          end);
    subst run; cbn; rewrite ?Hc; (split; [|lia]);
    apply effect_both with (c1 := clock_reads w) (c2 := S (clock_reads w));
    cbn; rewrite ?Hc; try lia; store_lookup; reflexivity.
Qed.

Lemma file_activate_effect licenseKey w w0 :
  store w0 = store w -> clock_reads w0 = clock_reads w ->
  let w' := snd (FileBacked.activate P env productId options licenseKey w0) in
  timestamps_effect env w w' /\ (clock_reads w <= clock_reads w')%nat.
Proof.
  intros Hs Hc. cbn zeta.
  remember (FileBacked.activate P env productId options licenseKey w0) as run eqn:Hrun.
  unfold FileBacked.activate, bind at 1 in Hrun. rewrite file_validate_run in Hrun.
  destruct (verdict _) as [r|e|x]; subst run.
  - now apply persist_effect.
  - cbn. rewrite Hc. split; [now apply effect_unchanged|lia].
  - cbn. rewrite Hc. split; [now apply effect_unchanged|lia].
Qed.

Lemma file_addLicense_effect licenseKey w :
  let w' := snd (FileBacked.addLicense P env productId options licenseKey w) in
  timestamps_effect env w w' /\ (clock_reads w <= clock_reads w')%nat.
Proof.
  cbn zeta. rewrite file_addLicense_run.
  destruct (maxUses options) as [limit|]; cbn zeta.
  - destruct (verdict _) as [r|e|x];
      [destruct (Z.leb limit (uses r));
       [cbn; split; [now apply effect_unchanged|lia]|]| |];
      now apply file_activate_effect.
  - now apply file_activate_effect.
Qed.

Lemma file_perform_effect op w :
  let w' := FileSession.perform P env productId options op w in
  timestamps_effect env w w' /\ (clock_reads w <= clock_reads w')%nat.
Proof.
  destruct op as [licenseKey| |]; cbn [FileSession.perform].
  - apply file_addLicense_effect.
  - apply file_check_effect.
  - cbn. split; [|lia]. apply effect_cleared; reflexivity.
Qed.
End FileEffects.

(** ** The order of the two timestamps *)

Lemma effect_keeps_order env w w' :
  monotone env -> success_in_past env w ->
  timestamps_effect env w w' -> (clock_reads w <= clock_reads w')%nat ->
  timestamps_kept env w w'.
Proof.
  intros Hmono Hpast Heff Hclock.
  unfold timestamps_kept, success_in_past, timestamps_ordered in *.
  destruct Heff as [Ha Hs|Ha Hs|c Hc Ha Hs|c1 c2 Hc Ha Hs].
  - split; [|split].
    + intros t Ht. rewrite Hs in Ht. specialize (Hpast t Ht).
      pose proof (Hmono _ _ Hclock). lia.
    + intros _ Hord a t. rewrite Ha, Hs. apply Hord.
    + intros Hne. now rewrite Hs in Hne.
  - split; [|split].
    + intros t Ht. rewrite Hs in Ht. discriminate.
    + intros _ _ a t Ha'. rewrite Ha in Ha'. discriminate.
    + intros _ t Ht. rewrite Hs in Ht. discriminate.
  - split; [|split].
    + intros t Ht. rewrite Hs in Ht. specialize (Hpast t Ht).
      pose proof (Hmono _ _ Hclock). lia.
    + intros _ _ a t Ha' Ht. rewrite Ha in Ha'. injection Ha' as <-.
      rewrite Hs in Ht. specialize (Hpast t Ht).
      assert (Date_now env (clock_reads w) <= Date_now env c) by (apply Hmono; lia). lia.
    + intros Hne. now rewrite Hs in Hne.
  - split; [|split].
    + intros t Ht. rewrite Hs in Ht. injection Ht as <-. apply Hmono. lia.
    + intros Heq Hord a t Ha' Ht. rewrite Ha in Ha'. injection Ha' as <-.
      rewrite Heq in Hs. specialize (Hpast _ Hs).
      rewrite Heq, Hs in Ht. injection Ht as <-.
      assert (Date_now env (clock_reads w) <= Date_now env c1) by (apply Hmono; lia).
      lia.
    + intros _ t Ht. rewrite Hs in Ht. injection Ht as <-.
      exists (Date_now env c1). split; [exact Ha|apply Hmono; lia].
Qed.

(** A store without a success time, such as the fresh ones. *)
Lemma no_success_in_past env w :
  store w !! "license.lastCheckSuccess" = None -> success_in_past env w.
Proof. intros H t Ht. rewrite H in Ht. discriminate Ht. Qed.

Lemma file_reachable_in_past P env productId options w :
  monotone env ->
  reachable (FileSession.perform P env productId options) (fresh FileBacked.defaults) w ->
  success_in_past env w.
Proof.
  intros Hmono. induction 1 as [|op w Hr IH].
  - now apply no_success_in_past.
  - destruct (file_perform_effect P env productId options op w) as [Heff Hclock].
    apply (effect_keeps_order env w _ Hmono IH Heff Hclock).
Qed.

Lemma plain_reachable_in_past env productId options w :
  monotone env ->
  reachable (PlainSession.perform env productId options)
    (fresh (Plain.defaults env productId options)) w ->
  success_in_past env w.
Proof.
  intros Hmono. induction 1 as [|op w Hr IH].
  - apply no_success_in_past. apply plain_defaults_timestamps.
  - destruct (plain_perform_effect env productId options op w) as [Heff Hclock].
    apply (effect_keeps_order env w _ Hmono IH Heff Hclock).
Qed.

(** C7, as amended.  On a clock that does not run backwards, and from a
    world whose recorded success is not in the future, every public
    operation of both variants keeps the timestamps in this sense: an
    operation that does not record a new success keeps
    [lastCheckAttempt >= lastCheckSuccess]; an operation that records one
    leaves [lastCheckAttempt <= lastCheckSuccess], the success being read
    from the clock after the attempt; and the recorded success is again
    not in the future.  Every world a session reaches from the fresh
    store is such a world. *)
Theorem timestamps_after_operation
  (P : Platform) (env : Env) (productId : string) (options : GumroadLicenseOptions)
  (op : Operation) (w : World) :
  monotone env ->
  (success_in_past env w ->
   timestamps_kept env w (PlainSession.perform env productId options op w) /\
   timestamps_kept env w (FileSession.perform P env productId options op w)) /\
  (reachable (FileSession.perform P env productId options) (fresh FileBacked.defaults) w ->
   success_in_past env w) /\
  (reachable (PlainSession.perform env productId options)
     (fresh (Plain.defaults env productId options)) w ->
   success_in_past env w).
Proof.
  intros Hmono. split; [|split].
  - intros Hpast. split.
    + destruct (plain_perform_effect env productId options op w) as [Heff Hclock].
      now apply effect_keeps_order.
    + destruct (file_perform_effect P env productId options op w) as [Heff Hclock].
      now apply effect_keeps_order.
  - now apply file_reachable_in_past.
  - now apply plain_reachable_in_past.
Qed.

Lemma stepping_clock_monotone :
  monotone (sample_env stepping_clock (fun _ _ => inr (valid_response 1)) true).
Proof.
  intros i j Hij. cbn. unfold stepping_clock.
  destruct i as [|[|i]], j as [|[|j]]; lia.
Qed.

Lemma timestamps_after_operation_witness :
  let env := sample_env stepping_clock (fun _ _ => inr (valid_response 1)) true in
  let w := fresh FileBacked.defaults in
  timestamps_kept env w
    (FileSession.perform sample_platform env "prod_1" no_options (Activate "ABC-123") w).
Proof.
  intros env w.
  refine (proj2 (proj1 (timestamps_after_operation sample_platform env "prod_1" no_options
                          (Activate "ABC-123") w stepping_clock_monotone) _)).
  intros t Ht. vm_compute in Ht. discriminate Ht.
Defined.

(** C7 as it is written fails: a recheck that succeeds reads the clock
    for the attempt before the request and for the success after it. *)
Lemma recheck_breaks_timestamp_order :
  let env := sample_env stepping_clock (fun _ _ => inr (valid_response 1)) true in
  let w0 := fresh FileBacked.defaults in
  let w1 := FileSession.perform sample_platform env "prod_1" no_options
              (Activate "ABC-123") w0 in
  let w2 := FileSession.perform sample_platform env "prod_1" no_options Recheck w1 in
  monotone env /\
  timestamps_ordered (store w1) /\
  store w2 !! "license.lastCheckAttempt" = Some (VNumber 2000) /\
  store w2 !! "license.lastCheckSuccess" = Some (VNumber 2500) /\
  ~ timestamps_ordered (store w2).
Proof.
  intros env w0 w1 w2.
  assert (Ha : store w2 !! "license.lastCheckAttempt" = Some (VNumber 2000))
    by (vm_compute; reflexivity).
  assert (Hs : store w2 !! "license.lastCheckSuccess" = Some (VNumber 2500))
    by (vm_compute; reflexivity).
  split; [exact stepping_clock_monotone|].
  split; [|split; [exact Ha|split; [exact Hs|]]].
  - intros a t Ha1 Hs1. vm_compute in Ha1, Hs1.
    injection Ha1 as <-. injection Hs1 as <-. lia.
  - intros Hord. specialize (Hord 2000 2500 Ha Hs). lia.
Qed.

(** ** The path the offline fallback reads *)

Section TopLevelPath.
Variable P : Platform.
Variable env : Env.
Variable productId : string.
Variable options : GumroadLicenseOptions.

Lemma plain_perform_top op w :
  store w !! "lastCheckSuccess" = None ->
    store (PlainSession.perform env productId options op w) !! "lastCheckSuccess" = None.
Proof.
  intros Hw. destruct op as [licenseKey| |]; cbn [PlainSession.perform].
  - destruct (plain_addLicense_fails env productId options licenseKey w)
      as (_ & -> & _).
    exact Hw.
  - destruct (store w !! "license.key") as [[key|t|b|p]|] eqn:E;
      try (rewrite plain_check_not_set
             by (intros k Hk; rewrite E in Hk; discriminate Hk); exact Hw).
    destruct (decide (key = "")) as [->|Hne].
    + rewrite plain_check_not_set
        by (intros k Hk; rewrite E in Hk; now injection Hk). exact Hw.
    + rewrite (plain_check_run env productId options key w E Hne). cbn zeta.
      rewrite settle_top_level. cbn. store_lookup. exact Hw.
  - cbn. apply plain_defaults_timestamps.
Qed.

Lemma persist_top licenseKey response w :
  store (snd (FileBacked.persist P env productId options licenseKey response w))
    !! "lastCheckSuccess"
    = store w !! "lastCheckSuccess".
Proof.
  remember (FileBacked.persist P env productId options licenseKey response w)
    as run eqn:Hrun.
  unfold FileBacked.persist, bind, Date_now_, licenseStore_set, licenseStore_get,
    modify, gets, randomBytes_, check_key_iv, writeFileSync, throw, ret in Hrun.
  cbn in Hrun.
  repeat (match type of Hrun with
          | context [if ?b then _ else _] => destruct b; cbn in Hrun
          end);
    subst run; cbn; store_lookup; reflexivity.
Qed.

Lemma file_activate_top licenseKey w :
  store (snd (FileBacked.activate P env productId options licenseKey w)) !! "lastCheckSuccess"
    = store w !! "lastCheckSuccess".
Proof.
  remember (FileBacked.activate P env productId options licenseKey w) as run eqn:Hrun.
  unfold FileBacked.activate, bind at 1 in Hrun. rewrite file_validate_run in Hrun.
  destruct (verdict _) as [r|e|x]; subst run; [|reflexivity|reflexivity].
  now rewrite persist_top.
Qed.

Lemma file_perform_top op w :
  store w !! "lastCheckSuccess" = None ->
    store (FileSession.perform P env productId options op w) !! "lastCheckSuccess" = None.
Proof.
  intros Hw. destruct op as [licenseKey| |]; cbn [FileSession.perform].
  - rewrite file_addLicense_run.
    destruct (maxUses options) as [limit|]; cbn zeta;
      [destruct (verdict _) as [r|e|x];
       [destruct (Z.leb limit (uses r)); [exact Hw|]| |]|];
      rewrite file_activate_top; exact Hw.
  - destruct (file_check_cases P env productId options w)
      as [E|[[e E]|[licenseKey E]]]; rewrite E; try exact Hw.
    rewrite settle_top_level. cbn. store_lookup. exact Hw.
  - reflexivity.
Qed.

Lemma plain_reachable_top w :
  reachable (PlainSession.perform env productId options)
    (fresh (Plain.defaults env productId options)) w ->
  store w !! "lastCheckSuccess" = None.
Proof.
  induction 1 as [|op w Hr IH].
  - cbn. apply plain_defaults_timestamps.
  - now apply plain_perform_top.
Qed.

Lemma file_reachable_top w :
  reachable (FileSession.perform P env productId options)
    (fresh FileBacked.defaults) w ->
  store w !! "lastCheckSuccess" = None.
Proof.
  induction 1 as [|op w Hr IH]; [reflexivity|now apply file_perform_top].
Qed.

(** With nothing under the top-level name, which no operation writes,
    the offline fallback of src/index.ts never grants the grace period
    once [maxDaysBetweenChecks] is set and not zero. *)
Lemma plain_grace_never_granted days key w :
  store w !! "lastCheckSuccess" = None ->
  maxDaysBetweenChecks options = Some days -> days <> 0 ->
  store w !! "license.key" = Some (VString key) -> key <> "" ->
  status (response_verdict (post env (length (sent w))
            (Plain.verification_request productId options key false)))
  = UnableToCheck ->
  fst (Plain.checkCurrentLicense env productId options w) = Returned CurrentOutdated.
Proof.
  intros Hr Hd Hnz Hk Hne Hv.
  rewrite (plain_check_run env productId options key w Hk Hne). cbn zeta.
  destruct (response_verdict _) as [|e|x]; try discriminate Hv.
  unfold settle. rewrite (offline_fallback_outdated env options days); auto.
  cbn. store_lookup. exact Hr.
Qed.

(** In no world a session of the file-backed variant can reach does the
    offline fallback grant the grace period. *)
Lemma file_grace_never_granted days ivString filePath licenseKey w :
  reachable (FileSession.perform P env productId options)
    (fresh FileBacked.defaults) w ->
  maxDaysBetweenChecks options = Some days -> days <> 0 ->
  store w !! "license.key" = Some (VString ivString) ->
  store w !! "license.filePath" = Some (VString filePath) ->
  ivString <> "" -> filePath <> "" -> is_Some (files w !! filePath) ->
  fst (FileBacked.decrypt_license P env productId ivString filePath w)
  = Returned licenseKey ->
  status (verdict (post env (length (sent w))
            (FileBacked.verification_request productId licenseKey false)))
  = UnableToCheck ->
  fst (FileBacked.checkCurrentLicense P env productId options w)
  = Returned CurrentOutdated.
Proof.
  intros Hr Hd Hnz Hk Hp Hne Hpe Hex Hdec Hv.
  rewrite (file_check_run P env productId options ivString filePath w Hk Hp Hne Hpe Hex).
  rewrite Hdec. cbn zeta.
  destruct (verdict _) as [|e|x]; try discriminate Hv.
  unfold settle. rewrite (offline_fallback_outdated env options days); auto.
  cbn. store_lookup. now apply file_reachable_top.
Qed.
End TopLevelPath.

(** C2, at an input where the code departs from it.  The limit is seven
    days.  In the file-backed variant the license was activated and
    rechecked with success, which left "license.lastCheckSuccess" and a
    cached purchase in the store; src/index.ts, which stores no key
    itself, finds a store that holds the same.  Six days later the
    service cannot be reached.  The recheck answers [OutdatedLicense], in
    both variants. *)
Theorem recheck_within_grace_is_outdated :
  let env := sample_env six_days_later then_unreachable true in
  let options := with_maxDays 7 in
  let w := licensed_world env "prod_1" options "ABC-123" 1002 1003 sample_purchase
             [Plain.verification_request "prod_1" options "ABC-123" true;
              Plain.verification_request "prod_1" options "ABC-123" false] 4 in
  let w' := FileSession.perform sample_platform env "prod_1" options Recheck
              (FileSession.perform sample_platform env "prod_1" options (Activate "ABC-123")
                 (fresh FileBacked.defaults)) in
  (store w !! "license.lastCheckSuccess" = Some (VNumber 1003) /\
   store w !! "license.purchase" = Some (VObject sample_purchase) /\
   Date_now env (clock_reads w) - 1003 = 6 * day /\
   post env (length (sent w))
     (Plain.verification_request "prod_1" options "ABC-123" false)
   = inl (FetchFailed "ENOTFOUND") /\
   fst (Plain.checkCurrentLicense env "prod_1" options w) = Returned CurrentOutdated)
  /\
  (store w' !! "license.lastCheckSuccess" = Some (VNumber 1003) /\
   store w' !! "license.purchase" = Some (VObject sample_purchase) /\
   Date_now env (clock_reads w') - 1003 = 6 * day /\
   post env (length (sent w'))
     (FileBacked.verification_request "prod_1" "ABC-123" false)
   = inl (FetchFailed "ENOTFOUND") /\
   fst (FileBacked.checkCurrentLicense sample_platform env "prod_1" options w')
   = Returned CurrentOutdated).
Proof. vm_compute. repeat split. Qed.

(** ** The secret *)

Lemma substring_length (s : string) (n m : nat) :
  (n + m <= String.length s)%nat -> String.length (substring n m s) = m.
Proof.
  revert n m. induction s as [|c s IH]; intros n m H; cbn in H.
  - assert (n = 0%nat) by lia. assert (m = 0%nat) by lia. subst. reflexivity.
  - destruct n as [|n]; cbn.
    + destruct m as [|m]; cbn; [reflexivity|]. rewrite IH; [reflexivity|lia].
    + apply IH. lia.
Qed.

Lemma string_app_length (a b : string) :
  String.length (a +:+ b) = (String.length a + String.length b)%nat.
Proof.
  induction a as [|c a IH]; [reflexivity|].
  change (String c a +:+ b) with (String c (a +:+ b)). cbn. now rewrite IH.
Qed.

Lemma Buffer_from_utf8_length (s : string) :
  length (Buffer_from_utf8 s) = String.length s.
Proof.
  unfold Buffer_from_utf8, list_byte_of_string. rewrite length_map.
  induction s; cbn; congruence.
Qed.

Lemma Buffer_toString_from_utf8 (s : string) :
  Buffer_toString (Buffer_from_utf8 s) = s.
Proof. apply string_of_list_byte_of_string. Qed.

Lemma derive_secret_length P (laws : PlatformLaws P) productId machineId :
  String.length (derive_secret P productId machineId) = 32%nat.
Proof.
  unfold derive_secret. apply substring_length.
  rewrite (digest_length P laws). lia.
Qed.

Lemma check_key_iv_ok (key : string) (iv : list byte) w :
  String.length key = 32%nat -> length iv = 16%nat ->
  check_key_iv key iv w = (Returned tt, w).
Proof.
  intros Hk Hiv. unfold check_key_iv.
  rewrite Buffer_from_utf8_length, Hk, Hiv. reflexivity.
Qed.

(** ** The stand-in platform keeps the laws *)

Lemma sample_platform_laws : PlatformLaws sample_platform.
Proof.
  split; cbn.
  - intros s. unfold sample_digest. apply substring_length.
    rewrite string_app_length. cbn. lia.
  - intros k b Hk Hb. unfold sample_block.
    rewrite xor_block_length, length_take. lia.
  - intros k b Hk Hb. unfold sample_block.
    apply xor_block_cancel. rewrite length_take. lia.
  - intros a b. destruct a; discriminate.
Qed.

Lemma sample_random_source clock service can_write :
  random_source_ok (sample_env clock service can_write).
Proof. intros n. reflexivity. Qed.

(** ** The key at rest *)

(** Whenever the license file cannot be written, [persist] ends in the
    exception of [writeFileSync] with the key itself under "license.key". *)
Lemma persist_write_failure P (laws : PlatformLaws P) env productId options
  licenseKey response w :
  random_source_ok env ->
  writable env
    (FileBacked.license_file P options
       (store w !! "license.fileName") (store w !! "license.fileExtension")) = false ->
  let run := FileBacked.persist P env productId options licenseKey response w in
  fst run = Thrown (FsError "EACCES") /\
  store (snd run) !! "license.key" = Some (VString licenseKey) /\
  files (snd run) = files w.
Proof.
  intros random_ok Hw run. subst run.
  remember (FileBacked.persist P env productId options licenseKey response w)
    as run eqn:Hrun.
  unfold FileBacked.persist, bind, Date_now_, licenseStore_set, licenseStore_get,
    modify, gets, randomBytes_, writeFileSync, throw, ret in Hrun.
  cbn in Hrun.
  rewrite check_key_iv_ok in Hrun
    by (apply derive_secret_length, laws || apply random_ok).
  revert Hrun. store_lookup. rewrite Hw. intros ->. cbn. store_lookup.
  repeat split; reflexivity.
Qed.

(** C5, at an input where the code departs from it: the license file
    cannot be written.  [addLicense] has by then stored the key itself
    under "license.key"; [writeFileSync] throws, and the key stays there
    in the clear. *)
Theorem plaintext_key_left_in_store :
  let env := sample_env stepping_clock (fun _ _ => inr (valid_response 1)) false in
  let step := FileSession.perform sample_platform env "prod_1" no_options in
  let run := FileBacked.addLicense sample_platform env "prod_1" no_options "ABC-123"
               (fresh FileBacked.defaults) in
  reachable step (fresh FileBacked.defaults) (snd run) /\
  fst run = Thrown (FsError "EACCES") /\
  store (snd run) !! "license.key" = Some (VString "ABC-123") /\
  files (snd run) = ∅.
Proof.
  intros env step run. split.
  - apply (reachable_step step _ (Activate "ABC-123")). apply reachable_start.
  - vm_compute. repeat split.
Qed.

(** ** The key written by [addLicense] and read by [checkCurrentLicense] *)

Lemma settle_sent env options v w :
  sent (snd (settle env options v w)) = sent w.
Proof.
  destruct v as [r|e|x]; [reflexivity|reflexivity|].
  unfold settle.
  destruct (offline_fallback_run env options w) as (r & n & -> & _). reflexivity.
Qed.

Section StoredKey.
Variable P : Platform.
Hypothesis laws : PlatformLaws P.
Variable env : Env.
Hypothesis random_ok : random_source_ok env.
Variable productId : string.
Variable options : GumroadLicenseOptions.

Lemma persist_returned licenseKey response w res w' :
  FileBacked.persist P env productId options licenseKey response w = (Returned res, w') ->
  let iv := randomBytes env (random_draws w) in
  res = AddSuccess response /\
  store w' !! "license.key" = Some (VString (Buffer_toString_hex iv)) /\
  store w' !! "license.filePath" = Some (VString (FileBacked.license_file P options
       (store w !! "license.fileName") (store w !! "license.fileExtension"))) /\
  files w' !! FileBacked.license_file P options
       (store w !! "license.fileName") (store w !! "license.fileExtension")
  = Some (cipher_update_final P
            (derive_secret P productId (machineIdSync env)) iv (Buffer_from_utf8 licenseKey)).
Proof.
  intros Hrun iv.
  unfold FileBacked.persist, bind, Date_now_, licenseStore_set, licenseStore_get,
    modify, gets, randomBytes_, writeFileSync, throw, ret in Hrun.
  cbn in Hrun.
  rewrite check_key_iv_ok in Hrun
    by (apply derive_secret_length, laws || apply random_ok).
  revert Hrun. store_lookup.
  destruct (writable env _); intros Hrun; [|discriminate Hrun].
  injection Hrun as <- <-. cbn. store_lookup. fold iv.
  repeat split; reflexivity.
Qed.

Lemma file_addLicense_success licenseKey w response w' :
  FileBacked.addLicense P env productId options licenseKey w
  = (Returned (AddSuccess response), w') ->
  exists w1,
    FileBacked.persist P env productId options licenseKey response w1
    = (Returned (AddSuccess response), w').
Proof.
  rewrite file_addLicense_run.
  assert (Hact : forall w0,
    FileBacked.activate P env productId options licenseKey w0
    = (Returned (AddSuccess response), w') ->
    exists w1, FileBacked.persist P env productId options licenseKey response w1
               = (Returned (AddSuccess response), w')).
  { intros w0. unfold FileBacked.activate, bind at 1. rewrite file_validate_run.
    destruct (verdict _) as [r|e|x]; try discriminate.
    intros Hp. exists (after_request options
                         (FileBacked.verification_request productId licenseKey true) w0).
    destruct (persist_returned licenseKey r _ _ _ Hp) as [Hres _].
    injection Hres as <-. exact Hp. }
  destruct (maxUses options) as [limit|]; cbn zeta; [|apply Hact].
  destruct (verdict _) as [r|e|x]; [|apply Hact|apply Hact].
  destruct (Z.leb limit (uses r)); [discriminate|apply Hact].
Qed.

Lemma decrypt_license_stored licenseKey iv filePath w :
  length iv = 16%nat ->
  files w !! filePath
  = Some (cipher_update_final P
            (derive_secret P productId (machineIdSync env)) iv (Buffer_from_utf8 licenseKey)) ->
  FileBacked.decrypt_license P env productId (Buffer_toString_hex iv) filePath w
  = (Returned licenseKey, w).
Proof.
  intros Hiv Hf. unfold FileBacked.decrypt_license.
  rewrite Buffer_from_hex_toString.
  unfold bind at 1.
  rewrite check_key_iv_ok by (apply derive_secret_length, laws || exact Hiv).
  unfold bind at 1, readFileSync. rewrite Hf.
  unfold bind.
  rewrite (decipher_cipher P laws) by (apply derive_secret_length, laws || exact Hiv).
  unfold ret. now rewrite Buffer_toString_from_utf8.
Qed.

Lemma hex_not_empty (iv : list byte) :
  length iv = 16%nat -> Buffer_toString_hex iv <> "".
Proof. destruct iv; [discriminate|]. intros _. discriminate. Qed.
End StoredKey.

(** C6.  Deciphering what the cipher made of a key, with the same derived
    secret and the IV of the encryption, gives the key back; and after a
    successful [addLicense] of a key, the store and the license file are
    such that [checkCurrentLicense] reads back exactly that key and sends
    it for verification.  (Nothing here needs the key to be non-empty.) *)
Theorem stored_key_round_trip
  (P : Platform) (env : Env) (productId : string) (options : GumroadLicenseOptions)
  (licenseKey : string) (w w' : World) (response : GumroadSuccessResponse) :
  PlatformLaws P -> random_source_ok env ->
  licenseKey <> "" ->
  FileBacked.addLicense P env productId options licenseKey w
  = (Returned (AddSuccess response), w') ->
  let secret := derive_secret P productId (machineIdSync env) in
  (forall iv world,
     length iv = 16%nat ->
     decipher_update_final P secret iv
       (cipher_update_final P secret iv (Buffer_from_utf8 licenseKey)) world
     = (Returned (Buffer_from_utf8 licenseKey), world)) /\
  Buffer_toString (Buffer_from_utf8 licenseKey) = licenseKey /\
  exists ivString filePath,
    store w' !! "license.key" = Some (VString ivString) /\
    store w' !! "license.filePath" = Some (VString filePath) /\
    FileBacked.decrypt_license P env productId ivString filePath w'
    = (Returned licenseKey, w') /\
    sent (snd (FileBacked.checkCurrentLicense P env productId options w'))
    = sent w' ++ [FileBacked.verification_request productId licenseKey false].
Proof.
  intros laws random_ok _ Hadd secret.
  split; [|split].
  - intros iv world Hiv. apply (decipher_cipher P laws); [|exact Hiv].
    apply derive_secret_length, laws.
  - apply Buffer_toString_from_utf8.
  - destruct (file_addLicense_success P laws env random_ok productId options
                licenseKey w response w' Hadd) as [w1 Hp].
    destruct (persist_returned P laws env random_ok productId options
                licenseKey response w1 _ w' Hp) as (_ & Hk & Hpath & Hfile).
    set (iv := randomBytes env (random_draws w1)) in *.
    pose proof (random_ok (random_draws w1)) as Hiv. fold iv in Hiv.
    pose proof (decrypt_license_stored P laws env productId licenseKey iv _ w' Hiv Hfile)
      as Hdec.
    eexists _, _. split; [exact Hk|]. split; [exact Hpath|]. split; [exact Hdec|].
    rewrite (file_check_run P env productId options _ _ w' Hk Hpath);
      [|now apply hex_not_empty|apply (join_not_empty P laws)|rewrite Hfile; eauto].
    rewrite Hdec. cbn zeta. cbn [fst]. rewrite settle_sent. reflexivity.
Qed.

Lemma stored_key_round_trip_witness :
  let env := sample_env stepping_clock (fun _ _ => inr (valid_response 1)) true in
  let run := FileBacked.addLicense sample_platform env "prod_1" no_options "ABC-123"
               (fresh FileBacked.defaults) in
  exists ivString filePath,
    store (snd run) !! "license.key" = Some (VString ivString) /\
    store (snd run) !! "license.filePath" = Some (VString filePath) /\
    FileBacked.decrypt_license sample_platform env "prod_1" ivString filePath (snd run)
    = (Returned "ABC-123", snd run) /\
    sent (snd (FileBacked.checkCurrentLicense sample_platform env "prod_1" no_options
                 (snd run)))
    = sent (snd run) ++ [FileBacked.verification_request "prod_1" "ABC-123" false].
Proof.
  intros env run.
  refine (proj2 (proj2 (stored_key_round_trip sample_platform env "prod_1" no_options
            "ABC-123" (fresh FileBacked.defaults) (snd run)
            {| uses := 1; purchase := sample_purchase |}
            sample_platform_laws (sample_random_source _ _ _) _ _))).
  - discriminate.
  - vm_compute. reflexivity.
Defined.

(** ** When the decipher fails *)







(** A wrong IV of the right length goes unnoticed as soon as the text
    fills a block: CBC only mixes the IV into the first block, and the
    padding that [final] checks sits in the last one. *)
Lemma wrong_iv_goes_unnoticed P (laws : PlatformLaws P) (key : string)
  (iv iv' data : list byte) (w : World) :
  String.length key = 32%nat -> length iv = 16%nat -> length iv' = 16%nat ->
  (16 <= length data)%nat ->
  decipher_update_final P key iv' (cipher_update_final P key iv data) w
  = (Returned (xor_block (xor_block (take 16 data) iv) iv' ++ drop 16 data), w).
Proof.
  intros Hk Hiv Hiv' Hlen.
  assert (Hkey : length (Buffer_from_utf8 key) = 32%nat)
    by (now rewrite Buffer_from_utf8_length).
  unfold decipher_update_final, cipher_update_final.
  destruct (pkcs7_pad_length data) as (k & Hpad).
  rewrite Hpad, blocks_div.
  rewrite (cbc_encrypt_length P laws (S k) _ _ _ Hkey Hiv Hpad).
  rewrite blocks_div, blocks_mod.
  replace (Nat.eqb (16 * S k) 0) with false by (symmetry; apply Nat.eqb_neq; lia).
  cbn [orb negb Nat.eqb].
  cbn [cbc_encrypt cbc_decrypt].
  set (first := xor_block (take 16 (pkcs7_pad data)) iv).
  assert (Hfirst : length first = 16%nat).
  { unfold first. rewrite xor_block_length, length_take. lia. }
  pose proof (encrypt_block_length P laws _ _ Hkey Hfirst) as Hc.
  rewrite take_app_length', drop_app_length' by (symmetry; exact Hc).
  rewrite (decrypt_encrypt_block P laws _ _ Hkey Hfirst).
  rewrite (cbc_decrypt_encrypt P laws k) by
    (try exact Hkey; try exact Hc; rewrite length_drop; lia).
  assert (Hshape : xor_block first iv' ++ drop 16 (pkcs7_pad data)
                   = pkcs7_pad (xor_block (xor_block (take 16 data) iv) iv' ++ drop 16 data)).
  { assert (Hsame : length (xor_block (xor_block (take 16 data) iv) iv' ++ drop 16 data)
                    = length data).
    { rewrite length_app, !xor_block_length, length_take, length_drop. lia. }
    unfold first, pkcs7_pad. rewrite Hsame.
    rewrite take_app_le by lia. rewrite drop_app_le by lia.
    now rewrite app_assoc. }
  rewrite Hshape, pkcs7_unpad_pad. reflexivity.
Qed.


(** * Further properties

    ** What an operation leaves alone *)

(** The flag of the process-wide agent after some requests [l]. *)
Lemma after_request_flag options r w :
  globalAgent_rejectUnauthorized (after_request options r w)
  = if bool_decide (rejectUnauthorized options = Some false) then false
    else globalAgent_rejectUnauthorized w.
Proof. reflexivity. Qed.

Lemma settle_frame env options v w :
  let w' := snd (settle env options v w) in
  sent w' = sent w /\ files w' = files w /\
  random_draws w' = random_draws w /\
  globalAgent_rejectUnauthorized w' = globalAgent_rejectUnauthorized w.
Proof.
  destruct v as [r|e|x]; [cbn; auto|cbn; auto|].
  unfold settle.
  destruct (offline_fallback_run env options w) as (r & n & -> & _). cbn. auto.
Qed.

Lemma settle_returns env options v w :
  exists r, fst (settle env options v w) = Returned r /\ r <> CurrentNotSet.
Proof.
  destruct v as [r|e|x].
  - eexists; split; [reflexivity|discriminate].
  - eexists; split; [reflexivity|discriminate].
  - unfold settle.
    destruct (offline_fallback_run env options w) as (r & n & -> & _ & Hr).
    exists r. split; [reflexivity|exact Hr].
Qed.

Lemma persist_frame P env productId options licenseKey response w :
  let w' := snd (FileBacked.persist P env productId options licenseKey response w) in
  sent w' = sent w /\
  globalAgent_rejectUnauthorized w' = globalAgent_rejectUnauthorized w.
Proof.
  cbn zeta.
  remember (FileBacked.persist P env productId options licenseKey response w)
    as run eqn:Hrun.
  unfold FileBacked.persist, bind, Date_now_, licenseStore_set, licenseStore_get,
    modify, gets, randomBytes_, check_key_iv, writeFileSync, throw, ret in Hrun.
  cbn in Hrun.
  repeat (match type of Hrun with
          | context [if ?b then _ else _] => destruct b; cbn in Hrun
          end);
    subst run; cbn; auto.
Qed.

Lemma new_requests_app w w' l : sent w' = sent w ++ l -> new_requests w w' = l.
Proof. intros E. unfold new_requests. rewrite E. apply drop_app_length. Qed.

Lemma trace_none options w w' :
  sent w' = sent w ->
  globalAgent_rejectUnauthorized w' = globalAgent_rejectUnauthorized w ->
  trace_of options w w' [].
Proof. intros Hs Hf. split; [now rewrite app_nil_r|exact Hf]. Qed.

Lemma trace_request options w w1 w' r l :
  trace_of options w w1 l ->
  sent w' = sent w1 ++ [r] ->
  globalAgent_rejectUnauthorized w'
  = (if bool_decide (rejectUnauthorized options = Some false) then false
     else globalAgent_rejectUnauthorized w1) ->
  trace_of options w w' (l ++ [r]).
Proof.
  intros [Hs Hf] Hs' Hf'. split.
  - rewrite Hs', Hs. now rewrite app_assoc.
  - rewrite Hf', Hf. destruct l; cbn; [reflexivity|].
    now destruct (bool_decide _).
Qed.

(** ** The requests of each operation *)

Lemma trace_after_request options r w :
  trace_of options w (after_request options r w) [r].
Proof. split; reflexivity. Qed.

Section PlainTraces.
Variable env : Env.
Variable productId : string.
Variable options : GumroadLicenseOptions.

Lemma plain_activate_trace licenseKey w w0 l :
  trace_of options w w0 l ->
  trace_of options w (snd (Plain.activate env productId options licenseKey w0))
    (l ++ [Plain.verification_request productId options licenseKey true]).
Proof.
  intros Ht. rewrite plain_activate_run. cbn zeta. cbn [snd].
  eapply trace_request; [exact Ht|reflexivity|reflexivity].
Qed.

Lemma plain_addLicense_trace licenseKey w :
  let pre := Plain.verification_request productId options licenseKey false in
  let inc := Plain.verification_request productId options licenseKey true in
  exists l,
    trace_of options w (snd (Plain.addLicense env productId options licenseKey w)) l /\
    match maxUses options with
    | None => l = [inc]
    | Some _ => l = [pre; inc]
    end.
Proof.
  cbn zeta. rewrite plain_addLicense_run.
  destruct (maxUses options) as [limit|].
  - eexists; split; [apply plain_activate_trace, trace_after_request|reflexivity].
  - eexists. split; [|reflexivity].
    apply (plain_activate_trace licenseKey w w []).
    now apply trace_none.
Qed.

Lemma plain_check_trace w :
  exists l,
    trace_of options w (snd (Plain.checkCurrentLicense env productId options w)) l /\
    (l = [] \/
     exists key, store w !! "license.key" = Some (VString key) /\ key <> "" /\
       l = [Plain.verification_request productId options key false]).
Proof.
  destruct (store w !! "license.key") as [[key|t|b|p]|] eqn:E;
    try (rewrite plain_check_not_set
           by (intros k Hk; rewrite E in Hk; discriminate Hk);
         exists []; split; [now apply trace_none|now left]).
  destruct (decide (key = "")) as [->|Hne].
  - rewrite plain_check_not_set by (intros k Hk; rewrite E in Hk; now injection Hk).
    exists []; split; [now apply trace_none|now left].
  - rewrite (plain_check_run env productId options key w E Hne). cbn zeta.
    eexists. split; [|right; exists key; eauto].
    destruct (settle_frame env options
                (response_verdict (post env (length (sent w))
                   (Plain.verification_request productId options key false)))
                (after_request options
                   (Plain.verification_request productId options key false)
                   (attempt_recorded env w))) as (Hs & _ & _ & Hf).
    split; [rewrite Hs; reflexivity|rewrite Hf; reflexivity].
Qed.
End PlainTraces.

Section FileTraces.
Variable P : Platform.
Variable env : Env.
Variable productId : string.
Variable options : GumroadLicenseOptions.

Lemma file_activate_trace licenseKey w w0 l :
  trace_of options w w0 l ->
  trace_of options w (snd (FileBacked.activate P env productId options licenseKey w0))
    (l ++ [FileBacked.verification_request productId licenseKey true]).
Proof.
  intros Ht.
  remember (FileBacked.activate P env productId options licenseKey w0) as run eqn:Hrun.
  unfold FileBacked.activate, bind at 1 in Hrun. rewrite file_validate_run in Hrun.
  destruct (verdict _) as [r|e|x]; subst run;
    try (eapply trace_request; [exact Ht|reflexivity|reflexivity]).
  destruct (persist_frame P env productId options licenseKey r
              (after_request options
                 (FileBacked.verification_request productId licenseKey true) w0))
    as [Hs Hf].
  eapply trace_request; [exact Ht|rewrite Hs; reflexivity|rewrite Hf; reflexivity].
Qed.

Lemma file_addLicense_trace licenseKey w :
  let pre := FileBacked.verification_request productId licenseKey false in
  let inc := FileBacked.verification_request productId licenseKey true in
  exists l,
    trace_of options w
      (snd (FileBacked.addLicense P env productId options licenseKey w)) l /\
    match maxUses options with
    | None => l = [inc]
    | Some _ => l = [pre] \/ l = [pre; inc]
    end.
Proof.
  cbn zeta. rewrite file_addLicense_run.
  destruct (maxUses options) as [limit|]; cbn zeta.
  - destruct (verdict _) as [r|e|x];
      [destruct (Z.leb limit (uses r));
       [eexists; split; [apply trace_after_request|now left]|]| |];
      (eexists; split;
       [apply file_activate_trace, trace_after_request|now right]).
  - eexists. split; [|reflexivity].
    apply (file_activate_trace licenseKey w w []).
    now apply trace_none.
Qed.

Lemma file_check_trace w :
  exists l,
    trace_of options w
      (snd (FileBacked.checkCurrentLicense P env productId options w)) l /\
    (l = [] \/
     exists licenseKey,
       l = [FileBacked.verification_request productId licenseKey false]).
Proof.
  destruct (file_check_cases P env productId options w)
    as [E|[[e E]|[licenseKey E]]]; rewrite E.
  - exists []. split; [now apply trace_none|now left].
  - exists []. split; [now apply trace_none|now left].
  - cbn zeta. eexists. split; [|right; exists licenseKey; reflexivity].
    destruct (settle_frame env options
                (verdict (post env (length (sent w))
                   (FileBacked.verification_request productId licenseKey false)))
                (after_request options
                   (FileBacked.verification_request productId licenseKey false)
                   (attempt_recorded env w))) as (Hs & _ & _ & Hf).
    split; [rewrite Hs; reflexivity|rewrite Hf; reflexivity].
Qed.
End FileTraces.

Lemma plain_perform_trace env productId options op w :
  exists l, trace_of options w (PlainSession.perform env productId options op w) l.
Proof.
  destruct op as [licenseKey| |]; cbn [PlainSession.perform].
  - destruct (plain_addLicense_trace env productId options licenseKey w) as (l & H & _).
    eauto.
  - destruct (plain_check_trace env productId options w) as (l & H & _). eauto.
  - exists []. now apply trace_none.
Qed.

Lemma file_perform_trace P env productId options op w :
  exists l, trace_of options w (FileSession.perform P env productId options op w) l.
Proof.
  destruct op as [licenseKey| |]; cbn [FileSession.perform].
  - destruct (file_addLicense_trace P env productId options licenseKey w) as (l & H & _).
    eauto.
  - destruct (file_check_trace P env productId options w) as (l & H & _). eauto.
  - exists []. now apply trace_none.
Qed.

(** X1.  Only [addLicense] asks the service to count a use, and at most
    once per call, with its last request; [checkCurrentLicense] sends at
    most one request and never an incrementing one; [clearLicense] sends
    none.  Without [maxUses], [addLicense] sends the incrementing request
    alone. *)
Theorem use_count_is_touched_once
  (P : Platform) (env : Env) (productId : string) (options : GumroadLicenseOptions)
  (licenseKey : string) (w : World) :
  let added := new_requests w (snd (Plain.addLicense env productId options licenseKey w)) in
  let added' :=
    new_requests w (snd (FileBacked.addLicense P env productId options licenseKey w)) in
  let checked := new_requests w (snd (Plain.checkCurrentLicense env productId options w)) in
  let checked' :=
    new_requests w (snd (FileBacked.checkCurrentLicense P env productId options w)) in
  (map increments added = [true] \/
   maxUses options <> None /\
   (map increments added = [false] \/ map increments added = [false; true])) /\
  (map increments added' = [true] \/
   maxUses options <> None /\
   (map increments added' = [false] \/ map increments added' = [false; true])) /\
  (map increments checked = [] \/ map increments checked = [false]) /\
  (map increments checked' = [] \/ map increments checked' = [false]) /\
  new_requests w (snd (Plain.clearLicense env productId options w)) = [] /\
  new_requests w (snd (FileBacked.clearLicense w)) = [].
Proof.
  cbn zeta. repeat split.
  - destruct (plain_addLicense_trace env productId options licenseKey w)
      as (l & [Hs _] & Hl).
    rewrite (new_requests_app _ _ _ Hs).
    destruct (maxUses options); [|subst l; now left].
    right. split; [discriminate|]. subst l. now right.
  - destruct (file_addLicense_trace P env productId options licenseKey w)
      as (l & [Hs _] & Hl).
    rewrite (new_requests_app _ _ _ Hs).
    destruct (maxUses options); [|subst l; now left].
    right. split; [discriminate|]. destruct Hl as [-> | ->]; [now left|now right].
  - destruct (plain_check_trace env productId options w)
      as (l & [Hs _] & [-> | (key & _ & _ & ->)]);
      rewrite (new_requests_app _ _ _ Hs); [now left|now right].
  - destruct (file_check_trace P env productId options w)
      as (l & [Hs _] & [-> | (key & ->)]);
      rewrite (new_requests_app _ _ _ Hs); [now left|now right].
  - apply new_requests_app. cbn. now rewrite app_nil_r.
  - apply new_requests_app. cbn. now rewrite app_nil_r.
Qed.

(** X2.  The certificate check of the process-wide agent is only ever
    turned off: an operation that sends a request under
    [rejectUnauthorized: false] leaves it off, every other operation
    leaves the flag as it found it, and no operation turns it back on. *)
Theorem certificate_check_stays_off
  (P : Platform) (env : Env) (productId : string) (options : GumroadLicenseOptions)
  (op : Operation) (w : World) :
  let after (w' : World) :=
    globalAgent_rejectUnauthorized w'
    = (if bool_decide (rejectUnauthorized options = Some false)
          && negb (bool_decide (new_requests w w' = []))
       then false else globalAgent_rejectUnauthorized w) /\
    (globalAgent_rejectUnauthorized w = false ->
     globalAgent_rejectUnauthorized w' = false) in
  after (PlainSession.perform env productId options op w) /\
  after (FileSession.perform P env productId options op w).
Proof.
  cbn zeta.
  assert (H : forall w' l, trace_of options w w' l ->
            globalAgent_rejectUnauthorized w'
            = (if bool_decide (rejectUnauthorized options = Some false)
                  && negb (bool_decide (new_requests w w' = []))
               then false else globalAgent_rejectUnauthorized w) /\
            (globalAgent_rejectUnauthorized w = false ->
             globalAgent_rejectUnauthorized w' = false)).
  { intros w' l [Hs Hf]. rewrite (new_requests_app _ _ _ Hs), Hf.
    destruct l as [|r l]; cbn.
    - rewrite andb_false_r. auto.
    - rewrite andb_true_r. split; [reflexivity|].
      intros ->. now destruct (bool_decide _). }
  split.
  - destruct (plain_perform_trace env productId options op w) as [l Hl]. eauto.
  - destruct (file_perform_trace P env productId options op w) as [l Hl]. eauto.
Qed.

Lemma certificate_check_stays_off_witness :
  let env := sample_env stepping_clock (fun _ _ => inr (valid_response 1)) true in
  let options :=
    {| maxUses := None; maxDaysBetweenChecks := None; gumroadApiUrl := None;
       disableEncryption := None; timeout := None; rejectUnauthorized := Some false;
       licenseFilePath := "/data" |} in
  let step := PlainSession.perform env "prod_1" options in
  let w := step (Activate "ABC-123") (fresh (Plain.defaults env "prod_1" options)) in
  globalAgent_rejectUnauthorized w = false /\
  globalAgent_rejectUnauthorized (step Clear w) = false.
Proof.
  intros env options step w. split; [reflexivity|].
  apply (proj1 (certificate_check_stays_off sample_platform env "prod_1" options
                  Clear w)).
  reflexivity.
Defined.

(** ** [NotSet] *)

Lemma plain_check_on_record env productId options w :
  key_on_record w ->
  exists key, store w !! "license.key" = Some (VString key) /\ key <> "" /\
    Plain.checkCurrentLicense env productId options w
    = settle env options
        (response_verdict (post env (length (sent w))
           (Plain.verification_request productId options key false)))
        (after_request options
           (Plain.verification_request productId options key false)
           (attempt_recorded env w)).
Proof.
  intros (key & Hk & Hne). exists key. split; [exact Hk|]. split; [exact Hne|].
  apply (plain_check_run env productId options key w Hk Hne).
Qed.

Lemma plain_check_off_record env productId options w :
  ~ key_on_record w ->
  Plain.checkCurrentLicense env productId options w = (Returned CurrentNotSet, w).
Proof.
  intros Hn. apply plain_check_not_set. intros key Hk.
  destruct (decide (key = "")) as [E|Hne]; [exact E|].
  destruct Hn. exists key. auto.
Qed.

Lemma file_check_off_record P env productId options w :
  ~ file_on_record w ->
  FileBacked.checkCurrentLicense P env productId options w = (Returned CurrentNotSet, w).
Proof.
  intros Hn.
  destruct (store w !! "license.key") as [[ivString|?|?|?]|] eqn:Ek;
  destruct (store w !! "license.filePath") as [[filePath|?|?|?]|] eqn:Ep;
    try (unfold FileBacked.checkCurrentLicense, bind, licenseStore_get, gets,
           Store.get; rewrite Ek, Ep; reflexivity).
  destruct (decide (ivString = "")) as [->|Hne];
    [unfold FileBacked.checkCurrentLicense, bind, licenseStore_get, gets,
       Store.get, existsSync; rewrite Ek, Ep; cbn; now rewrite orb_true_r|].
  destruct (decide (filePath = "")) as [->|Hpe];
    [unfold FileBacked.checkCurrentLicense, bind, licenseStore_get, gets,
       Store.get, existsSync; rewrite Ek, Ep; reflexivity|].
  destruct (files w !! filePath) as [data|] eqn:Ef.
  - destruct Hn. exists ivString, filePath. rewrite Ef. eauto 10.
  - unfold FileBacked.checkCurrentLicense, bind, licenseStore_get, existsSync,
      gets, Store.get. rewrite Ek, Ep, Ef.
    rewrite (bool_decide_eq_false_2 _ Hpe).
    rewrite bool_decide_eq_false_2 by (intros [? ?]; discriminate). reflexivity.
Qed.

Lemma file_check_on_record P env productId options w :
  file_on_record w ->
  fst (FileBacked.checkCurrentLicense P env productId options w)
  <> Returned CurrentNotSet.
Proof.
  intros (ivString & filePath & Hk & Hne & Hp & Hpe & Hex).
  rewrite (file_check_run P env productId options ivString filePath w Hk Hp Hne Hpe Hex).
  destruct (fst (FileBacked.decrypt_license P env productId ivString filePath w))
    as [licenseKey|e]; [|discriminate].
  cbn zeta. destruct (settle_returns env options
    (verdict (post env (length (sent w))
       (FileBacked.verification_request productId licenseKey false)))
    (after_request options
       (FileBacked.verification_request productId licenseKey false)
       (attempt_recorded env w))) as (r & -> & Hr). congruence.
Qed.

(** X3.  [checkCurrentLicense] answers [NotSet] exactly when nothing is
    on record (src/index.ts: no key, or the empty one; file-backed: no
    IV, no path, or no file at the path), and then it has done nothing:
    no attempt is recorded, no request is sent, the clock is not read. *)
Theorem not_set_touches_nothing
  (P : Platform) (env : Env) (productId : string) (options : GumroadLicenseOptions)
  (w : World) :
  let run := Plain.checkCurrentLicense env productId options w in
  let run' := FileBacked.checkCurrentLicense P env productId options w in
  (fst run = Returned CurrentNotSet <-> ~ key_on_record w) /\
  (fst run = Returned CurrentNotSet -> snd run = w) /\
  (fst run' = Returned CurrentNotSet <-> ~ file_on_record w) /\
  (fst run' = Returned CurrentNotSet -> snd run' = w).
Proof.
  cbn zeta.
  assert (Hplain : fst (Plain.checkCurrentLicense env productId options w)
                   = Returned CurrentNotSet <-> ~ key_on_record w).
  { split.
    - intros Hr Hon.
      destruct (plain_check_on_record env productId options w Hon)
        as (key & _ & _ & E).
      rewrite E in Hr.
      destruct (settle_returns env options
        (response_verdict (post env (length (sent w))
           (Plain.verification_request productId options key false)))
        (after_request options
           (Plain.verification_request productId options key false)
           (attempt_recorded env w))) as (r & Er & Hne).
      congruence.
    - intros Hn. now rewrite plain_check_off_record. }
  assert (Hfile : fst (FileBacked.checkCurrentLicense P env productId options w)
                  = Returned CurrentNotSet <-> ~ file_on_record w).
  { split.
    - intros Hr Hon. now apply (file_check_on_record P env productId options w Hon).
    - intros Hn. now rewrite file_check_off_record. }
  split; [exact Hplain|]. split; [|split; [exact Hfile|]].
  - intros Hr. apply Hplain in Hr. now rewrite plain_check_off_record.
  - intros Hr. apply Hfile in Hr. now rewrite file_check_off_record.
Qed.

Lemma not_set_touches_nothing_witness :
  let env := sample_env stepping_clock (fun _ _ => inr (valid_response 1)) true in
  let w := with_store (fun s => <["license.key" := VString ""]> s)
             (fresh (Plain.defaults env "prod_1" no_options)) in
  Plain.checkCurrentLicense env "prod_1" no_options w = (Returned CurrentNotSet, w).
Proof.
  intros env w.
  pose proof (not_set_touches_nothing sample_platform env "prod_1" no_options w)
    as (Hiff & Hsame & _).
  assert (Hr : fst (Plain.checkCurrentLicense env "prod_1" no_options w)
               = Returned CurrentNotSet) by reflexivity.
  rewrite (surjective_pairing (Plain.checkCurrentLicense env "prod_1" no_options w)).
  rewrite (Hsame Hr), Hr. reflexivity.
Defined.

(** ** The cached purchase *)

Section PurchasePath.
Variable P : Platform.
Variable env : Env.
Variable productId : string.
Variable options : GumroadLicenseOptions.

Lemma file_addLicense_purchase licenseKey w :
  store (snd (FileBacked.addLicense P env productId options licenseKey w))
    !! "license.purchase"
  = store w !! "license.purchase".
Proof.
  assert (Hper : forall response w0, store w0 = store w ->
    store (snd (FileBacked.persist P env productId options licenseKey response w0))
      !! "license.purchase"
    = store w !! "license.purchase").
  { intros response w0 Hs.
    remember (FileBacked.persist P env productId options licenseKey response w0)
      as run eqn:Hrun.
    unfold FileBacked.persist, bind, Date_now_, licenseStore_set, licenseStore_get,
      modify, gets, randomBytes_, check_key_iv, writeFileSync, throw, ret in Hrun.
    cbn in Hrun.
    repeat (match type of Hrun with
            | context [if ?b then _ else _] => destruct b; cbn in Hrun
            end);
      subst run; cbn; store_lookup; now rewrite Hs. }
  assert (Hact : forall w0, store w0 = store w ->
    store (snd (FileBacked.activate P env productId options licenseKey w0))
      !! "license.purchase"
    = store w !! "license.purchase").
  { intros w0 Hs.
    remember (FileBacked.activate P env productId options licenseKey w0) as run eqn:Hrun.
    unfold FileBacked.activate, bind at 1 in Hrun. rewrite file_validate_run in Hrun.
    destruct (verdict _) as [r|e|x]; subst run;
      [now apply Hper|cbn; now rewrite Hs|cbn; now rewrite Hs]. }
  rewrite file_addLicense_run.
  destruct (maxUses options) as [limit|]; cbn zeta;
    [destruct (verdict _) as [r|e|x];
     [destruct (Z.leb limit (uses r)); [reflexivity|]| |]|];
    now apply Hact.
Qed.

(** Whatever the verdict, [settle] leaves an object at
    "license.purchase": the purchase of a valid answer, [{}] after an
    invalid one, what was there when the service could not be reached. *)
Lemma settle_purchase v w :
  purchase_on_record (store w) ->
  purchase_on_record (store (snd (settle env options v w))).
Proof.
  intros Hp. destruct v as [r|e|x].
  - exists (purchase r). cbn. now store_lookup.
  - exists empty_object. cbn. now store_lookup.
  - unfold settle. now rewrite (proj1 (offline_fallback_store env options w)).
Qed.

Lemma attempt_keeps_purchase r w :
  purchase_on_record (store w) ->
  purchase_on_record (store (after_request options r (attempt_recorded env w))).
Proof. intros [p Hp]. exists p. cbn. now store_lookup. Qed.

Lemma file_perform_purchase op w :
  purchase_on_record (store w) ->
  purchase_on_record (store (FileSession.perform P env productId options op w)).
Proof.
  intros Hp. destruct op as [licenseKey| |]; cbn [FileSession.perform].
  - destruct Hp as [p Hp]. exists p. now rewrite file_addLicense_purchase.
  - destruct (file_check_cases P env productId options w)
      as [E|[[e E]|[licenseKey E]]]; rewrite E; try exact Hp.
    now apply settle_purchase, attempt_keeps_purchase.
  - exists empty_object. reflexivity.
Qed.

Lemma file_reachable_purchase w :
  reachable (FileSession.perform P env productId options) (fresh FileBacked.defaults) w ->
  purchase_on_record (store w).
Proof.
  induction 1 as [|op w Hr IH].
  - exists empty_object. reflexivity.
  - now apply file_perform_purchase.
Qed.

Lemma plain_defaults_purchase :
  Plain.defaults env productId options !! "license.purchase"
  = Some (VObject empty_object).
Proof.
  unfold Plain.defaults.
  destruct (disableEncryption options) as [[|]|]; store_lookup; reflexivity.
Qed.

Lemma plain_perform_purchase op w :
  purchase_on_record (store w) ->
  purchase_on_record (store (PlainSession.perform env productId options op w)).
Proof.
  intros Hp. destruct op as [licenseKey| |]; cbn [PlainSession.perform].
  - destruct (plain_addLicense_fails env productId options licenseKey w)
      as (_ & -> & _).
    exact Hp.
  - destruct (store w !! "license.key") as [[key|t|b|p]|] eqn:E;
      try (rewrite plain_check_not_set
             by (intros k Hk; rewrite E in Hk; discriminate Hk); exact Hp).
    destruct (decide (key = "")) as [->|Hne].
    + rewrite plain_check_not_set
        by (intros k Hk; rewrite E in Hk; now injection Hk). exact Hp.
    + rewrite (plain_check_run env productId options key w E Hne). cbn zeta.
      now apply settle_purchase, attempt_keeps_purchase.
  - exists empty_object. cbn. apply plain_defaults_purchase.
Qed.

Lemma plain_reachable_purchase w :
  reachable (PlainSession.perform env productId options)
    (fresh (Plain.defaults env productId options)) w ->
  purchase_on_record (store w).
Proof.
  induction 1 as [|op w Hr IH].
  - exists empty_object. cbn. apply plain_defaults_purchase.
  - now apply plain_perform_purchase.
Qed.
End PurchasePath.

(** ** A recheck that succeeds *)

Lemma settle_valid env options response r w :
  settle env options (CheckValid response) (after_request options r (attempt_recorded env w))
  = (Returned (CurrentValid (purchase response)),
     rechecked env options r (purchase response) w).
Proof. reflexivity. Qed.

(** X5.  In the file-backed variant a recheck whose verification is valid
    returns [ValidLicense] with the purchase of the answer and leaves
    exactly this behind: the attempt (the reading of the clock before the
    request), the success (the reading after it) and the purchase in the
    store, one request that does not increment, the files as they
    were. *)
Theorem valid_recheck_refreshes_the_record
  (P : Platform) (env : Env) (productId : string) (options : GumroadLicenseOptions)
  (w : World) (response : GumroadSuccessResponse)
  (ivString filePath licenseKey : string) :
  store w !! "license.key" = Some (VString ivString) ->
  store w !! "license.filePath" = Some (VString filePath) ->
  ivString <> "" -> filePath <> "" -> is_Some (files w !! filePath) ->
  fst (FileBacked.decrypt_license P env productId ivString filePath w)
  = Returned licenseKey ->
  let request := FileBacked.verification_request productId licenseKey false in
  verdict (post env (length (sent w)) request) = CheckValid response ->
  increments request = false /\
  FileBacked.checkCurrentLicense P env productId options w
  = (Returned (CurrentValid (purchase response)),
     rechecked env options request (purchase response) w).
Proof.
  intros Hk Hp Hne Hpe Hex Hd request Hv. split; [reflexivity|].
  rewrite (file_check_run P env productId options ivString filePath w Hk Hp Hne Hpe Hex).
  rewrite Hd. cbn zeta. fold request. rewrite Hv. apply settle_valid.
Qed.

Lemma valid_recheck_refreshes_the_record_witness :
  let env := sample_env stepping_clock (fun _ _ => inr (valid_response 1)) true in
  let w := FileSession.perform sample_platform env "prod_1" no_options
             (Activate "ABC-123") (fresh FileBacked.defaults) in
  let run := FileBacked.checkCurrentLicense sample_platform env "prod_1" no_options w in
  fst run = Returned (CurrentValid sample_purchase) /\
  store (snd run) !! "license.purchase" = Some (VObject sample_purchase) /\
  store (snd run) !! "license.lastCheckAttempt" = Some (VNumber 2000) /\
  store (snd run) !! "license.lastCheckSuccess" = Some (VNumber 2500).
Proof.
  intros env w run.
  pose proof (proj2 (valid_recheck_refreshes_the_record sample_platform env "prod_1"
                no_options w {| uses := 1; purchase := sample_purchase |}
                (Buffer_toString_hex sample_iv) "/data/license.key" "ABC-123"
                eq_refl eq_refl ltac:(discriminate) ltac:(discriminate)
                (ex_intro _ _ eq_refl) eq_refl eq_refl)) as E.
  unfold run. rewrite E. repeat split.
Defined.

(** ** Offline, without a limit on the days *)

(** X6.  With no limit on the days between checks ([maxDaysBetweenChecks]
    absent, or zero), a recheck that cannot reach the service answers
    from the cache alone, however old the last success is: it returns
    what "license.purchase" holds as [ValidLicense], records the attempt
    and changes nothing else.  In every world a session reaches the path
    holds an object, a purchase or [{}], so the answer is never
    [InvalidLicense]. *)
Theorem offline_recheck_without_limit
  (P : Platform) (env : Env) (productId : string) (options : GumroadLicenseOptions)
  (w : World) (e : Exception) :
  no_day_limit options ->
  (forall key p,
     store w !! "license.key" = Some (VString key) -> key <> "" ->
     store w !! "license.purchase" = Some (VObject p) ->
     let request := Plain.verification_request productId options key false in
     post env (length (sent w)) request = inl e ->
     Plain.checkCurrentLicense env productId options w
     = (Returned (CurrentValid p),
        after_request options request (attempt_recorded env w)))
  /\
  (forall ivString filePath licenseKey p,
     store w !! "license.key" = Some (VString ivString) ->
     store w !! "license.filePath" = Some (VString filePath) ->
     ivString <> "" -> filePath <> "" -> is_Some (files w !! filePath) ->
     fst (FileBacked.decrypt_license P env productId ivString filePath w)
     = Returned licenseKey ->
     store w !! "license.purchase" = Some (VObject p) ->
     let request := FileBacked.verification_request productId licenseKey false in
     post env (length (sent w)) request = inl e ->
     FileBacked.checkCurrentLicense P env productId options w
     = (Returned (CurrentValid p),
        after_request options request (attempt_recorded env w)))
  /\
  (reachable (FileSession.perform P env productId options) (fresh FileBacked.defaults) w ->
   purchase_on_record (store w))
  /\
  (reachable (PlainSession.perform env productId options)
     (fresh (Plain.defaults env productId options)) w ->
   purchase_on_record (store w)).
Proof.
  intros Hn. split; [|split; [|split]].
  - intros key p Hk Hne Hp request Hpost.
    rewrite (plain_check_run env productId options key w Hk Hne). cbn zeta.
    fold request. rewrite Hpost. cbn [response_verdict settle].
    rewrite (offline_fallback_no_limit env options _ Hn). cbn. store_lookup.
    now rewrite Hp.
  - intros ivString filePath licenseKey p Hk Hpath Hne Hpe Hex Hd Hp request Hpost.
    rewrite (file_check_run P env productId options ivString filePath w
               Hk Hpath Hne Hpe Hex).
    rewrite Hd. cbn zeta. fold request. rewrite Hpost. cbn [verdict settle].
    rewrite (offline_fallback_no_limit env options _ Hn). cbn. store_lookup.
    now rewrite Hp.
  - apply file_reachable_purchase.
  - apply plain_reachable_purchase.
Qed.

Lemma offline_recheck_without_limit_witness :
  let env := sample_env stepping_clock (changing 2 (inr (valid_response 1))
                                          (inl (FetchFailed "ENOTFOUND"))) true in
  let step := FileSession.perform sample_platform env "prod_1" no_options in
  let w := step Recheck (step (Activate "ABC-123") (fresh FileBacked.defaults)) in
  fst (FileBacked.checkCurrentLicense sample_platform env "prod_1" no_options w)
  = Returned (CurrentValid sample_purchase).
Proof.
  intros env step w.
  pose proof (proj1 (proj2 (offline_recheck_without_limit sample_platform env "prod_1"
                       no_options w (FetchFailed "ENOTFOUND") (or_introl eq_refl)))
                (Buffer_toString_hex sample_iv) "/data/license.key" "ABC-123"
                sample_purchase
                eq_refl eq_refl ltac:(discriminate) ltac:(discriminate)
                (ex_intro _ _ eq_refl) eq_refl eq_refl eq_refl) as E.
  rewrite E. reflexivity.
Defined.

(** ** A license that was activated and never rechecked *)

(** X7.  [addLicense] does not write "license.purchase".  After a
    successful activation in a store that held [{}] there (a fresh or a
    cleared one, or one after an invalid recheck) the path still holds
    [{}]; and with no limit on the days between checks, a recheck that
    cannot reach the service answers [ValidLicense] with that empty
    purchase. *)
Theorem activation_caches_no_purchase
  (P : Platform) (env : Env) (productId : string) (options : GumroadLicenseOptions)
  (licenseKey : string) (w w1 : World) (response : GumroadSuccessResponse)
  (e : Exception) :
  PlatformLaws P -> random_source_ok env ->
  no_day_limit options ->
  store w !! "license.purchase" = Some (VObject empty_object) ->
  FileBacked.addLicense P env productId options licenseKey w
  = (Returned (AddSuccess response), w1) ->
  post env (length (sent w1)) (FileBacked.verification_request productId licenseKey false)
  = inl e ->
  store w1 !! "license.purchase" = Some (VObject empty_object) /\
  fst (FileBacked.checkCurrentLicense P env productId options w1)
  = Returned (CurrentValid empty_object).
Proof.
  intros laws random_ok Hn Hp Hadd Hpost.
  assert (Hp1 : store w1 !! "license.purchase" = Some (VObject empty_object)).
  { rewrite <- Hp, <- (file_addLicense_purchase P env productId options licenseKey w).
    now rewrite Hadd. }
  split; [exact Hp1|].
  destruct (file_addLicense_success P laws env random_ok productId options
              licenseKey w response w1 Hadd) as [w0 Hper].
  destruct (persist_returned P laws env random_ok productId options
              licenseKey response w0 _ w1 Hper) as (_ & Hk & Hpath & Hfile).
  pose proof (random_ok (random_draws w0)) as Hiv.
  pose proof (decrypt_license_stored P laws env productId licenseKey _ _ w1 Hiv Hfile)
    as Hdec.
  rewrite (file_check_run P env productId options _ _ w1 Hk Hpath);
    [|now apply hex_not_empty|apply (join_not_empty P laws)|rewrite Hfile; eauto].
  rewrite Hdec. cbn zeta. cbn [fst]. rewrite Hpost. cbn [verdict settle].
  rewrite (offline_fallback_no_limit env options _ Hn). cbn. store_lookup.
  now rewrite Hp1.
Qed.

Lemma activation_caches_no_purchase_witness :
  let env := sample_env stepping_clock (changing 1 (inr (valid_response 1))
                                          (inl (FetchFailed "ENOTFOUND"))) true in
  let run := FileBacked.addLicense sample_platform env "prod_1" no_options "ABC-123"
               (fresh FileBacked.defaults) in
  fst run = Returned (AddSuccess {| uses := 1; purchase := sample_purchase |}) /\
  store (snd run) !! "license.purchase" = Some (VObject empty_object) /\
  fst (FileBacked.checkCurrentLicense sample_platform env "prod_1" no_options (snd run))
  = Returned (CurrentValid empty_object).
Proof.
  intros env run. split; [vm_compute; reflexivity|].
  apply (activation_caches_no_purchase sample_platform env "prod_1" no_options
           "ABC-123" (fresh FileBacked.defaults) (snd run)
           {| uses := 1; purchase := sample_purchase |} (FetchFailed "ENOTFOUND")
           sample_platform_laws (sample_random_source _ _ _) (or_introl eq_refl)
           eq_refl);
    vm_compute; reflexivity.
Defined.
(** ** src/index.ts and the answers of the service *)

Lemma plain_defaults_no_key env productId options :
  Plain.defaults env productId options !! "license.key" = None.
Proof.
  unfold Plain.defaults.
  destruct (disableEncryption options) as [[|]|]; store_lookup; reflexivity.
Qed.

Lemma plain_perform_idle env productId options op w :
  store w = Plain.defaults env productId options ->
  store (PlainSession.perform env productId options op w)
  = Plain.defaults env productId options /\
  files (PlainSession.perform env productId options op w) = files w.
Proof.
  intros Hs. destruct op as [licenseKey| |]; cbn [PlainSession.perform].
  - destruct (plain_addLicense_fails env productId options licenseKey w)
      as (_ & -> & -> & _).
    auto.
  - rewrite plain_check_not_set; [auto|].
    intros key Hk. rewrite Hs, plain_defaults_no_key in Hk. discriminate Hk.
  - cbn. auto.
Qed.

Lemma plain_reachable_idle env productId options w :
  reachable (PlainSession.perform env productId options)
    (fresh (Plain.defaults env productId options)) w ->
  store w = Plain.defaults env productId options /\ files w = ∅.
Proof.
  induction 1 as [|op w Hr [IHs IHf]]; [split; reflexivity|].
  destruct (plain_perform_idle env productId options op w IHs) as [Hs Hf].
  split; [exact Hs|now rewrite Hf].
Qed.

(** X18.  src/index.ts reads no answer of the service: it looks for the
    fields of the body on the response object of axios.  So
    [validateLicenseCode] never returns a valid result, [addLicense]
    never succeeds and writes nothing, and in every world a session
    reaches from the fresh store the store still holds its defaults, no
    file exists, and [checkCurrentLicense] answers [NotSet] and touches
    nothing. *)
Theorem index_ts_never_activates
  (env : Env) (productId : string) (options : GumroadLicenseOptions)
  (licenseKey : string) (increase : bool) (w : World) :
  let verified := Plain.validateLicenseCode env productId options licenseKey increase w in
  let added := Plain.addLicense env productId options licenseKey w in
  (fst verified
   = Returned (response_verdict (post env (length (sent w))
       (Plain.verification_request productId options licenseKey increase))) /\
   forall r, fst verified <> Returned (CheckValid r)) /\
  ((forall r, fst added <> Returned (AddSuccess r)) /\
   store (snd added) = store w /\ files (snd added) = files w) /\
  (reachable (PlainSession.perform env productId options)
     (fresh (Plain.defaults env productId options)) w ->
   store w = Plain.defaults env productId options /\ files w = ∅ /\
   Plain.checkCurrentLicense env productId options w = (Returned CurrentNotSet, w)).
Proof.
  cbn zeta. split; [|split].
  - rewrite plain_validate_run. cbn [fst]. split; [reflexivity|].
    intros r E. injection E as E. now apply response_verdict_never_valid in E.
  - destruct (plain_addLicense_fails env productId options licenseKey w)
      as (R & S & F & _).
    rewrite R. split; [discriminate|auto].
  - intros Hr. destruct (plain_reachable_idle env productId options w Hr) as [Hs Hf].
    split; [exact Hs|]. split; [exact Hf|].
    apply plain_check_not_set.
    intros key Hk. rewrite Hs, plain_defaults_no_key in Hk. discriminate Hk.
Qed.

Lemma index_ts_never_activates_witness :
  let env := sample_env stepping_clock (fun _ _ => inr (valid_response 1)) true in
  let step := PlainSession.perform env "prod_1" no_options in
  let w := step (Activate "ABC-123") (fresh (Plain.defaults env "prod_1" no_options)) in
  sent w = [Plain.verification_request "prod_1" no_options "ABC-123" true] /\
  store w = Plain.defaults env "prod_1" no_options /\ files w = ∅ /\
  Plain.checkCurrentLicense env "prod_1" no_options w = (Returned CurrentNotSet, w).
Proof.
  intros env step w. split; [reflexivity|].
  apply (proj2 (proj2 (index_ts_never_activates env "prod_1" no_options "ABC-123"
                         false w))).
  apply (reachable_step step _ (Activate "ABC-123")). apply reachable_start.
Defined.

(** ** The use limit of the file-backed variant *)

Example max_use_message_sample :
  max_use_message 3 = "You have reached the limit of 3 activations." /\
  max_use_message (10 ^ 21) = "You have reached the limit of 1e+21 activations." /\
  max_use_message (2 ^ 64)
  = "You have reached the limit of 18446744073709552000 activations.".
Proof. vm_compute. repeat split. Qed.

(** X19.  In the file-backed variant, with [maxUses] set, [addLicense]
    first sends a verification that does not increment; when that one is
    valid and reports a use count at or above the limit, the call fails
    with [MaxUseExceeded], the pre-check is the only request sent, and
    the store and the files are as they were. *)
Theorem max_uses_rejects_before_incrementing
  (P : Platform) (env : Env) (productId : string) (options : GumroadLicenseOptions)
  (licenseKey : string) (limit : Z) (w : World) :
  maxUses options = Some limit ->
  let pre := FileBacked.verification_request productId licenseKey false in
  let run := FileBacked.addLicense P env productId options licenseKey w in
  increments pre = false /\
  (exists rest, sent (snd run) = sent w ++ pre :: rest) /\
  (forall r,
     verdict (post env (length (sent w)) pre) = CheckValid r -> limit <= uses r ->
     fst run = Returned (AddFailure (Classified
                 {| type := MaxUseExceeded; message := max_use_message limit |})) /\
     sent (snd run) = sent w ++ [pre] /\
     store (snd run) = store w /\ files (snd run) = files w).
Proof.
  intros Hm pre run. split; [reflexivity|]. split.
  - apply (file_precheck_first P env productId options licenseKey limit w Hm).
  - intros r Hv Hle.
    apply (file_max_uses_rejects P env productId options licenseKey limit w r Hm Hv Hle).
Qed.

Lemma max_uses_rejects_before_incrementing_witness :
  let env := sample_env (fun _ => 0) (fun _ _ => inr (valid_response 3)) true in
  let w := fresh FileBacked.defaults in
  let run := FileBacked.addLicense sample_platform env "prod_1" (with_maxUses 3) "ABC-123" w in
  fst run = Returned (AddFailure (Classified
              {| type := MaxUseExceeded;
                 message := "You have reached the limit of 3 activations." |})) /\
  sent (snd run) = [FileBacked.verification_request "prod_1" "ABC-123" false] /\
  store (snd run) = store w /\ files (snd run) = files w.
Proof.
  intros env w run.
  refine (proj2 (proj2
    (max_uses_rejects_before_incrementing sample_platform env "prod_1"
       (with_maxUses 3) "ABC-123" 3 w eq_refl)) _ _ _).
  - reflexivity.
  - cbn. lia.
Defined.
(** ** [persist], case by case *)

Lemma pkcs7_pad_length_exact (data : list byte) :
  length (pkcs7_pad data) = (16 * (length data / 16 + 1))%nat.
Proof.
  unfold pkcs7_pad. rewrite length_app, length_replicate.
  pose proof (Nat.div_mod_eq (length data) 16).
  pose proof (Nat.mod_upper_bound (length data) 16). lia.
Qed.

Lemma cipher_update_final_length P (laws : PlatformLaws P) key iv data :
  String.length key = 32%nat -> length iv = 16%nat ->
  length (cipher_update_final P key iv data) = (16 * (length data / 16 + 1))%nat.
Proof.
  intros Hk Hiv. unfold cipher_update_final.
  rewrite pkcs7_pad_length_exact, blocks_div.
  apply (cbc_encrypt_length P laws).
  - now rewrite Buffer_from_utf8_length.
  - exact Hiv.
  - apply pkcs7_pad_length_exact.
Qed.

Section Persist.
Variable P : Platform.
Hypothesis laws : PlatformLaws P.
Variable env : Env.
Hypothesis random_ok : random_source_ok env.
Variable productId : string.
Variable options : GumroadLicenseOptions.

Lemma persist_cases licenseKey response w :
  let licenseFile :=
    FileBacked.license_file P options
      (store w !! "license.fileName") (store w !! "license.fileExtension") in
  let iv := randomBytes env (random_draws w) in
  let run := FileBacked.persist P env productId options licenseKey response w in
  if writable env licenseFile then
    fst run = Returned (AddSuccess response) /\
    store (snd run)
    = persisted_store env licenseKey (Buffer_toString_hex iv) licenseFile w /\
    files (snd run)
    = <[licenseFile :=
          cipher_update_final P (derive_secret P productId (machineIdSync env)) iv
            (Buffer_from_utf8 licenseKey)]> (files w)
  else
    fst run = Thrown (FsError "EACCES") /\
    store (snd run) = half_persisted_store env licenseKey w /\
    files (snd run) = files w.
Proof.
  cbn zeta.
  remember (FileBacked.persist P env productId options licenseKey response w)
    as run eqn:Hrun.
  unfold FileBacked.persist, bind, Date_now_, licenseStore_set, licenseStore_get,
    modify, gets, randomBytes_, writeFileSync, throw, ret in Hrun.
  cbn in Hrun.
  rewrite check_key_iv_ok in Hrun
    by (apply derive_secret_length, laws || apply random_ok).
  revert Hrun. store_lookup.
  destruct (writable env _); intros ->; cbn; repeat split; reflexivity.
Qed.
End Persist.

(** ** A file-backed activation, by whether the file can be written *)

Section FileActivationOutcome.
Variable P : Platform.
Hypothesis laws : PlatformLaws P.
Variable env : Env.
Hypothesis random_ok : random_source_ok env.
Variable productId : string.
Variable options : GumroadLicenseOptions.

(** Where [addLicense] stands when it comes to the incrementing
    verification: after the pre-check, if there is one. *)
Lemma file_addLicense_proceeds licenseKey w :
  precheck_passes env options (length (sent w))
    (FileBacked.verification_request productId licenseKey false) ->
  exists w0,
    store w0 = store w /\ files w0 = files w /\
    clock_reads w0 = clock_reads w /\ random_draws w0 = random_draws w /\
    length (sent w0) = incrementing_index options (length (sent w)) /\
    FileBacked.addLicense P env productId options licenseKey w
    = FileBacked.activate P env productId options licenseKey w0.
Proof.
  intros Hpre. unfold precheck_passes, incrementing_index in *.
  rewrite file_addLicense_run.
  destruct (maxUses options) as [limit|]; cbn zeta.
  - exists (after_request options
              (FileBacked.verification_request productId licenseKey false) w).
    rewrite after_request_length. repeat (split; [reflexivity|]).
    destruct (verdict _) as [r|e|x] eqn:E; try reflexivity.
    specialize (Hpre limit r eq_refl eq_refl).
    destruct (Z.leb_spec limit (uses r)); [lia|reflexivity].
  - exists w. repeat (split; [reflexivity|]). reflexivity.
Qed.

Lemma file_activate_valid licenseKey w0 r :
  verdict (post env (length (sent w0))
             (FileBacked.verification_request productId licenseKey true))
  = CheckValid r ->
  FileBacked.activate P env productId options licenseKey w0
  = FileBacked.persist P env productId options licenseKey r
      (after_request options
         (FileBacked.verification_request productId licenseKey true) w0).
Proof.
  intros Hv. unfold FileBacked.activate, bind at 1.
  rewrite file_validate_run, Hv. reflexivity.
Qed.

Lemma file_addLicense_valid licenseKey w r :
  precheck_passes env options (length (sent w))
    (FileBacked.verification_request productId licenseKey false) ->
  verdict (post env (incrementing_index options (length (sent w)))
             (FileBacked.verification_request productId licenseKey true))
  = CheckValid r ->
  let licenseFile :=
    FileBacked.license_file P options
      (store w !! "license.fileName") (store w !! "license.fileExtension") in
  let iv := randomBytes env (random_draws w) in
  let run := FileBacked.addLicense P env productId options licenseKey w in
  if writable env licenseFile then
    fst run = Returned (AddSuccess r) /\
    store (snd run)
    = persisted_store env licenseKey (Buffer_toString_hex iv) licenseFile w /\
    files (snd run)
    = <[licenseFile :=
          cipher_update_final P (derive_secret P productId (machineIdSync env)) iv
            (Buffer_from_utf8 licenseKey)]> (files w)
  else
    fst run = Thrown (FsError "EACCES") /\
    store (snd run) = half_persisted_store env licenseKey w /\
    files (snd run) = files w.
Proof.
  intros Hpre Hv. cbn zeta.
  destruct (file_addLicense_proceeds licenseKey w Hpre)
    as (w0 & Hs & Hf & Hc & Hr & Hn & ->).
  rewrite <- Hn in Hv. rewrite (file_activate_valid licenseKey w0 r Hv).
  pose proof (persist_cases P laws env random_ok productId options licenseKey r
                (after_request options
                   (FileBacked.verification_request productId licenseKey true) w0))
    as H.
  cbn zeta in H.
  unfold persisted_store, half_persisted_store in *.
  set (wa := after_request options
               (FileBacked.verification_request productId licenseKey true) w0) in *.
  assert (Es : store wa = store w) by exact Hs.
  assert (Ef : files wa = files w) by exact Hf.
  assert (Ec : clock_reads wa = clock_reads w) by exact Hc.
  assert (Er : random_draws wa = random_draws w) by exact Hr.
  rewrite Es, Ef, Ec, Er in H. exact H.
Qed.
End FileActivationOutcome.

(** X10.  A file-backed [addLicense] whose incrementing verification is
    valid succeeds exactly when the license file can be written.  Then
    the store holds the two timestamps (attempt read before success), the
    IV as 32 hexadecimal digits under "license.key" and the path; the
    file holds the cipher text, whole blocks and always longer than the
    key.  When the file cannot be written the call throws, with the
    timestamps and the key itself in the store and no file written. *)
Theorem file_activation_by_writability
  (P : Platform) (env : Env) (productId : string) (options : GumroadLicenseOptions)
  (licenseKey : string) (w : World) (response : GumroadSuccessResponse) :
  PlatformLaws P -> random_source_ok env ->
  precheck_passes env options (length (sent w))
    (FileBacked.verification_request productId licenseKey false) ->
  verdict (post env (incrementing_index options (length (sent w)))
             (FileBacked.verification_request productId licenseKey true))
  = CheckValid response ->
  let licenseFile :=
    FileBacked.license_file P options
      (store w !! "license.fileName") (store w !! "license.fileExtension") in
  let iv := randomBytes env (random_draws w) in
  let cipherText :=
    cipher_update_final P (derive_secret P productId (machineIdSync env)) iv
      (Buffer_from_utf8 licenseKey) in
  let run := FileBacked.addLicense P env productId options licenseKey w in
  (writable env licenseFile = true ->
   fst run = Returned (AddSuccess response) /\
   store (snd run)
   = persisted_store env licenseKey (Buffer_toString_hex iv) licenseFile w /\
   files (snd run) = <[licenseFile := cipherText]> (files w) /\
   String.length (Buffer_toString_hex iv) = 32%nat /\
   length cipherText = (16 * (String.length licenseKey / 16 + 1))%nat)
  /\
  (writable env licenseFile = false ->
   fst run = Thrown (FsError "EACCES") /\
   store (snd run) = half_persisted_store env licenseKey w /\
   files (snd run) = files w).
Proof.
  intros laws random_ok Hpre Hv licenseFile iv cipherText run.
  pose proof (file_addLicense_valid P laws env random_ok productId options
                licenseKey w response Hpre Hv) as H.
  cbn zeta in H. fold licenseFile iv cipherText run in H.
  split; intros Hw; rewrite Hw in H.
  - destruct H as (Hr & Hs & Hf). repeat (split; [assumption|]). split.
    + rewrite Buffer_toString_hex_length. unfold iv. now rewrite random_ok.
    + unfold cipherText.
      rewrite (cipher_update_final_length P laws)
        by (apply derive_secret_length, laws || apply random_ok).
      now rewrite Buffer_from_utf8_length.
  - exact H.
Qed.

Lemma file_activation_by_writability_witness :
  let env := sample_env stepping_clock (fun _ _ => inr (valid_response 1)) true in
  let w := fresh FileBacked.defaults in
  let run := FileBacked.addLicense sample_platform env "prod_1" no_options long_key w in
  fst run = Returned (AddSuccess {| uses := 1; purchase := sample_purchase |}) /\
  store (snd run) !! "license.key"
  = Some (VString "000102030405060708090a0b0c0d0e0f") /\
  store (snd run) !! "license.filePath" = Some (VString "/data/license.key") /\
  (length <$> files (snd run) !! "/data/license.key") = Some 48%nat.
Proof.
  intros env w run.
  destruct (proj1 (file_activation_by_writability sample_platform env "prod_1"
                     no_options long_key w {| uses := 1; purchase := sample_purchase |}
                     sample_platform_laws (sample_random_source _ _ _)
                     ltac:(intros limit r H; discriminate H) eq_refl) eq_refl)
    as (Hr & Hs & Hf & _ & Hl).
  split; [exact Hr|]. fold run in Hs, Hf. rewrite Hs, Hf.
  split; [reflexivity|]. split; [reflexivity|].
  rewrite lookup_insert_eq. cbn [fmap option_fmap option_map]. now rewrite Hl.
Defined.

(** ** The record of the file-backed variant, across the operations *)

Lemma settle_keeps env options v w path :
  path <> "license.lastCheckSuccess" -> path <> "license.purchase" ->
  store (snd (settle env options v w)) !! path = store w !! path.
Proof.
  intros Hs Hp. destruct v as [r|e|x].
  - cbn. unfold Store.set. now rewrite !lookup_insert_ne by congruence.
  - cbn. now other_path.
  - unfold settle. now rewrite (proj1 (offline_fallback_store env options w)).
Qed.

Lemma license_on_record_same P env productId options w w' k :
  store w' !! "license.fileName" = store w !! "license.fileName" ->
  store w' !! "license.fileExtension" = store w !! "license.fileExtension" ->
  store w' !! "license.filePath" = store w !! "license.filePath" ->
  store w' !! "license.key" = store w !! "license.key" ->
  files w' = files w ->
  license_on_record P env productId options w k ->
  license_on_record P env productId options w' k.
Proof.
  intros Hn He Hp Hk Hf (In & Ie & Ik). unfold license_on_record.
  rewrite Hn, He, Hf. split; [exact In|]. split; [exact Ie|].
  destruct k as [key|]; [|now rewrite Hp].
  destruct Ik as (iv & Hiv & Hw & Hkey & Hpath & Hfile).
  exists iv. rewrite Hk, Hp. auto.
Qed.

Section FileRecord.
Variable P : Platform.
Hypothesis laws : PlatformLaws P.
Variable env : Env.
Hypothesis random_ok : random_source_ok env.
Variable productId : string.
Variable options : GumroadLicenseOptions.

Lemma file_check_keeps_record w k :
  license_on_record P env productId options w k ->
  license_on_record P env productId options
    (snd (FileBacked.checkCurrentLicense P env productId options w)) k.
Proof.
  intros Hrec.
  destruct (file_check_cases P env productId options w)
    as [E|[[e E]|[licenseKey E]]]; rewrite E; try exact Hrec.
  cbn zeta.
  set (v := verdict _). set (w1 := after_request _ _ _).
  destruct (settle_frame env options v w1) as (_ & Hf & _ & _).
  apply (license_on_record_same P env productId options w); try exact Hrec;
    try (rewrite settle_keeps by discriminate; subst w1; cbn; store_lookup; reflexivity).
  rewrite Hf. reflexivity.
Qed.

Lemma file_activate_keeps_record licenseKey w w0 k :
  store w0 = store w -> files w0 = files w ->
  license_on_record P env productId options w k ->
  let run := FileBacked.activate P env productId options licenseKey w0 in
  license_on_record P env productId options (snd run)
    match fst run with
    | Returned (AddSuccess _) => Some licenseKey
    | _ => k
    end.
Proof.
  intros Hs Hf Hrec. cbn zeta.
  destruct (verdict (post env (length (sent w0))
              (FileBacked.verification_request productId licenseKey true)))
    as [r|e|x] eqn:Hv.
  - rewrite (file_activate_valid P env productId options licenseKey w0 r Hv).
    set (wa := after_request options
                 (FileBacked.verification_request productId licenseKey true) w0).
    pose proof (persist_cases P laws env random_ok productId options licenseKey r wa)
      as H.
    cbn zeta in H.
    assert (Es : store wa = store w) by exact Hs.
    assert (Ef : files wa = files w) by exact Hf.
    destruct Hrec as (In & Ie & Ik).
    rewrite Es, In, Ie in H. fold (default_license_file P options) in H.
    destruct (writable env (default_license_file P options)) eqn:Hw.
    + destruct H as (-> & Hst & Hfi).
      unfold license_on_record. rewrite Hst, Hfi. unfold persisted_store.
      rewrite Es. store_lookup. split; [exact In|]. split; [exact Ie|].
      exists (randomBytes env (random_draws wa)).
      split; [apply random_ok|]. split; [exact Hw|]. split; [reflexivity|].
      split; [reflexivity|]. reflexivity.
    + destruct H as (-> & Hst & Hfi).
      unfold license_on_record. rewrite Hst, Hfi, Ef. unfold half_persisted_store.
      rewrite Es. store_lookup. split; [exact In|]. split; [exact Ie|].
      destruct k as [key|]; [|exact Ik].
      destruct Ik as (iv & _ & Hw' & _). congruence.
  - rewrite (file_activate_failure P env productId options licenseKey w0 (Classified e))
      by (now rewrite Hv).
    cbn [fst snd].
    apply (license_on_record_same P env productId options w); cbn;
      rewrite ?Hs, ?Hf; auto.
  - rewrite (file_activate_failure P env productId options licenseKey w0 (Raw x))
      by (now rewrite Hv).
    cbn [fst snd].
    apply (license_on_record_same P env productId options w); cbn;
      rewrite ?Hs, ?Hf; auto.
Qed.

Lemma file_perform_keeps_record op w k :
  license_on_record P env productId options w k ->
  license_on_record P env productId options
    (FileSession.perform P env productId options op w)
    (key_after P env productId options op w k).
Proof.
  intros Hrec. destruct op as [licenseKey| |]; cbn [FileSession.perform key_after].
  - rewrite file_addLicense_run.
    destruct (maxUses options) as [limit|]; cbn zeta;
      [|now apply (file_activate_keeps_record licenseKey w w k)].
    destruct (verdict _) as [r|e|x];
      [destruct (Z.leb limit (uses r))| |];
      try (now apply (file_activate_keeps_record licenseKey w _ k)).
    cbn [fst snd].
    apply (license_on_record_same P env productId options w); auto.
  - now apply file_check_keeps_record.
  - repeat split.
Qed.

Lemma file_reachable_record w :
  reachable (FileSession.perform P env productId options)
    (fresh FileBacked.defaults) w ->
  exists k, license_on_record P env productId options w k.
Proof.
  induction 1 as [|op w Hr [k IH]].
  - exists None. repeat split.
  - eexists. apply file_perform_keeps_record. exact IH.
Qed.

Lemma file_check_of_record w k :
  license_on_record P env productId options w k ->
  let run := FileBacked.checkCurrentLicense P env productId options w in
  match k with
  | None => run = (Returned CurrentNotSet, w)
  | Some licenseKey =>
      new_requests w (snd run)
      = [FileBacked.verification_request productId licenseKey false] /\
      exists r, fst run = Returned r /\ r <> CurrentNotSet
  end.
Proof.
  intros (In & Ie & Ik). cbn zeta. destruct k as [licenseKey|].
  - destruct Ik as (iv & Hiv & Hw & Hkey & Hpath & Hfile).
    pose proof (decrypt_license_stored P laws env productId licenseKey iv _ w Hiv Hfile)
      as Hdec.
    rewrite (file_check_run P env productId options _ _ w Hkey Hpath);
      [|now apply hex_not_empty|apply (join_not_empty P laws)|rewrite Hfile; eauto].
    rewrite Hdec. cbn zeta. cbn [fst].
    split; [apply new_requests_app; rewrite settle_sent; reflexivity|].
    apply settle_returns.
  - apply file_check_off_record. intros (iv & path & _ & _ & Hp & Hne & _).
    rewrite Ik in Hp. injection Hp as <-. now destruct Hne.
Qed.
End FileRecord.

(** X11.  As long as only the operations touch the store and the license
    file, the record of the file-backed variant is whole in every world
    a session reaches: either no license file is on record and a recheck
    answers [NotSet], or the store holds an IV and the file the cipher
    text of the key of the last successful [addLicense] since the last
    [clearLicense]; a recheck then deciphers it, does not throw, and
    sends exactly that key for verification. *)
Theorem file_record_stays_whole
  (P : Platform) (env : Env) (productId : string) (options : GumroadLicenseOptions)
  (w : World) :
  PlatformLaws P -> random_source_ok env ->
  reachable (FileSession.perform P env productId options) (fresh FileBacked.defaults) w ->
  exists k,
    license_on_record P env productId options w k /\
    (forall op,
       license_on_record P env productId options
         (FileSession.perform P env productId options op w)
         (key_after P env productId options op w k)) /\
    let run := FileBacked.checkCurrentLicense P env productId options w in
    match k with
    | None => run = (Returned CurrentNotSet, w)
    | Some licenseKey =>
        new_requests w (snd run)
        = [FileBacked.verification_request productId licenseKey false] /\
        exists r, fst run = Returned r /\ r <> CurrentNotSet
    end.
Proof.
  intros laws random_ok Hreach.
  destruct (file_reachable_record P laws env random_ok productId options w Hreach)
    as [k Hk].
  exists k. split; [exact Hk|]. split.
  - intros op. now apply file_perform_keeps_record.
  - now apply file_check_of_record.
Qed.

Lemma file_record_stays_whole_witness :
  let env := sample_env stepping_clock (only_for long_key) true in
  let step := FileSession.perform sample_platform env "prod_1" no_options in
  let w := step (Activate "WRONG-KEY") (step Recheck (step (Activate long_key)
             (step Clear (fresh FileBacked.defaults)))) in
  exists k,
    license_on_record sample_platform env "prod_1" no_options w k.
Proof.
  intros env step w.
  destruct (file_record_stays_whole sample_platform env "prod_1" no_options w
              sample_platform_laws (sample_random_source _ _ _)) as (k & Hk & _).
  - repeat apply reachable_step. apply reachable_start.
  - exists k. exact Hk.
Defined.


(** ** The limit is checked once *)

(** X8.  In the file-backed variant, with [maxUses] set, a valid
    pre-check below the limit lets the activation go on: the incrementing
    request follows, and the call ends as an activation without a limit
    would after the first request.  The use count of the second answer is
    not looked at: when it is valid and the license file can be written,
    the activation succeeds whatever count it reports. *)
Theorem limit_is_checked_on_the_precheck_only
  (P : Platform) (env : Env) (productId : string) (options : GumroadLicenseOptions)
  (licenseKey : string) (limit : Z) (w : World)
  (first second : GumroadSuccessResponse) :
  PlatformLaws P -> random_source_ok env ->
  maxUses options = Some limit ->
  let pre := FileBacked.verification_request productId licenseKey false in
  let inc := FileBacked.verification_request productId licenseKey true in
  let run := FileBacked.addLicense P env productId options licenseKey w in
  verdict (post env (length (sent w)) pre) = CheckValid first ->
  uses first < limit ->
  run = FileBacked.activate P env productId options licenseKey
          (after_request options pre w) /\
  new_requests w (snd run) = [pre; inc] /\
  (verdict (post env (S (length (sent w))) inc) = CheckValid second ->
   writable env (FileBacked.license_file P options
                   (store w !! "license.fileName") (store w !! "license.fileExtension"))
   = true ->
   fst run = Returned (AddSuccess second)).
Proof.
  intros laws random_ok Hm pre inc run Hv Hlt.
  assert (E : run = FileBacked.activate P env productId options licenseKey
                      (after_request options pre w)).
  { unfold run. rewrite file_addLicense_run, Hm. cbn zeta. fold pre. rewrite Hv.
    destruct (Z.leb_spec limit (uses first)); [lia|reflexivity]. }
  split; [exact E|]. split.
  - apply new_requests_app. rewrite E, file_activate_sent. cbn.
    now rewrite <- app_assoc.
  - intros Hs Hw.
    assert (Hpre : precheck_passes env options (length (sent w)) pre).
    { intros limit' r Hm' Hr. rewrite Hm in Hm'. injection Hm' as <-.
      fold pre in Hv. rewrite Hv in Hr. injection Hr as <-. exact Hlt. }
    pose proof (file_addLicense_valid P laws env random_ok productId options
                  licenseKey w second Hpre) as H.
    unfold incrementing_index in H. rewrite Hm in H. specialize (H Hs).
    cbn zeta in H. rewrite Hw in H. apply H.
Qed.

Lemma limit_is_checked_on_the_precheck_only_witness :
  let service := fun (n : nat) (_ : Request) =>
    match n with
    | O => inr (valid_response 2)
    | _ => inr (valid_response 9)
    end in
  let env := sample_env stepping_clock service true in
  let w := fresh FileBacked.defaults in
  let run := FileBacked.addLicense sample_platform env "prod_1" (with_maxUses 3) "ABC-123" w in
  new_requests w (snd run)
  = [FileBacked.verification_request "prod_1" "ABC-123" false;
     FileBacked.verification_request "prod_1" "ABC-123" true] /\
  fst run = Returned (AddSuccess {| uses := 9; purchase := sample_purchase |}).
Proof.
  intros service env w run.
  destruct (limit_is_checked_on_the_precheck_only sample_platform env "prod_1"
              (with_maxUses 3) "ABC-123" 3 w
              {| uses := 2; purchase := sample_purchase |}
              {| uses := 9; purchase := sample_purchase |}
              sample_platform_laws (sample_random_source _ _ _) eq_refl eq_refl
              ltac:(cbn; lia)) as (_ & N & H).
  split; [exact N|]. apply H; reflexivity.
Defined.
(** ** No timestamp on the record without a key *)

Lemma record_has_key_same (s s' : gmap string value) :
  s' = s -> record_has_key s -> record_has_key s'.
Proof. now intros ->. Qed.

Lemma record_has_key_of key (s : gmap string value) :
  s !! "license.key" = Some (VString key) -> record_has_key s.
Proof. intros Hk _. eauto. Qed.

Lemma settle_has_key env options v w key :
  store w !! "license.key" = Some (VString key) ->
  record_has_key (store (snd (settle env options v w))).
Proof.
  intros Hk. apply (record_has_key_of key).
  rewrite settle_keeps by discriminate. exact Hk.
Qed.

Lemma plain_perform_has_key env productId options op w :
  record_has_key (store w) ->
  record_has_key (store (PlainSession.perform env productId options op w)).
Proof.
  intros Hrec. destruct op as [licenseKey| |]; cbn [PlainSession.perform].
  - destruct (plain_addLicense_fails env productId options licenseKey w)
      as (_ & -> & _).
    exact Hrec.
  - destruct (store w !! "license.key") as [[key|t|b|p]|] eqn:E;
      try (rewrite plain_check_not_set
             by (intros k Hk; rewrite E in Hk; discriminate Hk); exact Hrec).
    destruct (decide (key = "")) as [->|Hne].
    + rewrite plain_check_not_set
        by (intros k Hk; rewrite E in Hk; now injection Hk). exact Hrec.
    + rewrite (plain_check_run env productId options key w E Hne). cbn zeta.
      apply (settle_has_key env options _ _ key). cbn. store_lookup. exact E.
  - cbn. intros [[v Hv]|[v Hv]].
    + now rewrite (proj1 (plain_defaults_timestamps env productId options)) in Hv.
    + now rewrite (proj1 (proj2 (plain_defaults_timestamps env productId options))) in Hv.
Qed.

Lemma file_perform_has_key P env productId options op w :
  record_has_key (store w) ->
  record_has_key (store (FileSession.perform P env productId options op w)).
Proof.
  intros Hrec. destruct op as [licenseKey| |]; cbn [FileSession.perform].
  - assert (Hper : forall response w0,
      record_has_key
        (store (snd (FileBacked.persist P env productId options licenseKey response w0)))).
    { intros response w0.
      remember (FileBacked.persist P env productId options licenseKey response w0)
        as run eqn:Hrun.
      unfold FileBacked.persist, bind, Date_now_, licenseStore_set, licenseStore_get,
        modify, gets, randomBytes_, check_key_iv, writeFileSync, throw, ret in Hrun.
      cbn in Hrun.
      repeat (match type of Hrun with
              | context [if ?b then _ else _] => destruct b; cbn in Hrun
              end);
        subst run; cbn;
        (eapply record_has_key_of; store_lookup; reflexivity). }
    assert (Hact : forall w0, store w0 = store w ->
      record_has_key
        (store (snd (FileBacked.activate P env productId options licenseKey w0)))).
    { intros w0 Hs.
      remember (FileBacked.activate P env productId options licenseKey w0) as run eqn:Hrun.
      unfold FileBacked.activate, bind at 1 in Hrun. rewrite file_validate_run in Hrun.
      destruct (verdict _) as [r|e|x]; subst run;
        [apply Hper|cbn; now rewrite Hs|cbn; now rewrite Hs]. }
    rewrite file_addLicense_run.
    destruct (maxUses options) as [limit|]; cbn zeta;
      [destruct (verdict _) as [r|e|x];
       [destruct (Z.leb limit (uses r)); [exact Hrec|]| |]|];
      now apply Hact.
  - destruct (store w !! "license.key") as [[key|t|b|p]|] eqn:E;
      try (rewrite file_check_off_record
             by (intros (iv & path & Hk & _); rewrite E in Hk; discriminate Hk);
           exact Hrec).
    destruct (file_check_cases P env productId options w)
      as [Ec|[[e Ec]|[licenseKey Ec]]]; rewrite Ec; try exact Hrec.
    cbn zeta. apply (settle_has_key env options _ _ key). cbn. store_lookup. exact E.
  - cbn. intros [[v Hv]|[v Hv]]; discriminate Hv.
Qed.

(** X12.  In every world a session reaches, the store has a key whenever
    it has a timestamp: the timestamps are only written together with a
    key or for a key that is there, and [clearLicense] erases them all
    at once. *)
Theorem record_is_never_without_key
  (P : Platform) (env : Env) (productId : string) (options : GumroadLicenseOptions)
  (w : World) :
  (reachable (FileSession.perform P env productId options)
     (fresh FileBacked.defaults) w ->
   record_has_key (store w)) /\
  (reachable (PlainSession.perform env productId options)
     (fresh (Plain.defaults env productId options)) w ->
   record_has_key (store w)).
Proof.
  split.
  - induction 1 as [|op w Hr IH].
    + cbn. intros [[v Hv]|[v Hv]]; discriminate Hv.
    + now apply file_perform_has_key.
  - induction 1 as [|op w Hr IH].
    + cbn. intros [[v Hv]|[v Hv]].
      * now rewrite (proj1 (plain_defaults_timestamps env productId options)) in Hv.
      * now rewrite (proj1 (proj2 (plain_defaults_timestamps env productId options)))
          in Hv.
    + now apply plain_perform_has_key.
Qed.

Lemma record_is_never_without_key_witness :
  let env := sample_env stepping_clock (fun _ _ => inr (valid_response 1)) true in
  let step := FileSession.perform sample_platform env "prod_1" no_options in
  let w := step Recheck (step (Activate "ABC-123") (fresh FileBacked.defaults)) in
  store w !! "license.lastCheckSuccess" = Some (VNumber 2500) /\
  record_has_key (store w).
Proof.
  intros env step w. split; [vm_compute; reflexivity|].
  apply (proj1 (record_is_never_without_key sample_platform env "prod_1" no_options _)).
  apply (reachable_step step _ Recheck).
  apply (reachable_step step _ (Activate "ABC-123")). apply reachable_start.
Defined.
(** ** What each operation may write *)

Section Footprint.
Variable P : Platform.
Variable env : Env.
Variable productId : string.
Variable options : GumroadLicenseOptions.

Lemma plain_addLicense_footprint licenseKey w path :
  path <> "license.key" -> path <> "license.lastCheckAttempt" ->
  path <> "license.lastCheckSuccess" ->
  let w' := snd (Plain.addLicense env productId options licenseKey w) in
  store w' !! path = store w !! path /\ files w' = files w.
Proof.
  intros Hk Ha Hs. cbn zeta.
  destruct (plain_addLicense_fails env productId options licenseKey w)
    as (_ & -> & -> & _).
  auto.
Qed.

Lemma settle_footprint v w path :
  path <> "license.lastCheckSuccess" -> path <> "license.purchase" ->
  store (snd (settle env options v w)) !! path = store w !! path /\
  files (snd (settle env options v w)) = files w.
Proof.
  intros Hs Hp. split; [now apply settle_keeps|].
  apply (settle_frame env options v w).
Qed.

Lemma plain_check_footprint w path :
  path <> "license.lastCheckAttempt" -> path <> "license.lastCheckSuccess" ->
  path <> "license.purchase" ->
  let w' := snd (Plain.checkCurrentLicense env productId options w) in
  store w' !! path = store w !! path /\ files w' = files w.
Proof.
  intros Ha Hs Hp. cbn zeta.
  destruct (store w !! "license.key") as [[key|t|b|p]|] eqn:E;
    try (rewrite plain_check_not_set
           by (intros k Hk; rewrite E in Hk; discriminate Hk); auto).
  destruct (decide (key = "")) as [->|Hne].
  - rewrite plain_check_not_set
      by (intros k Hk; rewrite E in Hk; now injection Hk). auto.
  - rewrite (plain_check_run env productId options key w E Hne). cbn zeta.
    destruct (settle_footprint
                (response_verdict (post env (length (sent w))
                   (Plain.verification_request productId options key false)))
                (after_request options
                   (Plain.verification_request productId options key false)
                   (attempt_recorded env w)) path Hs Hp) as [-> ->].
    cbn. other_path. auto.
Qed.

Lemma file_check_footprint w path :
  path <> "license.lastCheckAttempt" -> path <> "license.lastCheckSuccess" ->
  path <> "license.purchase" ->
  let w' := snd (FileBacked.checkCurrentLicense P env productId options w) in
  store w' !! path = store w !! path /\ files w' = files w.
Proof.
  intros Ha Hs Hp. cbn zeta.
  destruct (file_check_cases P env productId options w)
    as [E|[[e E]|[licenseKey E]]]; rewrite E; auto.
  cbn zeta.
  destruct (settle_footprint
              (verdict (post env (length (sent w))
                 (FileBacked.verification_request productId licenseKey false)))
              (after_request options
                 (FileBacked.verification_request productId licenseKey false)
                 (attempt_recorded env w)) path Hs Hp) as [-> ->].
  cbn. other_path. auto.
Qed.

Lemma file_addLicense_footprint licenseKey w path file :
  path <> "license.key" -> path <> "license.lastCheckAttempt" ->
  path <> "license.lastCheckSuccess" -> path <> "license.filePath" ->
  file <> FileBacked.license_file P options
            (store w !! "license.fileName") (store w !! "license.fileExtension") ->
  let w' := snd (FileBacked.addLicense P env productId options licenseKey w) in
  store w' !! path = store w !! path /\ files w' !! file = files w !! file.
Proof.
  intros Hk Ha Hs Hp Hf. cbn zeta.
  assert (Hper : forall response w0, store w0 = store w -> files w0 = files w ->
    store (snd (FileBacked.persist P env productId options licenseKey response w0))
      !! path = store w !! path /\
    files (snd (FileBacked.persist P env productId options licenseKey response w0))
      !! file = files w !! file).
  { intros response w0 Es Ef.
    remember (FileBacked.persist P env productId options licenseKey response w0)
      as run eqn:Hrun.
    unfold FileBacked.persist, bind, Date_now_, licenseStore_set, licenseStore_get,
      modify, gets, randomBytes_, check_key_iv, writeFileSync, throw, ret in Hrun.
    cbn in Hrun. revert Hrun. store_lookup. rewrite Es. intros Hrun.
    repeat (match type of Hrun with
            | context [if ?b then _ else _] => destruct b; cbn in Hrun
            end);
      subst run; cbn; other_path; rewrite ?Es, ?Ef; auto. }
  assert (Hact : forall w0, store w0 = store w -> files w0 = files w ->
    store (snd (FileBacked.activate P env productId options licenseKey w0)) !! path
    = store w !! path /\
    files (snd (FileBacked.activate P env productId options licenseKey w0)) !! file
    = files w !! file).
  { intros w0 Es Ef.
    remember (FileBacked.activate P env productId options licenseKey w0) as run eqn:Hrun.
    unfold FileBacked.activate, bind at 1 in Hrun. rewrite file_validate_run in Hrun.
    destruct (verdict _) as [r|e|x]; subst run;
      [now apply Hper|cbn; rewrite Es, Ef; auto|cbn; rewrite Es, Ef; auto]. }
  rewrite file_addLicense_run.
  destruct (maxUses options) as [limit|]; cbn zeta;
    [destruct (verdict _) as [r|e|x];
     [destruct (Z.leb limit (uses r)); [cbn; auto|]| |]|];
    now apply Hact.
Qed.
End Footprint.

(** X14.  What the operations write and what they leave.  [addLicense]
    writes at most the key, the two timestamps and (file-backed) the path
    and the license file; [checkCurrentLicense] writes at most the two
    timestamps and the purchase and no file.  Every other path of the
    store and every other file is after the call what it was before. *)
Theorem operations_write_only_their_fields
  (P : Platform) (env : Env) (productId : string) (options : GumroadLicenseOptions)
  (licenseKey : string) (w : World) (path file : string) :
  let licenseFile :=
    FileBacked.license_file P options
      (store w !! "license.fileName") (store w !! "license.fileExtension") in
  let added := snd (Plain.addLicense env productId options licenseKey w) in
  let added' := snd (FileBacked.addLicense P env productId options licenseKey w) in
  let checked := snd (Plain.checkCurrentLicense env productId options w) in
  let checked' := snd (FileBacked.checkCurrentLicense P env productId options w) in
  (path ∉ ["license.key"; "license.lastCheckAttempt"; "license.lastCheckSuccess"] ->
   store added !! path = store w !! path /\ files added = files w) /\
  (path ∉ ["license.key"; "license.lastCheckAttempt"; "license.lastCheckSuccess";
           "license.filePath"] ->
   file <> licenseFile ->
   store added' !! path = store w !! path /\ files added' !! file = files w !! file) /\
  (path ∉ ["license.lastCheckAttempt"; "license.lastCheckSuccess"; "license.purchase"] ->
   (store checked !! path = store w !! path /\ files checked = files w) /\
   (store checked' !! path = store w !! path /\ files checked' = files w)).
Proof.
  cbn zeta. split; [|split].
  - intros Hn. apply plain_addLicense_footprint; intros ->; apply Hn; set_solver.
  - intros Hn Hf. apply file_addLicense_footprint; try exact Hf;
      intros ->; apply Hn; set_solver.
  - intros Hn. split.
    + apply plain_check_footprint; intros ->; apply Hn; set_solver.
    + apply file_check_footprint; intros ->; apply Hn; set_solver.
Qed.

Lemma operations_write_only_their_fields_witness :
  let env := sample_env stepping_clock (fun _ _ => inr (valid_response 1)) true in
  let w := with_store (fun s => <["license.purchase" := VObject sample_purchase]> s)
             (fresh (Plain.defaults env "prod_1" no_options)) in
  store (snd (Plain.addLicense env "prod_1" no_options "ABC-123" w)) !! "license.purchase"
  = Some (VObject sample_purchase).
Proof.
  intros env w.
  destruct (proj1 (operations_write_only_their_fields sample_platform env "prod_1"
                     no_options "ABC-123" w "license.purchase" "")) as [H _].
  - repeat (apply not_elem_of_cons; split; [discriminate|]). apply not_elem_of_nil.
  - rewrite H. reflexivity.
Defined.

(** ** An invalid verdict keeps the key *)

(** X15.  A recheck whose verification is invalid puts [{}] in the place
    of the cached purchase and records the attempt, and that is all: the
    key, the earlier success time, the path and the files stay, so the
    license is still on record and can be rechecked.  In src/index.ts
    every answer that arrives has this effect. *)
Theorem invalid_recheck_keeps_the_key
  (P : Platform) (env : Env) (productId : string) (options : GumroadLicenseOptions)
  (w : World) :
  (forall ivString filePath licenseKey error,
     store w !! "license.key" = Some (VString ivString) ->
     store w !! "license.filePath" = Some (VString filePath) ->
     ivString <> "" -> filePath <> "" -> is_Some (files w !! filePath) ->
     fst (FileBacked.decrypt_license P env productId ivString filePath w)
     = Returned licenseKey ->
     let request := FileBacked.verification_request productId licenseKey false in
     verdict (post env (length (sent w)) request) = CheckInvalid error ->
     FileBacked.checkCurrentLicense P env productId options w
     = (Returned CurrentInvalid, invalidated env options request w) /\
     file_on_record (invalidated env options request w))
  /\
  (forall key result,
     store w !! "license.key" = Some (VString key) -> key <> "" ->
     let request := Plain.verification_request productId options key false in
     post env (length (sent w)) request = inr result ->
     Plain.checkCurrentLicense env productId options w
     = (Returned CurrentInvalid, invalidated env options request w) /\
     key_on_record (invalidated env options request w)).
Proof.
  cbn zeta. split.
  - intros ivString filePath licenseKey error Hk Hp Hne Hpe Hex Hd Hv.
    rewrite (file_check_run P env productId options ivString filePath w Hk Hp Hne Hpe Hex).
    rewrite Hd. cbn zeta. rewrite Hv. split; [reflexivity|].
    exists ivString, filePath. cbn. other_path. auto.
  - intros key result Hk Hne Hr.
    rewrite (plain_check_run env productId options key w Hk Hne). cbn zeta.
    rewrite Hr. split; [reflexivity|].
    exists key. cbn. split; [|exact Hne]. other_path. exact Hk.
Qed.

Lemma invalid_recheck_keeps_the_key_witness :
  let env := sample_env stepping_clock
               (changing 1 (inr (valid_response 1)) (inr refunded_response)) true in
  let w := FileSession.perform sample_platform env "prod_1" no_options
             (Activate "ABC-123") (fresh FileBacked.defaults) in
  let run := FileBacked.checkCurrentLicense sample_platform env "prod_1" no_options w in
  fst run = Returned CurrentInvalid /\
  store (snd run) !! "license.key" = store w !! "license.key" /\
  store (snd run) !! "license.lastCheckSuccess" = Some (VNumber 1000) /\
  store (snd run) !! "license.purchase" = Some (VObject empty_object) /\
  file_on_record (snd run).
Proof.
  intros env w run.
  destruct (proj1 (invalid_recheck_keeps_the_key sample_platform env "prod_1" no_options w)
              (Buffer_toString_hex sample_iv) "/data/license.key" "ABC-123"
              {| type := LicenseRefunded; message := refund_message |}
              eq_refl eq_refl ltac:(discriminate) ltac:(discriminate)
              (ex_intro _ _ eq_refl) eq_refl eq_refl) as [E Hon].
  unfold run. rewrite E.
  split; [reflexivity|]. split; [reflexivity|]. split; [reflexivity|].
  split; [reflexivity|exact Hon].
Defined.
